(** * note-to-email: template engine, template versioning and dispatch pipeline

    A shallow embedding of the backend of the note-to-email application
    ([backend/src/services/templateEngine.ts], [emailService.ts],
    [nylasEmailService.ts], [routes/templates.ts], the email routes and
    [database/schema.sql]) together with the properties the specification
    states about them, and of the code around it ([routes/notes.ts],
    [routes/nylasAuth.ts], [middleware/auth.ts] and the form handlers of
    the compose page and of the two editors) with further properties that
    the code itself shows.

    Conventions.
    - A JavaScript string is a Rocq [string]; every character stands for one
      code unit in the range U+0000..U+00FF.
    - PostgreSQL tables are lists of rows, in insertion order.  Primary
      keys and UNIQUE constraints are checked by the statements that insert.
      The widths of the columns that take a text from a request or from a
      rendering (name, title and idempotency key VARCHAR(255), subject
      VARCHAR(500)) are checked by the statements that write them: a
      longer value makes the statement raise, and nothing is written.  (A
      value whose excess is made of spaces only, which PostgreSQL cuts to
      the width, is taken to raise as well.)  Beyond that, column types are
      not modelled: every id handed to a query is taken to be a well-formed
      uuid, a provider's message id to fit its column, and the database
      itself does not fail.
    - Code that can throw lives in the monad [M]: a state transformer that
      returns either a value or the thrown JavaScript value.
    - Third-party libraries and the outside world (Handlebars, DOMPurify,
      marked, the clock, the HTTP transport, nodemailer, random UUIDs) are
      fields of the record [World]. *)

From Stdlib Require Import ZArith Ascii String List Bool Lia.
From stdpp Require Import base option list strings pretty gmap.

Import ListNotations.
Local Open Scope string_scope.
Local Open Scope list_scope.

(** ** JavaScript string primitives *)

Module Js.

(** [span p s]: the longest prefix of [s] whose characters satisfy [p],
    and what follows it. *)
Fixpoint span (p : ascii -> bool) (s : string) : string * string :=
  match s with
  | EmptyString => (EmptyString, EmptyString)
  | String c s' =>
      if p c then let (run, rest) := span p s' in (String c run, rest)
      else (EmptyString, s)
  end.

Fixpoint filter (p : ascii -> bool) (s : string) : string :=
  match s with
  | EmptyString => EmptyString
  | String c s' => if p c then String c (filter p s') else filter p s'
  end.

Fixpoint rev_onto (s acc : string) : string :=
  match s with
  | EmptyString => acc
  | String c s' => rev_onto s' (String c acc)
  end.

Definition rev (s : string) : string := rev_onto s EmptyString.

(** The characters matched by [\s] in a regular expression and removed by
    [String.prototype.trim], among the code units below 256:
    TAB, LF, VT, FF, CR, SPACE and NBSP. *)
Definition is_space (c : ascii) : bool :=
  let n := nat_of_ascii c in
  ((9 <=? n)%nat && (n <=? 13)%nat) || (n =? 32)%nat || (n =? 160)%nat.

Definition is_brace (c : ascii) : bool :=
  Ascii.eqb c "{"%char || Ascii.eqb c "}"%char.

Definition trimStart (s : string) : string := snd (span is_space s).

(** [s.trim()] *)
Definition trim (s : string) : string := rev (trimStart (rev (trimStart s))).

(** [s.startsWith(p)], returning the remainder on success. *)
Fixpoint strip_prefix (p s : string) : option string :=
  match p, s with
  | EmptyString, _ => Some s
  | String a p', String b s' => if Ascii.eqb a b then strip_prefix p' s' else None
  | String _ _, EmptyString => None
  end.

Definition startsWith (s p : string) : bool :=
  match strip_prefix p s with Some _ => true | None => false end.

(** [s.split(sep)[0]] for a one-character separator: everything before
    its first occurrence, the whole string when there is none. *)
Definition split_head (sep : ascii) (s : string) : string :=
  fst (span (fun c => negb (Ascii.eqb c sep)) s).

(** [needle] occurs in [s] ([s.includes(needle)]). *)
Fixpoint includes (s needle : string) : bool :=
  startsWith s needle ||
  match s with
  | EmptyString => false
  | String _ s' => includes s' needle
  end.

(** A regular expression anchored at the head of its input: on success
    the matched text and the rest of the input. *)
Definition matcher := string -> option (string * string).

(** [s.match(re)] with the [g] flag, for a pattern that never matches the
    empty string: the leftmost match is taken, the search resumes behind
    it, and a position where the pattern fails is skipped by one
    character.  The fuel bounds the number of positions visited. *)
Fixpoint match_all_from (m : matcher) (fuel : nat) (s : string) : list string :=
  match fuel with
  | O => []
  | S fuel' =>
      match m s with
      | Some (hit, rest) => hit :: match_all_from m fuel' rest
      | None =>
          match s with
          | EmptyString => []
          | String _ s' => match_all_from m fuel' s'
          end
      end
  end.

Definition match_all (m : matcher) (s : string) : list string :=
  match_all_from m (S (String.length s)) s.

(** [s.replace(/^kw\s+/, '')]: a leading [kw] followed by at least one
    white-space character is removed together with all the white space
    that follows it ([\s+] is greedy). *)
Definition strip_keyword (kw s : string) : string :=
  match strip_prefix kw s with
  | Some after =>
      match span is_space after with
      | (String _ _, rest) => rest
      | (EmptyString, _) => s
      end
  | None => s
  end.

(** Every character of [s] satisfies [p]. *)
Fixpoint all (p : ascii -> bool) (s : string) : bool :=
  match s with
  | EmptyString => true
  | String c s' => p c && all p s'
  end.

(** [s.replace(re, rep)] with the [g] flag, under the same proviso. *)
Fixpoint replace_all_from (m : matcher) (rep : string) (fuel : nat) (s : string) : string :=
  match fuel with
  | O => s
  | S fuel' =>
      match m s with
      | Some (_, rest) => rep +:+ replace_all_from m rep fuel' rest
      | None =>
          match s with
          | EmptyString => EmptyString
          | String c s' => String c (replace_all_from m rep fuel' s')
          end
      end
  end.

Definition replace_all (m : matcher) (rep : string) (s : string) : string :=
  replace_all_from m rep (S (String.length s)) s.

Definition is_upper (c : ascii) : bool :=
  let n := nat_of_ascii c in (65 <=? n)%nat && (n <=? 90)%nat.

Definition is_lower (c : ascii) : bool :=
  let n := nat_of_ascii c in (97 <=? n)%nat && (n <=? 122)%nat.

Definition is_letter (c : ascii) : bool := is_upper c || is_lower c.

Definition to_lower (c : ascii) : ascii :=
  if is_upper c then ascii_of_nat (nat_of_ascii c + 32) else c.


(** A literal pattern under the [i] flag, anchored at the head of the
    input.  The literal is written in lower case. *)
Fixpoint strip_prefix_ci (p s : string) : option string :=
  match p, s with
  | EmptyString, _ => Some s
  | String a p', String b s' =>
      if Ascii.eqb a (to_lower b) then strip_prefix_ci p' s' else None
  | String _ _, EmptyString => None
  end.

(** The text consumed between an input and what is left of it. *)
Definition consumed (s rest : string) : string :=
  String.substring 0 (String.length s - String.length rest) s.

Definition literal (p : string) : matcher := fun s =>
  match strip_prefix p s with Some rest => Some (p, rest) | None => None end.

Definition literal_ci (p : string) : matcher := fun s =>
  match strip_prefix_ci p s with
  | Some rest => Some (consumed s rest, rest)
  | None => None
  end.

(** Insertion into a JavaScript [Set]: a value already present keeps its
    place, a new one goes last. *)
Definition set_add (x : string) (l : list string) : list string :=
  if existsb (String.eqb x) l then l else l ++ [x].

End Js.

(** ** Variable extraction (templateEngine.ts) *)

Module VariableExtractor.

(** The pattern [\{\{[^}]+\}\}]: two opening braces, a non-empty run of
    characters other than the closing brace, two closing braces.  The run
    is greedy, and giving back part of it never helps: the character that
    would then have to be a closing brace belongs to the run. *)
Definition mustache : Js.matcher := fun s =>
  match s with
  | String "{"%char (String "{"%char s1) =>
      match Js.span (fun c => negb (Ascii.eqb c "}"%char)) s1 with
      | (String c run, String "}"%char (String "}"%char rest)) =>
          Some ("{{" +:+ String c run +:+ "}}", rest)
      | _ => None
      end
  | _ => None
  end.

(** The chain of string operations applied to one match. *)
Definition variable_of_match (m : string) : string :=
  Js.split_head "."%char
    (Js.trim
       (Js.strip_keyword "unless"
          (Js.strip_keyword "if"
             (Js.strip_keyword "#each"
                (Js.filter (fun c => negb (Js.is_brace c)) m))))).

(** The guard [variable && !variable.startsWith('/') && variable !== 'this']. *)
Definition keeps (variable : string) : bool :=
  negb (String.eqb variable "") &&
  negb (Js.startsWith variable "/") &&
  negb (String.eqb variable "this").

Definition add_match (vars : list string) (m : string) : list string :=
  let variable := variable_of_match m in
  if keeps variable then Js.set_add variable vars else vars.

(** [extractTemplateVariables(subject, body)] *)
Definition extractTemplateVariables (subject body : string) : list string :=
  let content := subject +:+ " " +:+ body in
  fold_left add_match (Js.match_all mustache content) [].

End VariableExtractor.

(** ** JavaScript values, thrown values, rows of the database *)

(** The values this program handles: template bindings (strings and one
    number) and the results of [JSON.parse]. *)
#[warnings="-register-all"]
Inductive jsval : Type :=
| JUndefined
| JNull
| JBool (b : bool)
| JNumber (n : Z)
| JString (s : string)
| JArray (items : list jsval)
| JObject (fields : list (string * jsval)).

(** A thrown value: an [Error] object with its message, or some value that
    is not an [Error] and carries no [message] property.  The transports of
    this program ([fetch], the [Response] body readers, [JSON.parse],
    googleapis, nodemailer, pg) reject with [Error] objects; [null] and
    [undefined] are never thrown. *)
Inductive thrown : Type :=
| JsError (message : string)
| JsNonError.

(** Milliseconds since the epoch. *)
Definition Date := Z.

Record User := {
  user_id : string;
  user_email : string;
  user_name : string;
  gmail_refresh_token : option string;
  gmail_access_token : option string;
  gmail_token_expires_at : option Date;
  nylas_access_token : option string;
  has_nylas_auth : option bool;
}.

Record Note := {
  note_id : string;
  note_user_id : string;
  note_title : string;
  note_content : string;
  note_created_at : Date;
  note_updated_at : Date;
}.

(** A row of [email_templates].  The bookkeeping columns [created_at] and
    [updated_at] are left out. *)
Record EmailTemplate := {
  tpl_id : string;
  tpl_user_id : string;
  tpl_name : string;
  tpl_subject : string;
  tpl_body : string;
  tpl_variables : list string;
  tpl_version : Z;
  tpl_is_active : bool;
}.

(** A row of [email_template_versions]. *)
Record EmailTemplateVersion := {
  ver_template_id : string;
  ver_version : Z;
  ver_subject : string;
  ver_body : string;
  ver_variables : list string;
}.

Inductive send_status := Pending | Sent | Failed.

(** A row of [sent_emails] (without [created_at] and [updated_at]). *)
Record SentEmail := {
  se_id : string;
  se_user_id : string;
  se_note_id : string;
  se_template_id : string;
  se_template_version : Z;
  se_idempotency_key : string;
  se_recipients : list string;
  se_subject : string;
  se_body_html : string;
  se_body_text : string;
  se_status : send_status;
  se_error_message : option string;
  se_provider_message_id : option jsval;
  se_sent_at : option Date;
}.

#[global] Instance send_status_eq_dec : EqDecision send_status.
Proof. solve_decision. Defined.

(** ** Requests to providers, and what is observed of a run *)

Inductive provider := Nylas | Gmail.

#[global] Instance provider_eq_dec : EqDecision provider.
Proof. solve_decision. Defined.

(** The object [messageData] serialised into the body of the Nylas request. *)
Record NylasMessage := {
  nm_subject : string;
  nm_body : string;
  nm_to : list (string * string);   (* name, email *)
  nm_text : option string;
}.

Record HttpRequest := {
  rq_url : string;
  rq_method : string;
  rq_headers : list (string * string);
  rq_body : NylasMessage;
}.

Record HttpResponse := {
  rs_ok : bool;
  rs_status : Z;
  rs_text : thrown + string;        (* what [await response.text()] gives *)
}.

(** The transporter built by [nodemailer.createTransport]. *)
Record Transporter := {
  tr_user : string;
  tr_refreshToken : option string;
  tr_accessToken : option string;
}.

Record MailOptions := {
  mo_from : string;
  mo_to : string;
  mo_subject : string;
  mo_html : string;
  mo_text : string;
}.

(** The credentials returned by [oauth2Client.refreshAccessToken()]. *)
Record Credentials := {
  cred_access_token : option string;
  cred_expiry_date : option Z;
}.

(** The uniform result of a provider adapter. *)
Record EmailSendResult := {
  messageId : jsval;
  success : bool;
  error : option string;
}.

Inductive event :=
| EvRender (template note : string)                   (* renderTemplate is called *)
| EvInsertSentEmail (id : string)                     (* INSERT INTO sent_emails *)
| EvSelectCredentials (user : string)                 (* SELECT ... tokens FROM users *)
| EvAdapterSend (p : provider) (recipients : list string)
                (subject html text : string)          (* an adapter's sendEmail is entered *)
| EvHttp (rq : HttpRequest)                           (* fetch *)
| EvSendMail (t : Transporter) (m : MailOptions)      (* transporter.sendMail *)
| EvFinalize (id : string) (s : send_status).         (* updateSentEmailStatus *)

(** The options object given to [purify.sanitize]. *)
Record PurifyConfig := {
  ALLOWED_TAGS : list string;
  ALLOWED_ATTR : list string;
  ALLOWED_URI_REGEXP : string -> bool;
}.

(** ** The state of a run and the outside world *)

Record State := {
  users : list User;
  notes : list Note;
  email_templates : list EmailTemplate;
  email_template_versions : list EmailTemplateVersion;
  sent_emails : list SentEmail;
  trace : list event;     (* oldest first *)
  tick : nat;             (* number of questions asked to the world so far *)
}.

(** What the program does not decide.  The answers that may change from one
    call to the next take the current [tick]. *)
Record World := {
  (* Handlebars.compile(source)(context) *)
  handlebars : string -> gmap string jsval -> thrown + string;
  (* Handlebars.compile(source), as used by validateTemplate: the message of
     the exception, if one is thrown *)
  handlebars_compile_error : string -> option string;
  marked_parse : string -> string;
  purify_sanitize : option PurifyConfig -> string -> string;
  JSON_parse : string -> option jsval;
  (* String(v) for a value that is not a string; it can throw *)
  js_ToString : jsval -> thrown + string;
  (* new Date() and the formatting methods of Date *)
  clock : nat -> Date;
  toISOString : Date -> string;
  getFullYear : Date -> Z;
  toLocaleString_month : Date -> string;
  toLocaleDateString : Date -> string;
  (* d.setSeconds(d.getSeconds() + n) *)
  addSeconds : Date -> Z -> Date;
  (* randomness *)
  uuidv4 : nat -> string;
  gen_random_uuid : nat -> string;
  (* environment *)
  NYLAS_API_KEY : string;
  (* transports *)
  fetch : nat -> HttpRequest -> thrown + HttpResponse;
  oauth_refreshAccessToken : nat -> option string -> thrown + Credentials;
  sendMail : nat -> Transporter -> MailOptions -> thrown + string;
}.

(** ** The monad of effectful code *)

Inductive result (A : Type) : Type :=
| Ret (a : A)
| Throw (e : thrown).
Arguments Ret {A} a.
Arguments Throw {A} e.

Definition M (A : Type) : Type := State -> result A * State.

Definition ret {A} (a : A) : M A := fun st => (Ret a, st).
Definition throw {A} (e : thrown) : M A := fun st => (Throw e, st).

Definition bind {A B} (m : M A) (k : A -> M B) : M B := fun st =>
  match m st with
  | (Ret a, st') => k a st'
  | (Throw e, st') => (Throw e, st')
  end.

(** [try { m } catch (e) { h e }]: what [m] did to the state before it
    threw stays done. *)
Definition try_catch {A} (m : M A) (h : thrown -> M A) : M A := fun st =>
  match m st with
  | (Ret a, st') => (Ret a, st')
  | (Throw e, st') => h e st'
  end.

#[global] Instance M_ret : MRet M := @ret.
#[global] Instance M_bind : MBind M := fun A B k m => bind m k.

Definition get : M State := fun st => (Ret st, st).
Definition modify (f : State -> State) : M unit := fun st => (Ret tt, f st).

Definition of_sum {A} (r : thrown + A) : M A :=
  match r with inl e => throw e | inr a => ret a end.

(** A value bound for a column [VARCHAR(n)]: when it is longer than [n]
    characters the statement raises, before it reads or writes a row. *)
Definition fits (n : nat) (s : string) : bool := (String.length s <=? n)%nat.

Definition value_too_long (n : nat) : thrown :=
  JsError ("value too long for type character varying(" +:+ pretty n +:+ ")").

Definition varchar (n : nat) (s : string) : M unit :=
  if fits n s then ret tt else throw (value_too_long n).

Definition set_tick (n : nat) (st : State) : State :=
  {| users := users st; notes := notes st; email_templates := email_templates st;
     email_template_versions := email_template_versions st;
     sent_emails := sent_emails st; trace := trace st; tick := n |}.

Definition set_trace (t : list event) (st : State) : State :=
  {| users := users st; notes := notes st; email_templates := email_templates st;
     email_template_versions := email_template_versions st;
     sent_emails := sent_emails st; trace := t; tick := tick st |}.

Definition set_users (u : list User) (st : State) : State :=
  {| users := u; notes := notes st; email_templates := email_templates st;
     email_template_versions := email_template_versions st;
     sent_emails := sent_emails st; trace := trace st; tick := tick st |}.

Definition set_email_templates (t : list EmailTemplate) (st : State) : State :=
  {| users := users st; notes := notes st; email_templates := t;
     email_template_versions := email_template_versions st;
     sent_emails := sent_emails st; trace := trace st; tick := tick st |}.

Definition set_email_template_versions (v : list EmailTemplateVersion) (st : State) : State :=
  {| users := users st; notes := notes st; email_templates := email_templates st;
     email_template_versions := v;
     sent_emails := sent_emails st; trace := trace st; tick := tick st |}.

Definition set_sent_emails (s : list SentEmail) (st : State) : State :=
  {| users := users st; notes := notes st; email_templates := email_templates st;
     email_template_versions := email_template_versions st;
     sent_emails := s; trace := trace st; tick := tick st |}.

(** Ask the world a question whose answer depends on the moment. *)
Definition ask {A} (q : nat -> A) : M A := fun st =>
  (Ret (q (tick st)), set_tick (S (tick st)) st).

Definition log (e : event) : M unit :=
  modify (fun st => set_trace (trace st ++ [e]) st).

(** JavaScript truthiness of an optional string and of an optional flag. *)
Definition truthy_str (o : option string) : bool :=
  match o with Some (String _ _) => true | _ => false end.

Definition truthy_flag (o : option bool) : bool :=
  match o with Some true => true | _ => false end.

(** ** Template rendering (templateEngine.ts) *)

Module TemplateEngine.

Definition LF : ascii := "010"%char.

(** *** sanitizeHtml: the configuration handed to DOMPurify *)

Definition scheme_char (c : ascii) : bool :=
  Js.is_letter c || Ascii.eqb c "+" || Ascii.eqb c "." || Ascii.eqb c "-".

(** The schemes named by the first alternative, [(?:(?:f|ht)tps?|mailto|tel|callto|cid|xmpp):]. *)
Definition listed_schemes : list string :=
  ["ftp"; "ftps"; "http"; "https"; "mailto"; "tel"; "callto"; "cid"; "xmpp"].

(** [/^(?:(?:(?:f|ht)tps?|mailto|tel|callto|cid|xmpp):|[^a-z]|[a-z+.\-]+(?:[^a-z+.\-:]|$))/i.test(v)].
    In the third alternative the run is greedy; a shorter run is followed
    by a character of the run, which the negated class refuses, so only
    the longest run is tried. *)
Definition allowed_uri (v : string) : bool :=
  existsb (fun sch => match Js.strip_prefix_ci (sch +:+ ":") v with
                      | Some _ => true | None => false end) listed_schemes
  || match v with
     | String c _ => negb (Js.is_letter c)
     | EmptyString => false
     end
  || match Js.span scheme_char v with
     | (String _ _, EmptyString) => true
     | (String _ _, String c _) => negb (Ascii.eqb c ":")
     | (EmptyString, _) => false
     end.

Definition sanitize_config : PurifyConfig := {|
  ALLOWED_TAGS :=
    ["p"; "br"; "strong"; "em"; "u"; "h1"; "h2"; "h3"; "h4"; "h5"; "h6";
     "ul"; "ol"; "li"; "blockquote"; "a"; "img"; "table"; "thead"; "tbody";
     "tr"; "td"; "th"; "div"; "span"; "pre"; "code"];
  ALLOWED_ATTR := ["href"; "src"; "alt"; "title"; "style"];
  ALLOWED_URI_REGEXP := allowed_uri;
|}.

(** *** htmlToText *)

(** [<br\s*\/?>] under the [i] flag. *)
Definition re_br : Js.matcher := fun s =>
  match Js.strip_prefix_ci "<br" s with
  | Some after =>
      let rest := snd (Js.span Js.is_space after) in
      let rest := match rest with String "/"%char r => r | _ => rest end in
      match rest with
      | String ">"%char r => Some (Js.consumed s r, r)
      | _ => None
      end
  | None => None
  end.

(** [<\/h[1-6]>] under the [i] flag. *)
Definition re_heading_end : Js.matcher := fun s =>
  match Js.strip_prefix_ci "</h" s with
  | Some (String d (String ">"%char r)) =>
      let n := nat_of_ascii d in
      if (49 <=? n)%nat && (n <=? 54)%nat then Some (Js.consumed s r, r) else None
  | _ => None
  end.

(** [<[^>]*>] *)
Definition re_tag : Js.matcher := fun s =>
  match s with
  | String "<"%char s1 =>
      match Js.span (fun c => negb (Ascii.eqb c ">")) s1 with
      | (inner, String ">"%char r) => Some ("<" +:+ inner +:+ ">", r)
      | _ => None
      end
  | _ => None
  end.

Definition count_lf (s : string) : nat :=
  String.length (Js.filter (fun c => Ascii.eqb c LF) s).

(** [\n\s*\n\s*\n]: from a line feed, through the white space that
    follows it, up to the last line feed of that white space, which must
    hold two line feeds at least.  (Both [\s*] are greedy and give back
    characters until a line feed follows.) *)
Definition re_blank_lines : Js.matcher := fun s =>
  match s with
  | String c s1 =>
      if Ascii.eqb c LF then
        let (ws, rest) := Js.span Js.is_space s1 in
        if (2 <=? count_lf ws)%nat then
          let (tail_rev, head_rev) :=
            Js.span (fun c => negb (Ascii.eqb c LF)) (Js.rev ws) in
          Some (String LF (Js.rev head_rev), Js.rev tail_rev +:+ rest)
        else None
      else None
  | EmptyString => None
  end.

Definition htmlToText (html : string) : string :=
  let s := Js.replace_all re_br (String LF "") html in
  let s := Js.replace_all (Js.literal_ci "</p>") (String LF (String LF "")) s in
  let s := Js.replace_all (Js.literal_ci "</div>") (String LF "") s in
  let s := Js.replace_all re_heading_end (String LF (String LF "")) s in
  let s := Js.replace_all re_tag "" s in
  let s := Js.replace_all (Js.literal "&nbsp;") " " s in
  let s := Js.replace_all (Js.literal "&amp;") "&" s in
  let s := Js.replace_all (Js.literal "&lt;") "<" s in
  let s := Js.replace_all (Js.literal "&gt;") ">" s in
  let s := Js.replace_all (Js.literal "&quot;") (String "034"%char "") s in
  let s := Js.replace_all (Js.literal "&#39;") "'" s in
  let s := Js.replace_all re_blank_lines (String LF (String LF "")) s in
  Js.trim s.

(** *** Bindings *)

(** The properties every object literal inherits from [Object.prototype]. *)
Definition object_prototype_keys : list string :=
  ["constructor"; "__defineGetter__"; "__defineSetter__"; "hasOwnProperty";
   "__lookupGetter__"; "__lookupSetter__"; "isPrototypeOf";
   "propertyIsEnumerable"; "toString"; "valueOf"; "__proto__"; "toLocaleString"].

Definition truthy (v : jsval) : bool :=
  match v with
  | JUndefined | JNull => false
  | JBool b => b
  | JNumber n => negb (n =? 0)%Z
  | JString s => negb (String.eqb s "")
  | JArray _ | JObject _ => true
  end.

(** The test [variables[name]]: an own property counts by its value, an
    inherited one is a function or an object, hence truthy. *)
Definition has_truthy (variables : gmap string jsval) (name : string) : bool :=
  match variables !! name with
  | Some v => truthy v
  | None => existsb (String.eqb name) object_prototype_keys
  end.

(** [match.replace(/[{}]/g, '').trim()] *)
Definition name_of_match (m : string) : string :=
  Js.trim (Js.filter (fun c => negb (Js.is_brace c)) m).

Definition placeholder (name : string) : string := "[" +:+ name +:+ "]".

(** One round of the [forEach] over the matches found in the note. *)
Definition add_placeholder (variables : gmap string jsval) (m : string)
  : gmap string jsval :=
  let variableName := name_of_match m in
  if has_truthy variables variableName then variables
  else <[variableName := JString (placeholder variableName)]> variables.

(** [note.content.match(/\{\{([^}]+)\}\}/g)] and the [forEach] over its
    matches ([null], for no match, skips the loop). *)
Definition add_placeholders (content : string) (variables : gmap string jsval)
  : gmap string jsval :=
  fold_left add_placeholder (Js.match_all VariableExtractor.mustache content) variables.

Record Rendered := {
  subject : string;
  body_html : string;
  body_text : string;
  variables_used : gmap string jsval;
}.

Section WithWorld.
Context (W : World).

Definition markdownToHtml (markdown : string) : string :=
  purify_sanitize W None (marked_parse W markdown).

Definition sanitizeHtml (html : string) : string :=
  purify_sanitize W (Some sanitize_config) html.

(** The object literal of [extractNoteVariables], its properties
    evaluated in order: five times [new Date()]. *)
Definition note_bindings (note : Note) : M (gmap string jsval) :=
  d_today ← ask (clock W);
  d_now ← ask (clock W);
  d_year ← ask (clock W);
  d_month ← ask (clock W);
  d_date ← ask (clock W);
  mret (<["current_date" := JString (toLocaleDateString W d_date)]>
       (<["current_month" := JString (toLocaleString_month W d_month)]>
       (<["current_year" := JNumber (getFullYear W d_year)]>
       (<["now" := JString (toISOString W d_now)]>
       (<["today" := JString (Js.split_head "T" (toISOString W d_today))]>
       (<["note_updated_at" := JString (toISOString W (note_updated_at note))]>
       (<["note_created_at" := JString (toISOString W (note_created_at note))]>
       (<["note_content_html" := JString (markdownToHtml (note_content note))]>
       (<["note_content" := JString (note_content note)]>
       (<["note_title" := JString (note_title note)]> ∅)))))))))).

Definition extractNoteVariables (note : Note) : M (gmap string jsval) :=
  variables ← note_bindings note;
  mret (add_placeholders (note_content note) variables).

Definition renderTemplate (template : EmailTemplate) (note : Note) : M Rendered :=
  variables ← extractNoteVariables note;
  subject ← of_sum (handlebars W (tpl_subject template) variables);
  bodyHtml ← of_sum (handlebars W (tpl_body template) variables);
  let sanitizedHtml := sanitizeHtml bodyHtml in
  let bodyText := htmlToText sanitizedHtml in
  mret {| subject := subject; body_html := sanitizedHtml;
          body_text := bodyText; variables_used := variables |}.

(** [validateTemplate(subject, body)]: the two compilations, each in
    its own try block. *)
Definition validateTemplate (subject body : string) : bool * list string :=
  let errors :=
    match handlebars_compile_error W subject with
    | Some msg => ["Subject template error: " +:+ msg]
    | None => []
    end ++
    match handlebars_compile_error W body with
    | Some msg => ["Body template error: " +:+ msg]
    | None => []
    end in
  (match errors with [] => true | _ => false end, errors).

End WithWorld.

End TemplateEngine.

(** ** Property access on JavaScript values *)

Module JsVal.

(** The value of the last field named [k]: in the object built by
    [JSON.parse] a repeated key keeps its last value. *)
Fixpoint lookup (k : string) (fields : list (string * jsval)) : option jsval :=
  match fields with
  | [] => None
  | (k', v) :: rest =>
      match lookup k rest with
      | Some v' => Some v'
      | None => if String.eqb k k' then Some v else None
      end
  end.

(** [v.k] for the property names this program reads ([error], [message],
    [data], [id]), none of which is inherited from a prototype. *)
Definition get_prop (v : jsval) (k : string) : thrown + jsval :=
  match v with
  | JUndefined =>
      inl (JsError ("Cannot read properties of undefined (reading '" +:+ k +:+ "')"))
  | JNull =>
      inl (JsError ("Cannot read properties of null (reading '" +:+ k +:+ "')"))
  | JObject fields => inr (default JUndefined (lookup k fields))
  | _ => inr JUndefined
  end.

(** [v?.k] *)
Definition get_prop_opt (v : jsval) (k : string) : thrown + jsval :=
  match v with
  | JUndefined | JNull => inr JUndefined
  | _ => get_prop v k
  end.

(** [a || b] *)
Definition or_else (a b : jsval) : jsval :=
  if TemplateEngine.truthy a then a else b.

End JsVal.

(** ** The Nylas adapter (nylasEmailService.ts) *)

Module NylasEmailService.
Section WithWorld.
Context (W : World).

(** The template literal of [sendEmail]: its only substitution is
    itself a constant template literal. *)
Definition endpoint : string :=
  "https://api.us.nylas.com/v3/grants/" +:+
  "dcbd389c-d486-4d70-8c82-022dc738806e" +:+ "/messages/send".

Definition messageData (recipients : list string) (subject bodyHtml bodyText : string)
  : NylasMessage :=
  {| nm_subject := subject;
     nm_body := bodyHtml;
     nm_to := map (fun email => (Js.split_head "@" email, email)) recipients;
     nm_text := if String.eqb bodyText "" then None else Some bodyText |}.

Definition request (grantId : string) (recipients : list string)
    (subject bodyHtml bodyText : string) : HttpRequest :=
  {| rq_url := endpoint;
     rq_method := "POST";
     rq_headers := [("Accept", "application/json");
                    ("Authorization", "Bearer " +:+ NYLAS_API_KEY W);
                    ("Content-Type", "application/json")];
     rq_body := messageData recipients subject bodyHtml bodyText |}.

(** [new Error(v)]: the message is [String(v)]. *)
Definition new_Error (v : jsval) : thrown + thrown :=
  match v with
  | JString s => inr (JsError s)
  | _ => match js_ToString W v with
         | inl e => inl e
         | inr s => inr (JsError s)
         end
  end.

(** The value of [errorMessage] when the response is not ok: the inner
    try block, whose catch falls back on the head of the text. *)
Definition errorMessage (status : Z) (responseText : string) : jsval :=
  let fallback := JString (String.substring 0 200 responseText) in
  match JSON_parse W responseText with
  | None => fallback
  | Some errorData =>
      match JsVal.get_prop errorData "error" with
      | inl _ => fallback
      | inr e =>
          match JsVal.get_prop_opt e "message", JsVal.get_prop errorData "message" with
          | inr m1, inr m2 =>
              JsVal.or_else m1 (JsVal.or_else m2 (JString ("HTTP " +:+ pretty status)))
          | _, _ => fallback
          end
      end
  end.

(** The try block of [sendEmail]. *)
Definition attempt (grantId : string) (recipients : list string)
    (subject bodyHtml bodyText : string) : M EmailSendResult :=
  let rq := request grantId recipients subject bodyHtml bodyText in
  log (EvHttp rq);;
  answer ← ask (fun t => fetch W t rq);
  response ← of_sum answer;
  if negb (rs_ok response) then
    responseText ← of_sum (rs_text response);
    err ← of_sum (new_Error (errorMessage (rs_status response) responseText));
    throw err
  else
    responseText ← of_sum (rs_text response);
    match JSON_parse W responseText with
    | None => throw (JsError "Invalid JSON response from Nylas API")
    | Some result =>
        data ← of_sum (JsVal.get_prop result "data");
        data_id ← of_sum (JsVal.get_prop_opt data "id");
        id ← of_sum (JsVal.get_prop result "id");
        mret {| messageId := JsVal.or_else data_id (JsVal.or_else id (JString ""));
                success := true;
                error := None |}
    end.

(** Its catch block: [error.message || "Failed to send email"]. *)
Definition failure (error : thrown) : EmailSendResult :=
  {| messageId := JString "";
     success := false;
     error := Some match error with
                   | JsError (String c m) => String c m
                   | _ => "Failed to send email"
                   end |}.

Definition sendEmail (grantId : string) (recipients : list string)
    (subject bodyHtml bodyText : string) : M EmailSendResult :=
  log (EvAdapterSend Nylas recipients subject bodyHtml bodyText);;
  try_catch (attempt grantId recipients subject bodyHtml bodyText)
            (fun error => mret (failure error)).

(** The transport did not deliver at moment [t]: [fetch] rejected, the
    status is not ok, the body cannot be read, or it is not JSON. *)
Definition transport_failed (t : nat) (rq : HttpRequest) : bool :=
  match fetch W t rq with
  | inl _ => true
  | inr response =>
      negb (rs_ok response)
      || match rs_text response with
         | inl _ => true
         | inr responseText =>
             match JSON_parse W responseText with
             | None => true
             | Some _ => false
             end
         end
  end.

End WithWorld.
End NylasEmailService.

(** ** The Gmail adapter and the status update (emailService.ts) *)

Module EmailService.
Section WithWorld.
Context (W : World).

(** [UPDATE users SET gmail_access_token = $1, gmail_token_expires_at = $2 WHERE id = $3] *)
Definition store_access_token (id : string) (token : option string) (expires : Date)
    (u : User) : User :=
  if String.eqb (user_id u) id then
    {| user_id := user_id u; user_email := user_email u; user_name := user_name u;
       gmail_refresh_token := gmail_refresh_token u;
       gmail_access_token := token;
       gmail_token_expires_at := Some expires;
       nylas_access_token := nylas_access_token u;
       has_nylas_auth := has_nylas_auth u |}
  else u.

Definition refreshAccessToken (user : User) : M (option string) :=
  if negb (truthy_str (gmail_refresh_token user)) then
    throw (JsError "No refresh token available")
  else
    answer ← ask (fun t => oauth_refreshAccessToken W t (gmail_refresh_token user));
    credentials ← of_sum answer;
    now ← ask (clock W);
    let seconds := match cred_expiry_date credentials with
                   | Some n => if (n =? 0)%Z then 3600%Z else n
                   | None => 3600%Z
                   end in
    let expiresAt := addSeconds W now seconds in
    modify (fun st =>
              set_users (map (store_access_token (user_id user)
                                (cred_access_token credentials) expiresAt)
                           (users st)) st);;
    mret (cred_access_token credentials).

Definition getValidAccessToken (user : User) : M (option string) :=
  match truthy_str (gmail_access_token user), gmail_token_expires_at user with
  | true, Some expiresAt =>
      now ← ask (clock W);
      if (5 * 60 * 1000 <? expiresAt - now)%Z then mret (gmail_access_token user)
      else refreshAccessToken user
  | _, _ => refreshAccessToken user
  end.

Definition createTransporter (user : User) : M Transporter :=
  accessToken ← getValidAccessToken user;
  mret {| tr_user := user_email user;
          tr_refreshToken := gmail_refresh_token user;
          tr_accessToken := accessToken |}.

(** [recipients.join(", ")] *)
Fixpoint join (recipients : list string) : string :=
  match recipients with
  | [] => ""
  | [r] => r
  | r :: rest => r +:+ ", " +:+ join rest
  end.

(** The try block of [sendEmail]. *)
Definition attempt (user : User) (recipients : list string)
    (subject htmlBody textBody : string) : M EmailSendResult :=
  if negb (truthy_str (gmail_refresh_token user)) then
    throw (JsError "User has not authorized Gmail access")
  else
    transporter ← createTransporter user;
    let mailOptions :=
      {| mo_from := user_email user;
         mo_to := join recipients;
         mo_subject := subject;
         mo_html := htmlBody;
         mo_text := if String.eqb textBody "" then TemplateEngine.htmlToText htmlBody
                    else textBody |} in
    log (EvSendMail transporter mailOptions);;
    answer ← ask (fun t => sendMail W t transporter mailOptions);
    result_messageId ← of_sum answer;
    mret {| messageId := JString result_messageId;
            success := true;
            error := None |}.

(** Its catch block: [error instanceof Error ? error.message : "Unknown error"]. *)
Definition failure (error : thrown) : EmailSendResult :=
  {| messageId := JString "";
     success := false;
     error := Some match error with
                   | JsError m => m
                   | JsNonError => "Unknown error"
                   end |}.

Definition sendEmail (user : User) (recipients : list string)
    (subject htmlBody textBody : string) : M EmailSendResult :=
  log (EvAdapterSend Gmail recipients subject htmlBody textBody);;
  try_catch (attempt user recipients subject htmlBody textBody)
            (fun error => mret (failure error)).

(** The row of [sent_emails] after the UPDATE of [updateSentEmailStatus]. *)
Definition finalized (status : send_status) (providerMessageId : option jsval)
    (errorMessage : option string) (sentAt : option Date) (r : SentEmail) : SentEmail :=
  {| se_id := se_id r; se_user_id := se_user_id r; se_note_id := se_note_id r;
     se_template_id := se_template_id r;
     se_template_version := se_template_version r;
     se_idempotency_key := se_idempotency_key r;
     se_recipients := se_recipients r;
     se_subject := se_subject r; se_body_html := se_body_html r;
     se_body_text := se_body_text r;
     se_status := status;
     se_error_message := errorMessage;
     se_provider_message_id := providerMessageId;
     se_sent_at := sentAt |}.

Definition updateSentEmailStatus (sentEmailId : string) (status : send_status)
    (providerMessageId : option jsval) (errorMessage : option string) : M unit :=
  sentAt ← (if decide (status = Sent) then d ← ask (clock W); mret (Some d)
            else mret None);
  log (EvFinalize sentEmailId status);;
  modify (fun st =>
            set_sent_emails
              (map (fun r => if String.eqb (se_id r) sentEmailId
                             then finalized status providerMessageId errorMessage sentAt r
                             else r)
                 (sent_emails st)) st).

End WithWorld.
End EmailService.

(** ** HTTP responses *)

Inductive ResponseBody :=
| BError (error : string) (details : option string)            (* success: false *)
| BIdempotent (id : string) (status : send_status) (sent_at : option Date)
| BSent (id : string) (message_id : jsval)
| BTemplate (row : EmailTemplate)
| BMessage (message : string)
| BInvalidTemplate (details : list string).                    (* success: false *)

Record Response := {
  http_status : Z;
  body : ResponseBody;
}.

Definition respond (code : Z) (b : ResponseBody) : M Response :=
  mret {| http_status := code; body := b |}.

(** The outermost [try { ... } catch (error) { res.status(500).json(...) }]
    of a route handler. *)
Definition handler (failure : string) (m : M Response) (st : State) : Response * State :=
  match m st with
  | (Ret r, st') => (r, st')
  | (Throw _, st') => ({| http_status := 500; body := BError failure None |}, st')
  end.

(** The middleware [authenticateToken], behind the verification of the
    token: [userId] is the id the token carries.  The route receives the
    row of that user as [req.user]. *)
Definition authenticateToken (userId : string)
    (route : User -> State -> Response * State) (st : State) : Response * State :=
  match List.filter (fun u => String.eqb (user_id u) userId) (users st) with
  | [] => ({| http_status := 401; body := BError "User not found" None |}, st)
  | user :: _ => route user st
  end.

(** ** Template routes and the versioning trigger (routes/templates.ts, schema.sql) *)

Module Templates.

Definition INTEGER_MAX : Z := 2147483647.

Definition snapshot_of (OLD : EmailTemplate) : EmailTemplateVersion :=
  {| ver_template_id := tpl_id OLD; ver_version := tpl_version OLD;
     ver_subject := tpl_subject OLD; ver_body := tpl_body OLD;
     ver_variables := tpl_variables OLD |}.

Definition with_version (v : Z) (t : EmailTemplate) : EmailTemplate :=
  {| tpl_id := tpl_id t; tpl_user_id := tpl_user_id t; tpl_name := tpl_name t;
     tpl_subject := tpl_subject t; tpl_body := tpl_body t;
     tpl_variables := tpl_variables t; tpl_version := v;
     tpl_is_active := tpl_is_active t |}.

(** [OLD.subject != NEW.subject OR OLD.body != NEW.body OR OLD.variables != NEW.variables] *)
Definition content_changed (OLD NEW : EmailTemplate) : bool :=
  negb (String.eqb (tpl_subject OLD) (tpl_subject NEW))
  || negb (String.eqb (tpl_body OLD) (tpl_body NEW))
  || negb (bool_decide (tpl_variables OLD = tpl_variables NEW)).

(** The BEFORE UPDATE trigger [create_template_version] on one row: the
    row that is stored and the snapshots after it ran, or [None] when the
    INSERT of the snapshot violates UNIQUE(template_id, version) or the
    new version leaves the range of INTEGER. *)
Definition create_template_version (OLD NEW : EmailTemplate)
    (versions : list EmailTemplateVersion)
  : option (EmailTemplate * list EmailTemplateVersion) :=
  if content_changed OLD NEW then
    if existsb (fun v => String.eqb (ver_template_id v) (tpl_id OLD)
                         && (ver_version v =? tpl_version OLD)%Z) versions
    then None
    else if (INTEGER_MAX <? tpl_version OLD + 1)%Z then None
    else Some (with_version (tpl_version OLD + 1) NEW, versions ++ [snapshot_of OLD])
  else Some (NEW, versions).

(** An UPDATE of [email_templates]: the rows selected by [sel] are
    replaced by [set] of them, the trigger running on each.  The result
    is the new table, the new snapshots and the rows RETURNed; [None]
    when the trigger fails, in which case the statement changes nothing. *)
Fixpoint update_rows (sel : EmailTemplate -> bool) (set : EmailTemplate -> EmailTemplate)
    (rows : list EmailTemplate) (versions : list EmailTemplateVersion)
  : option (list EmailTemplate * list EmailTemplateVersion * list EmailTemplate) :=
  match rows with
  | [] => Some ([], versions, [])
  | OLD :: rest =>
      if sel OLD then
        match create_template_version OLD (set OLD) versions with
        | None => None
        | Some (NEW, versions1) =>
            match update_rows sel set rest versions1 with
            | None => None
            | Some (rest', versions2, returned) =>
                Some (NEW :: rest', versions2, NEW :: returned)
            end
        end
      else
        match update_rows sel set rest versions with
        | None => None
        | Some (rest', versions2, returned) => Some (OLD :: rest', versions2, returned)
        end
  end.

Definition UPDATE (sel : EmailTemplate -> bool) (set : EmailTemplate -> EmailTemplate)
  : M (list EmailTemplate) := fun st =>
  match update_rows sel set (email_templates st) (email_template_versions st) with
  | None => (Throw (JsError "UPDATE email_templates failed"), st)
  | Some (rows, versions, returned) =>
      (Ret returned, set_email_template_versions versions (set_email_templates rows st))
  end.

(** [WHERE id = $1 AND user_id = $2 AND is_active = true] *)
Definition owned_active (id user : string) (t : EmailTemplate) : bool :=
  String.eqb (tpl_id t) id && String.eqb (tpl_user_id t) user && tpl_is_active t.

Section WithWorld.
Context (W : World).

(** [{success: false, error: 'Template validation failed', details: errors}] *)
Definition validation_failed (errors : list string) : ResponseBody :=
  BInvalidTemplate errors.

(** POST /templates *)
Definition create (user : User) (name subject body : string) : State -> Response * State :=
  handler "Failed to create template"
    (if String.eqb name "" || String.eqb subject "" || String.eqb body "" then
       respond 400 (BError "Name, subject, and body are required" None)
     else
       let validation := TemplateEngine.validateTemplate W subject body in
       if negb (fst validation) then respond 400 (validation_failed (snd validation))
       else
         let variables := VariableExtractor.extractTemplateVariables subject body in
         varchar 255 name;;
         varchar 500 subject;;
         id ← ask (gen_random_uuid W);
         st ← get;
         if existsb (fun t => String.eqb (tpl_id t) id) (email_templates st) then
           throw (JsError "duplicate key value violates unique constraint")
         else
           let row := {| tpl_id := id; tpl_user_id := user_id user; tpl_name := name;
                         tpl_subject := subject; tpl_body := body;
                         tpl_variables := variables; tpl_version := 1;
                         tpl_is_active := true |} in
           modify (fun st => set_email_templates (email_templates st ++ [row]) st);;
           respond 201 (BTemplate row)).

(** The SET clause of PUT /templates/:id *)
Definition edited (name subject body : string) (variables : list string)
    (t : EmailTemplate) : EmailTemplate :=
  {| tpl_id := tpl_id t; tpl_user_id := tpl_user_id t; tpl_name := name;
     tpl_subject := subject; tpl_body := body; tpl_variables := variables;
     tpl_version := tpl_version t; tpl_is_active := tpl_is_active t |}.

(** PUT /templates/:id *)
Definition update (user : User) (id name subject body : string)
  : State -> Response * State :=
  handler "Failed to update template"
    (if String.eqb name "" || String.eqb subject "" || String.eqb body "" then
       respond 400 (BError "Name, subject, and body are required" None)
     else
       let validation := TemplateEngine.validateTemplate W subject body in
       if negb (fst validation) then respond 400 (validation_failed (snd validation))
       else
         let variables := VariableExtractor.extractTemplateVariables subject body in
         varchar 255 name;;
         varchar 500 subject;;
         rows ← UPDATE (owned_active id (user_id user))
                       (edited name subject body variables);
         match rows with
         | [] => respond 404 (BError "Template not found" None)
         | row :: _ => respond 200 (BTemplate row)
         end).

Definition deactivated (t : EmailTemplate) : EmailTemplate :=
  {| tpl_id := tpl_id t; tpl_user_id := tpl_user_id t; tpl_name := tpl_name t;
     tpl_subject := tpl_subject t; tpl_body := tpl_body t;
     tpl_variables := tpl_variables t; tpl_version := tpl_version t;
     tpl_is_active := false |}.

(** DELETE /templates/:id (soft delete) *)
Definition delete (user : User) (id : string) : State -> Response * State :=
  handler "Failed to delete template"
    (rows ← UPDATE (owned_active id (user_id user)) deactivated;
     match rows with
     | [] => respond 404 (BError "Template not found" None)
     | _ :: _ => respond 200 (BMessage "Template deleted successfully")
     end).

End WithWorld.
End Templates.

(** ** Sending and retrying (the email routes) *)

Module Emails.

Record SendEmailRequest := {
  rq_note_id : string;
  rq_template_id : string;
  rq_recipients : list string;
  rq_idempotency_key : option string;
}.

(** [!note_id || !template_id || !recipients || recipients.length === 0] *)
Definition missing_fields (rq : SendEmailRequest) : bool :=
  String.eqb (rq_note_id rq) "" || String.eqb (rq_template_id rq) ""
  || bool_decide (rq_recipients rq = []).

Definition no_provider_message : string :=
  "No email service configured. Please authorize Nylas or Gmail.".

(** The provider chosen by POST /send from the row of the user. *)
Definition select_provider (userData : User) : option provider :=
  if truthy_flag (has_nylas_auth userData) && truthy_str (nylas_access_token userData)
  then Some Nylas
  else if truthy_str (gmail_access_token userData)
          || truthy_str (gmail_refresh_token userData)
  then Some Gmail
  else None.

Section WithWorld.
Context (W : World).

(** [idempotency_key || uuidv4()] *)
Definition finalIdempotencyKey (key : option string) : M string :=
  match key with
  | Some (String c k) => mret (String c k)
  | _ => ask (uuidv4 W)
  end.

Definition by_key (key : string) (st : State) : list SentEmail :=
  List.filter (fun r => String.eqb (se_idempotency_key r) key) (sent_emails st).

Definition INSERT_sent_email (user note template : string) (version : Z)
    (key : string) (recipients : list string) (r : TemplateEngine.Rendered)
  : M SentEmail :=
  varchar 255 key;;
  varchar 500 (TemplateEngine.subject r);;
  id ← ask (gen_random_uuid W);
  st ← get;
  if existsb (fun e => String.eqb (se_id e) id
                       || String.eqb (se_idempotency_key e) key) (sent_emails st)
  then throw (JsError "duplicate key value violates unique constraint")
  else
    let row := {| se_id := id; se_user_id := user; se_note_id := note;
                  se_template_id := template; se_template_version := version;
                  se_idempotency_key := key; se_recipients := recipients;
                  se_subject := TemplateEngine.subject r;
                  se_body_html := TemplateEngine.body_html r;
                  se_body_text := TemplateEngine.body_text r;
                  se_status := Pending; se_error_message := None;
                  se_provider_message_id := None; se_sent_at := None |} in
    log (EvInsertSentEmail id);;
    modify (fun st => set_sent_emails (sent_emails st ++ [row]) st);;
    mret row.

(** [SELECT ... FROM users WHERE id = $1] followed by [rows[0]]; reading
    a property of a missing row throws. *)
Definition select_credentials (id : string) : M User :=
  log (EvSelectCredentials id);;
  st ← get;
  match List.filter (fun u => String.eqb (user_id u) id) (users st) with
  | userData :: _ => mret userData
  | [] => throw (JsError "Cannot read properties of undefined (reading 'has_nylas_auth')")
  end.

Definition error_text (e : thrown) : string :=
  match e with JsError m => m | JsNonError => "Unknown error" end.

(** What both routes do with the result of an adapter. *)
Definition finalize (id : string) (sendResult : EmailSendResult) : M Response :=
  if success sendResult then
    EmailService.updateSentEmailStatus W id Sent (Some (messageId sendResult)) None;;
    respond 200 (BSent id (messageId sendResult))
  else
    EmailService.updateSentEmailStatus W id Failed None (error sendResult);;
    respond 500 (BError "Failed to send email" (error sendResult)).

(** The catch block around sending: record the failure, throw again. *)
Definition on_send_error (id : string) (sendError : thrown) : M Response :=
  EmailService.updateSentEmailStatus W id Failed None (Some (error_text sendError));;
  throw sendError.

(** POST /send *)
Definition send (user : User) (rq : SendEmailRequest) : State -> Response * State :=
  handler "Failed to send email"
    (if missing_fields rq then
       respond 400 (BError "Note ID, template ID, and recipients are required" None)
     else
       key ← finalIdempotencyKey (rq_idempotency_key rq);
       st ← get;
       match by_key key st with
       | existing :: _ =>
           respond 200 (BIdempotent (se_id existing) (se_status existing)
                          (se_sent_at existing))
       | [] =>
           match List.filter (Templates.owned_active (rq_template_id rq) (user_id user))
                   (email_templates st) with
           | [] => respond 404 (BError "Template not found" None)
           | template :: _ =>
               match List.filter (fun n => String.eqb (note_id n) (rq_note_id rq)
                                           && String.eqb (note_user_id n) (user_id user))
                       (notes st) with
               | [] => respond 404 (BError "Note not found" None)
               | note :: _ =>
                   log (EvRender (tpl_id template) (note_id note));;
                   rendered ← TemplateEngine.renderTemplate W template note;
                   sentEmail ← INSERT_sent_email (user_id user) (rq_note_id rq)
                                 (rq_template_id rq) (tpl_version template) key
                                 (rq_recipients rq) rendered;
                   try_catch
                     (userData ← select_credentials (user_id user);
                      sendResult ←
                        match select_provider userData with
                        | Some Nylas =>
                            NylasEmailService.sendEmail W
                              (default "" (nylas_access_token userData))
                              (rq_recipients rq)
                              (TemplateEngine.subject rendered)
                              (TemplateEngine.body_html rendered)
                              (TemplateEngine.body_text rendered)
                        | Some Gmail =>
                            EmailService.sendEmail W user (rq_recipients rq)
                              (TemplateEngine.subject rendered)
                              (TemplateEngine.body_html rendered)
                              (TemplateEngine.body_text rendered)
                        | None => throw (JsError no_provider_message)
                        end;
                      finalize (se_id sentEmail) sendResult)
                     (on_send_error (se_id sentEmail))
               end
           end
       end).

(** POST /sent/:id/retry *)
Definition retry (user : User) (id : string) : State -> Response * State :=
  handler "Failed to retry email"
    (st ← get;
     match List.filter (fun r => String.eqb (se_id r) id
                                 && String.eqb (se_user_id r) (user_id user)
                                 && bool_decide (se_status r = Failed))
             (sent_emails st) with
     | [] => respond 404 (BError "Failed email not found" None)
     | sentEmail :: _ =>
         try_catch
           (sendResult ← EmailService.sendEmail W user (se_recipients sentEmail)
                           (se_subject sentEmail) (se_body_html sentEmail)
                           (se_body_text sentEmail);
            finalize (se_id sentEmail) sendResult)
           (on_send_error (se_id sentEmail))
     end).

End WithWorld.
End Emails.

(** ** Handlebars on plain interpolation *)

Module HandlebarsLite.

Definition id_char (c : ascii) : bool :=
  Js.is_letter c || Ascii.eqb c "_"
  || let n := nat_of_ascii c in (48 <=? n)%nat && (n <=? 57)%nat.

(** Names that Handlebars does not read from the context: literals, the
    context itself, [else], the built-in helpers, and the properties
    inherited from [Object.prototype]. *)
Definition reserved : list string :=
  ["this"; "else"; "true"; "false"; "null"; "undefined"; "as";
   "if"; "unless"; "each"; "with"; "lookup"; "log";
   "helperMissing"; "blockHelperMissing"]
  ++ TemplateEngine.object_prototype_keys.

Definition plain_id (id : string) : bool :=
  match id with
  | String c _ =>
      (Js.is_letter c || Ascii.eqb c "_") && negb (existsb (String.eqb id) reserved)
  | EmptyString => false
  end.

(** A name made of letters, digits and underscores that Handlebars reads
    from the context. *)
Definition plain_name (name : string) : bool :=
  Js.all id_char name && plain_id name.

(** [Handlebars.Utils.escapeExpression] on a string. *)
Fixpoint escapeExpression (s : string) : string :=
  match s with
  | EmptyString => EmptyString
  | String c s' =>
      (if Ascii.eqb c "&" then "&amp;"
       else if Ascii.eqb c "<" then "&lt;"
       else if Ascii.eqb c ">" then "&gt;"
       else if Ascii.eqb c "034" then "&quot;"
       else if Ascii.eqb c "'" then "&#x27;"
       else if Ascii.eqb c "`" then "&#x60;"
       else if Ascii.eqb c "=" then "&#x3D;"
       else String c EmptyString) +:+ escapeExpression s'
  end.

(** The text an expression contributes: nothing for a name the context
    does not bind. *)
Definition expression_text (raw : bool) (v : option jsval) : option string :=
  match v with
  | None => Some ""
  | Some (JString s) => Some (if raw then s else escapeExpression s)
  | Some (JNumber n) => Some (pretty n)
  | Some _ => None
  end.

(** Modelled from the spec: Handlebars is a library, not part of the
    sources.  This is its rendering, outside strict mode, of the templates
    made of literal text and of the interpolations [{{name}}] (HTML-encoded,
    section 4.2 of the specification) and [{{{name}}}] (raw), against a
    context whose values are strings and numbers; a name the context does
    not bind contributes the empty string.  [None] marks a
    template or a context outside this fragment (block helpers, paths,
    comments, partials, escapes, other values), about which nothing is
    said. *)
Fixpoint render_from (fuel : nat) (source : string) (context : gmap string jsval)
  : option string :=
  match fuel with
  | O => None
  | S fuel' =>
      match source with
      | EmptyString => Some ""
      | String c source' =>
          if Ascii.eqb c "\" then None
          else
            match Js.strip_prefix "{{" source with
            | None =>
                tail ← render_from fuel' source' context;
                Some (String c tail)
            | Some after =>
                let raw := Js.startsWith after "{" in
                let after := if raw then String.substring 1 (String.length after) after
                             else after in
                let (id, after) := Js.span id_char (Js.trimStart after) in
                if plain_id id then
                  match Js.strip_prefix (if raw then "}}}" else "}}") (Js.trimStart after) with
                  | None => None
                  | Some rest =>
                      if negb raw && Js.startsWith rest "}" then None
                      else
                        text ← expression_text raw (context !! id);
                        tail ← render_from fuel' rest context;
                        Some (text +:+ tail)
                  end
                else None
            end
      end
  end.

Definition render (source : string) (context : gmap string jsval) : option string :=
  render_from (S (String.length source)) source context.

(** A world whose Handlebars behaves as above on the fragment. *)
Definition conforms (W : World) : Prop :=
  forall source context out,
    render source context = Some out -> handlebars W source context = inr out.

End HandlebarsLite.

(** ** A sample world and sample rows *)

Module Sample.

(** A world for examples: Handlebars is the plain-interpolation fragment
    (anything else is a parse error), the sanitizer meets documents in which
    it finds nothing to remove, marked wraps its input in a paragraph, the
    Nylas transport is down and Gmail delivers. *)
Definition world : World := {|
  handlebars := fun source context =>
    match HandlebarsLite.render source context with
    | Some out => inr out
    | None => inl (JsError "Parse error")
    end;
  handlebars_compile_error := fun _ => None;
  marked_parse := fun md => "<p>" +:+ md +:+ "</p>";
  purify_sanitize := fun _ html => html;
  JSON_parse := fun _ => None;
  js_ToString := fun _ => inr "[object Object]";
  clock := fun t => (1793577600000 + Z.of_nat t)%Z;
  toISOString := fun _ => "2026-11-02T00:00:00.000Z";
  getFullYear := fun _ => 2026%Z;
  toLocaleString_month := fun _ => "November";
  toLocaleDateString := fun _ => "11/2/2026";
  addSeconds := fun d n => (d + 1000 * n)%Z;
  uuidv4 := fun t => "generated-key-" +:+ pretty t;
  gen_random_uuid := fun t => "row-" +:+ pretty t;
  NYLAS_API_KEY := "nyk_test";
  fetch := fun _ _ => inl (JsError "fetch failed");
  oauth_refreshAccessToken := fun _ _ =>
    inr {| cred_access_token := Some "ya29.token"; cred_expiry_date := Some 3600%Z |};
  sendMail := fun _ _ _ => inr "<message-1@mail.gmail.com>";
|}.

Definition user (id : string) (gmail_refresh nylas : option string) : User :=
  {| user_id := id; user_email := id +:+ "@example.com"; user_name := id;
     gmail_refresh_token := gmail_refresh; gmail_access_token := None;
     gmail_token_expires_at := None;
     nylas_access_token := nylas;
     has_nylas_auth := match nylas with Some _ => Some true | None => Some false end |}.

Definition note : Note :=
  {| note_id := "n1"; note_user_id := "u1"; note_title := "Trip";
     note_content := "Pack the bags"; note_created_at := 0%Z;
     note_updated_at := 0%Z |}.

Definition template (subject body : string) : EmailTemplate :=
  {| tpl_id := "t1"; tpl_user_id := "u1"; tpl_name := "Plain";
     tpl_subject := subject; tpl_body := body;
     tpl_variables := VariableExtractor.extractTemplateVariables subject body;
     tpl_version := 1; tpl_is_active := true |}.

Definition state (u : User) : State :=
  {| users := [u]; notes := [note];
     email_templates := [template "{{note_title}}" "<p>{{note_content}}</p>"];
     email_template_versions := []; sent_emails := []; trace := []; tick := 0 |}.

(** A record of a send to [a@b.c], as POST /send leaves it. *)
Definition record (status : send_status) (err : option string) : SentEmail :=
  {| se_id := "row-5"; se_user_id := "u1"; se_note_id := "n1";
     se_template_id := "t1"; se_template_version := 1;
     se_idempotency_key := "k1"; se_recipients := ["a@b.c"];
     se_subject := "Trip"; se_body_html := "<p>Pack the bags</p>";
     se_body_text := "Pack the bags";
     se_status := status; se_error_message := err;
     se_provider_message_id := None; se_sent_at := None |}.

Definition state_with (u : User) (r : SentEmail) : State :=
  set_sent_emails [r] (state u).

(** A database without templates, and the row that the first POST
    /templates of [u1] stores in it. *)
Definition empty_state : State :=
  {| users := [user "u1" None None]; notes := [note]; email_templates := [];
     email_template_versions := []; sent_emails := []; trace := []; tick := 0 |}.

Definition first_template : EmailTemplate :=
  {| tpl_id := "row-0"; tpl_user_id := "u1"; tpl_name := "Plain";
     tpl_subject := "{{note_title}}"; tpl_body := "<p>one</p>";
     tpl_variables := ["note_title"]; tpl_version := 1; tpl_is_active := true |}.

Definition request (key : string) (recipients : list string) : Emails.SendEmailRequest :=
  {| Emails.rq_note_id := "n1"; Emails.rq_template_id := "t1";
     Emails.rq_recipients := recipients; Emails.rq_idempotency_key := Some key |}.

End Sample.

(** * The code around the pipeline *)

(** ** The routes that read, and the note routes *)

(** The body of a response: [{success: false, error}], [{success: true,
    data}] or [{success: true, message}]. *)
Inductive Payload (A : Type) : Type :=
| PError (error : string)
| PData (data : A)
| PMessage (message : string).
Arguments PError {A} error.
Arguments PData {A} data.
Arguments PMessage {A} message.

Record Reply (A : Type) : Type := {
  reply_status : Z;
  reply_body : Payload A;
}.
Arguments reply_status {A} _.
Arguments reply_body {A} _.

Definition reply {A} (code : Z) (b : Payload A) : M (Reply A) :=
  mret {| reply_status := code; reply_body := b |}.

(** The outermost try block of a route, as [handler]. *)
Definition route {A} (failure : string) (m : M (Reply A)) (st : State) : Reply A * State :=
  match m st with
  | (Ret r, st') => (r, st')
  | (Throw _, st') => ({| reply_status := 500; reply_body := PError failure |}, st')
  end.

Definition set_notes (n : list Note) (st : State) : State :=
  {| users := users st; notes := n; email_templates := email_templates st;
     email_template_versions := email_template_versions st;
     sent_emails := sent_emails st; trace := trace st; tick := tick st |}.

(** [WHERE id = $1 AND user_id = $2] on [notes] *)
Definition note_owned (id user : string) (n : Note) : bool :=
  String.eqb (note_id n) id && String.eqb (note_user_id n) user.

Module TemplateViews.
Section WithWorld.
Context (W : World).

(** GET /templates/:id *)
Definition get_one (user : User) (id : string) : State -> Reply EmailTemplate * State :=
  route "Failed to fetch template"
    (st ← get;
     match List.filter (Templates.owned_active id (user_id user)) (email_templates st) with
     | [] => reply 404 (PError "Template not found")
     | row :: _ => reply 200 (PData row)
     end).

(** POST /templates/:templateId/preview/:noteId *)
Definition preview (user : User) (templateId noteId : string)
  : State -> Reply TemplateEngine.Rendered * State :=
  route "Failed to preview template"
    (st ← get;
     match List.filter (Templates.owned_active templateId (user_id user))
             (email_templates st) with
     | [] => reply 404 (PError "Template not found")
     | template :: _ =>
         match List.filter (note_owned noteId (user_id user)) (notes st) with
         | [] => reply 404 (PError "Note not found")
         | note :: _ =>
             log (EvRender (tpl_id template) (note_id note));;
             rendered ← TemplateEngine.renderTemplate W template note;
             reply 200 (PData rendered)
         end
     end).

End WithWorld.
End TemplateViews.

Module Notes.
Section WithWorld.
Context (W : World).
(** [CURRENT_TIMESTAMP], as the database reads it at a given moment. *)
Context (CURRENT_TIMESTAMP : nat -> Date).

(** GET /notes/:id *)
Definition get_one (user : User) (id : string) : State -> Reply Note * State :=
  route "Failed to fetch note"
    (st ← get;
     match List.filter (note_owned id (user_id user)) (notes st) with
     | [] => reply 404 (PError "Note not found")
     | row :: _ => reply 200 (PData row)
     end).

(** POST /notes: the INSERT fills [id] with [gen_random_uuid()] and both
    time stamps with [CURRENT_TIMESTAMP]. *)
Definition create (user : User) (title content : string) : State -> Reply Note * State :=
  route "Failed to create note"
    (if String.eqb title "" || String.eqb content "" then
       reply 400 (PError "Title and content are required")
     else
       varchar 255 title;;
       id ← ask (gen_random_uuid W);
       now ← ask CURRENT_TIMESTAMP;
       st ← get;
       if existsb (fun n => String.eqb (note_id n) id) (notes st) then
         throw (JsError "duplicate key value violates unique constraint")
       else
         let row := {| note_id := id; note_user_id := user_id user;
                       note_title := title; note_content := content;
                       note_created_at := now; note_updated_at := now |} in
         modify (fun st => set_notes (notes st ++ [row]) st);;
         reply 201 (PData row)).

(** The SET clause of PUT /notes/:id; the trigger
    [update_notes_updated_at] writes the same time stamp again. *)
Definition edited (title content : string) (now : Date) (n : Note) : Note :=
  {| note_id := note_id n; note_user_id := note_user_id n;
     note_title := title; note_content := content;
     note_created_at := note_created_at n; note_updated_at := now |}.

(** PUT /notes/:id *)
Definition update (user : User) (id title content : string) : State -> Reply Note * State :=
  route "Failed to update note"
    (if String.eqb title "" || String.eqb content "" then
       reply 400 (PError "Title and content are required")
     else
       varchar 255 title;;
       now ← ask CURRENT_TIMESTAMP;
       st ← get;
       modify (fun st =>
                 set_notes (map (fun n => if note_owned id (user_id user) n
                                          then edited title content now n else n)
                              (notes st)) st);;
       match List.filter (note_owned id (user_id user)) (notes st) with
       | [] => reply 404 (PError "Note not found")
       | row :: _ => reply 200 (PData (edited title content now row))
       end).

(** DELETE /notes/:id.  [sent_emails.note_id] references [notes(id)] ON
    DELETE CASCADE: the records of a deleted note go with it. *)
Definition delete (user : User) (id : string) : State -> Reply Note * State :=
  route "Failed to delete note"
    (st ← get;
     match List.filter (note_owned id (user_id user)) (notes st) with
     | [] => reply 404 (PError "Note not found")
     | _ :: _ =>
         modify (fun st =>
                   set_sent_emails
                     (List.filter (fun r => negb (String.eqb (se_note_id r) id))
                        (sent_emails st))
                     (set_notes (List.filter (fun n => negb (note_owned id (user_id user) n))
                                   (notes st)) st));;
         reply 200 (PMessage "Note deleted successfully")
     end).

End WithWorld.
End Notes.

(** ** The pages that call the routes (frontend) *)

Module Pages.

(** [s.split(sep)] for a one-character separator: the pieces between the
    separators, [[""]] for the empty string. *)
Fixpoint split (sep : ascii) (s : string) : list string :=
  match s with
  | EmptyString => [""]
  | String c s' =>
      if Ascii.eqb c sep then "" :: split sep s'
      else match split sep s' with
           | piece :: rest => String c piece :: rest
           | [] => [String c ""]
           end
  end.

(** ComposePage: [recipients.split(",").map(e => e.trim()).filter(e => e.length > 0)] *)
Definition recipientList (recipients : string) : list string :=
  List.filter (fun email => negb (String.length email =? 0)%nat)
    (map Js.trim (split "," recipients)).

(** What a form handler does: it shows an error, or calls the API. *)
Inductive submission (A : Type) : Type :=
| Refused (error : string)
| Submitted (call : A).
Arguments Refused {A} error.
Arguments Submitted {A} call.

(** ComposePage.handleSend: the call is
    [apiService.sendEmail(selectedNote, selectedTemplate, recipientList)],
    without an idempotency key. *)
Definition handleSend (selectedNote selectedTemplate recipients : string)
    (needsGmailAuth needsNylasAuth : bool) : submission Emails.SendEmailRequest :=
  if String.eqb selectedNote "" || String.eqb selectedTemplate ""
     || String.eqb (Js.trim recipients) "" then
    Refused "Please select note, template, and enter recipients"
  else if needsGmailAuth && needsNylasAuth then
    Refused "Please authorize Nylas or Gmail access first"
  else
    match recipientList recipients with
    | [] => Refused "Please enter valid email addresses"
    | recipient :: more =>
        Submitted {| Emails.rq_note_id := selectedNote;
                     Emails.rq_template_id := selectedTemplate;
                     Emails.rq_recipients := recipient :: more;
                     Emails.rq_idempotency_key := None |}
    end.

(** TemplateEditor.handleSubmit: the arguments of [createTemplate] or
    [updateTemplate]. *)
Definition submitTemplate (name subject body : string) : submission (string * string * string) :=
  if String.eqb (Js.trim name) "" || String.eqb (Js.trim subject) ""
     || String.eqb (Js.trim body) "" then
    Refused "Name, subject, and body are required"
  else Submitted (name, subject, body).

(** NoteEditor.handleSubmit *)
Definition submitNote (title content : string) : submission (string * string) :=
  if String.eqb (Js.trim title) "" || String.eqb (Js.trim content) "" then
    Refused "Title and content are required"
  else Submitted (title, content).

End Pages.

(** ** The middleware in full (middleware/auth.ts) *)

Module Auth.

(** [authHeader && authHeader.split(' ')[1]], when it is truthy. *)
Definition bearer_token (authHeader : option string) : option string :=
  match authHeader with
  | Some (String c h) =>
      match Pages.split " " (String c h) with
      | _ :: String t token :: _ => Some (String t token)
      | _ => None
      end
  | _ => None
  end.

Definition refusal (code : Z) (error : string) : Response :=
  {| http_status := code; body := BError error None |}.

Section WithVerifier.
(** [jwt.verify(token, secret)]: it throws, or gives the payload, whose
    [userId] may be missing. *)
Context (jwt_verify : string -> thrown + option string).

Definition authenticateToken (authHeader : option string)
    (next : User -> State -> Response * State) (st : State) : Response * State :=
  match bearer_token authHeader with
  | None => (refusal 401 "Access token required", st)
  | Some token =>
      match jwt_verify token with
      | inl _ => (refusal 403 "Invalid token", st)
      | inr None => (refusal 401 "User not found", st)
      | inr (Some userId) =>
          match List.filter (fun u => String.eqb (user_id u) userId) (users st) with
          | [] => (refusal 401 "User not found", st)
          | user :: _ => next user st
          end
      end
  end.

End WithVerifier.
End Auth.

(** ** Nylas grants and accounts (nylasEmailService.ts, routes/nylasAuth.ts) *)

Module NylasAccount.

(** A request without a body, and what is read of its response. *)
Record ApiRequest := {
  api_url : string;
  api_method : string;
  api_headers : list (string * string);
}.

Record ApiResponse := {
  api_ok : bool;
  api_status : Z;
  api_json : thrown + jsval;        (* what [await response.json()] gives *)
  api_text : thrown + string;       (* what [await response.text()] gives *)
}.

Record Account := {
  email : jsval;
  name : jsval;
}.

(** The data of the responses of the routes. *)
Inductive NylasData :=
| Authorized (message : string) (account_email : jsval)
| Revoked (message : string).

Section WithApi.
Context (W : World).
(** [fetch] on such requests, and the SDK call
    [nylas.auth.exchangeCodeForToken], whose [accessToken] may be missing. *)
Context (api_fetch : nat -> ApiRequest -> thrown + ApiResponse).
Context (sdk_exchangeCodeForToken : nat -> string -> thrown + option string).

Definition grant_url (grantId : string) : string :=
  "https://api.us.nylas.com/v3/grants/" +:+ grantId.

(** The request of [validateGrant] (GET) and of [revokeGrant] (DELETE). *)
Definition grant_request (method grantId : string) : ApiRequest :=
  {| api_url := grant_url grantId;
     api_method := method;
     api_headers := [("Accept", "application/json");
                     ("Authorization", "Bearer " +:+ NYLAS_API_KEY W);
                     ("Content-Type", "application/json")] |}.

Definition grant_ok (method grantId : string) : M bool :=
  try_catch
    (answer ← ask (fun t => api_fetch t (grant_request method grantId));
     response ← of_sum answer;
     mret (api_ok response))
    (fun _ => mret false).

Definition validateGrant (grantId : string) : M bool := grant_ok "GET" grantId.

Definition revokeGrant (grantId : string) : M bool := grant_ok "DELETE" grantId.

(** The requests of [getAccountInfo]. *)
Definition account_request (endpoint : string) : ApiRequest :=
  {| api_url := endpoint;
     api_method := "GET";
     api_headers := [("Accept", "application/json");
                     ("Authorization", "Bearer " +:+ NYLAS_API_KEY W)] |}.

(** From the parsed response to [email] and [name]; reading a property of
    [null] or [undefined] throws. *)
Definition read_account (result : jsval) : M Account :=
  data ← of_sum (JsVal.get_prop result "data");
  let accountData :=
    if TemplateEngine.truthy data then
      match data with
      | JArray items => nth 0 items JUndefined
      | _ => data
      end
    else result in
  e1 ← of_sum (JsVal.get_prop accountData "email");
  e2 ← of_sum (JsVal.get_prop accountData "email_address");
  e3 ← of_sum (JsVal.get_prop accountData "primary_email_address");
  n1 ← of_sum (JsVal.get_prop accountData "name");
  n2 ← of_sum (JsVal.get_prop accountData "display_name");
  let email := JsVal.or_else e1 (JsVal.or_else e2 (JsVal.or_else e3 (JString ""))) in
  mret {| email := email; name := JsVal.or_else n1 (JsVal.or_else n2 email) |}.

(** One round of the loop over the endpoints, with its try block: the
    account, when the endpoint gave one with an email. *)
Definition try_endpoint (endpoint : string) : M (option Account) :=
  try_catch
    (answer ← ask (fun t => api_fetch t (account_request endpoint));
     response ← of_sum answer;
     if api_ok response then
       result ← of_sum (api_json response);
       account ← read_account result;
       if TemplateEngine.truthy (email account) then mret (Some account) else mret None
     else
       errorText ← of_sum (api_text response);
       mret None)
    (fun _ => mret None).

Definition fallback_account : Account :=
  {| email := JString "unknown@example.com"; name := JString "Nylas User" |}.

(** [getAccountInfo(grantId)]; [None] is [null].  The argument is
    [undefined] when the SDK gave no access token: the first statement
    then throws, and the outer catch returns [null]. *)
Definition getAccountInfo (grantId : option string) : M (option Account) :=
  match grantId with
  | None => mret None
  | Some grantId =>
      first ← try_endpoint (grant_url grantId);
      match first with
      | Some account => mret (Some account)
      | None =>
          second ← try_endpoint "https://api.us.nylas.com/v3/accounts";
          match second with
          | Some account => mret (Some account)
          | None => mret (Some fallback_account)
          end
      end
  end.



(** [UPDATE users SET nylas_access_token = NULL, nylas_account_id = NULL,
    has_nylas_auth = false WHERE id = $1] *)
Definition revoked (id : string) (u : User) : User :=
  if String.eqb (user_id u) id then
    {| user_id := user_id u; user_email := user_email u; user_name := user_name u;
       gmail_refresh_token := gmail_refresh_token u;
       gmail_access_token := gmail_access_token u;
       gmail_token_expires_at := gmail_token_expires_at u;
       nylas_access_token := None;
       has_nylas_auth := Some false |}
  else u.


(** POST /auth/nylas/revoke *)
Definition revoke (user : User) : State -> Reply NylasData * State :=
  route "Failed to revoke Nylas authorization"
    (st ← get;
     match List.filter (fun u => String.eqb (user_id u) (user_id user)) (users st) with
     | userData :: _ =>
         if truthy_str (nylas_access_token userData)
         then revokeGrant (default "" (nylas_access_token userData));; mret tt
         else mret tt
     | [] => mret tt
     end;;
     modify (fun st => set_users (map (revoked (user_id user)) (users st)) st);;
     reply 200 (PData (Revoked "Nylas authorization revoked"))).

End WithApi.
End NylasAccount.

(** ** More sample data *)

Module Scenario.

(** An owner whose cached Gmail token is good for another hour. *)
Definition gmail_user : User :=
  {| user_id := "u1"; user_email := "u1@example.com"; user_name := "u1";
     gmail_refresh_token := Some "1//refresh";
     gmail_access_token := Some "ya29.cached";
     gmail_token_expires_at := Some (1793577600000 + 3600000)%Z;
     nylas_access_token := None; has_nylas_auth := Some false |}.

(** A world whose Nylas API answers 502, first with a text that is not
    JSON, then with an empty JSON object, and where [JSON.parse] knows the
    latter. *)
Definition gateway_world : World :=
  {| handlebars := handlebars Sample.world;
     handlebars_compile_error := handlebars_compile_error Sample.world;
     marked_parse := marked_parse Sample.world;
     purify_sanitize := purify_sanitize Sample.world;
     JSON_parse := fun s => if String.eqb s "{}" then Some (JObject []) else None;
     js_ToString := js_ToString Sample.world;
     clock := clock Sample.world;
     toISOString := toISOString Sample.world;
     getFullYear := getFullYear Sample.world;
     toLocaleString_month := toLocaleString_month Sample.world;
     toLocaleDateString := toLocaleDateString Sample.world;
     addSeconds := addSeconds Sample.world;
     uuidv4 := uuidv4 Sample.world;
     gen_random_uuid := gen_random_uuid Sample.world;
     NYLAS_API_KEY := "nyk_test";
     fetch := fun t _ =>
       inr {| rs_ok := false; rs_status := 502;
              rs_text := inr (if Nat.eqb t 0 then "Bad Gateway" else "{}") |};
     oauth_refreshAccessToken := oauth_refreshAccessToken Sample.world;
     sendMail := sendMail Sample.world |}.

End Scenario.

(** A database that two users share, each with a note, a template and the
    record of a delivered send. *)
Module Shared.

Definition u1 : User := Sample.user "u1" (Some "1//refresh") None.
Definition u2 : User := Sample.user "u2" None None.

Definition note2 : Note :=
  {| note_id := "n2"; note_user_id := "u2"; note_title := "Minutes";
     note_content := "Agenda"; note_created_at := 0%Z; note_updated_at := 0%Z |}.

Definition template1 : EmailTemplate :=
  Sample.template "{{note_title}}" "<p>{{note_content}}</p>".

Definition template2 : EmailTemplate :=
  {| tpl_id := "t2"; tpl_user_id := "u2"; tpl_name := "Other";
     tpl_subject := "{{note_title}}"; tpl_body := "<p>{{note_content}}</p>";
     tpl_variables := ["note_title"; "note_content"];
     tpl_version := 1; tpl_is_active := true |}.

Definition delivered (id user note template key : string) : SentEmail :=
  {| se_id := id; se_user_id := user; se_note_id := note;
     se_template_id := template; se_template_version := 1;
     se_idempotency_key := key; se_recipients := ["a@b.c"];
     se_subject := "Trip"; se_body_html := "<p>Pack the bags</p>";
     se_body_text := "Pack the bags";
     se_status := Sent; se_error_message := None;
     se_provider_message_id := Some (JString "<message-0@mail.gmail.com>");
     se_sent_at := Some 1793577600000%Z |}.

Definition state : State :=
  {| users := [u1; u2]; notes := [Sample.note; note2];
     email_templates := [template1; template2];
     email_template_versions := [];
     sent_emails := [delivered "r1" "u1" "n1" "t1" "k1";
                     delivered "r2" "u2" "n2" "t2" "k2"];
     trace := []; tick := 0 |}.

(** [CURRENT_TIMESTAMP] of the notes table. *)
Definition now : nat -> Date := fun t => (1793577600000 + Z.of_nat t)%Z.

End Shared.

(** * Vocabulary of the properties *)

(** *** The fuel of the scanners is enough *)

(** A pattern that never matches the empty string leaves less than it was given. *)
Definition consuming (m : Js.matcher) : Prop :=
  forall s hit rest, m s = Some (hit, rest) -> String.length rest < String.length s.

(** The shape every adapter result has. *)
Definition uniform (r : EmailSendResult) : Prop :=
  (success r = true /\ error r = None)
  \/ (success r = false /\ messageId r = JString "" /\ is_Some (error r)).

(** The events a run added to the trace. *)
Definition new_events (st st' : State) : list event :=
  drop (length (trace st)) (trace st').

(** The tables an adapter does not write. *)
Definition untouched (st st' : State) : Prop :=
  sent_emails st' = sent_emails st
  /\ email_templates st' = email_templates st
  /\ email_template_versions st' = email_template_versions st
  /\ notes st' = notes st.

(** The mail a Gmail attempt hands to nodemailer. *)
Definition mail_of (m : MailOptions) (subject html : string) : Prop :=
  mo_subject m = subject /\ mo_html m = html.

Definition is_adapter_send (e : event) : bool :=
  match e with EvAdapterSend _ _ _ _ _ => true | _ => false end.

(** The number of times an adapter was asked to send. *)
Definition adapter_sends (l : list event) : nat :=
  length (List.filter is_adapter_send l).

Definition send_failure : Response :=
  {| http_status := 500; body := BError "Failed to send email" None |}.

(** How the sending of a stored record ends: which events follow the lookup
    of the credentials, how the record is finalized, what the caller is
    told.  [us] is the table of users when the lookup is made. *)
Definition provider_outcome (user : User) (us : list User) (id : string)
    (recipients : list string) (subject html text : string)
    (adapter : list event) (status : send_status) (pmid : option jsval)
    (err : option string) (resp : Response) : Prop :=
  match List.filter (fun u => String.eqb (user_id u) (user_id user)) us with
  | [] =>
      adapter = [] /\ status = Failed /\ pmid = None /\ is_Some err
      /\ resp = send_failure
  | userData :: _ =>
      match Emails.select_provider userData with
      | None =>
          adapter = [] /\ status = Failed /\ pmid = None
          /\ err = Some Emails.no_provider_message /\ resp = send_failure
      | Some p =>
          exists rest,
            adapter = EvAdapterSend p recipients subject html text :: rest
            /\ adapter_sends rest = 0
            /\ ((status = Sent /\ err = None
                 /\ exists mid, pmid = Some mid
                    /\ resp = {| http_status := 200; body := BSent id mid |})
                \/ (status = Failed /\ pmid = None
                    /\ resp = {| http_status := 500;
                                 body := BError "Failed to send email" err |}))
      end
  end.

(** The UPDATE of [updateSentEmailStatus] on the whole table. *)
Definition finalize_rows (id : string) (status : send_status) (pmid : option jsval)
    (err : option string) (sentAt : option Date) (rows : list SentEmail) : list SentEmail :=
  map (fun r => if String.eqb (se_id r) id
                then EmailService.finalized status pmid err sentAt r else r) rows.

(** ** States the routes can reach *)

(** One call of a route that writes. *)
Inductive step (W : World) : State -> State -> Prop :=
| step_create user name subject body st :
    step W st (snd (Templates.create W user name subject body st))
| step_update user id name subject body st :
    step W st (snd (Templates.update W user id name subject body st))
| step_delete user id st :
    step W st (snd (Templates.delete user id st))
| step_send user rq st :
    step W st (snd (Emails.send W user rq st))
| step_retry user id st :
    step W st (snd (Emails.retry W user id st)).

(** The states reached from a database without templates. *)
Inductive reachable (W : World) : State -> Prop :=
| reachable_start st :
    email_templates st = [] -> email_template_versions st = [] -> reachable W st
| reachable_step st st' :
    reachable W st -> step W st st' -> reachable W st'.

(** What holds of the template tables in every such state: the hints of a
    row are those of its subject and body, ids are unique, a snapshot
    belongs to a template and is older than it. *)
Record consistent (st : State) : Prop := {
  variables_derived :
    forall t, In t (email_templates st) ->
      tpl_variables t
      = VariableExtractor.extractTemplateVariables (tpl_subject t) (tpl_body t);
  ids_unique : NoDup (map tpl_id (email_templates st));
  snapshots_belong :
    forall v, In v (email_template_versions st) ->
      In (ver_template_id v) (map tpl_id (email_templates st));
  snapshots_older :
    forall v t, In v (email_template_versions st) -> In t (email_templates st) ->
      tpl_id t = ver_template_id v -> (ver_version v < tpl_version t)%Z;
}.

(** ** Vocabulary of the further properties *)

(** What a name returned by [extractTemplateVariables] looks like. *)
Definition root_name (v : string) : Prop :=
  v <> "" /\ v <> "this" /\ Js.startsWith v "/" = false
  /\ Js.all (fun c => negb (Js.is_brace c) && negb (Ascii.eqb c ".")) v = true.

Definition head_char (s : string) : option ascii :=
  match s with String c _ => Some c | EmptyString => None end.

(** Neither the first nor the last character is white space. *)
Definition no_outer_space (s : string) : Prop :=
  forall c, head_char s = Some c \/ head_char (Js.rev s) = Some c -> Js.is_space c = false.

(** Characters of a name written without white space, braces or dots. *)
Definition name_char (c : ascii) : bool :=
  negb (Js.is_space c) && negb (Js.is_brace c) && negb (Ascii.eqb c ".").

(** Characters that start no markup, no entity and no blank line. *)
Definition text_char (c : ascii) : bool :=
  negb (Ascii.eqb c "<") && negb (Ascii.eqb c "&") && negb (Ascii.eqb c TemplateEngine.LF).

(** What a pattern matched is a prefix of its input. *)
Definition splitting (m : Js.matcher) : Prop :=
  forall s hit rest, m s = Some (hit, rest) -> exists pre, s = pre +:+ rest.

(** No [<] has a [>] behind it. *)
Fixpoint tag_free (s : string) : bool :=
  match s with
  | EmptyString => true
  | String c s' =>
      (negb (Ascii.eqb c "<") || Js.all (fun d => negb (Ascii.eqb d ">")) s') && tag_free s'
  end.

Definition not_space (c : ascii) : bool := negb (Js.is_space c).

Definition no_amp (c : ascii) : bool := negb (Ascii.eqb c "&").

(** The cached access token is used as it is: there is one, and it expires
    more than five minutes after the moment [getValidAccessToken] looks. *)
Definition token_is_fresh (W : World) (user : User) (st : State) : bool :=
  match truthy_str (gmail_access_token user), gmail_token_expires_at user with
  | true, Some expiresAt => (5 * 60 * 1000 <? expiresAt - clock W (tick st))%Z
  | _, _ => false
  end.

(** The moment at which the refresh is asked for: after the look at the
    clock, when there is a cached token to examine. *)
Definition refresh_tick (user : User) (st : State) : nat :=
  match truthy_str (gmail_access_token user), gmail_token_expires_at user with
  | true, Some _ => S (tick st)
  | _, _ => tick st
  end.

(** The transporter and the mail of the Gmail adapter. *)
Definition gmail_transporter (user : User) (accessToken : option string) : Transporter :=
  {| tr_user := user_email user;
     tr_refreshToken := gmail_refresh_token user;
     tr_accessToken := accessToken |}.

Definition gmail_mail (user : User) (recipients : list string)
    (subject html text : string) : MailOptions :=
  {| mo_from := user_email user;
     mo_to := EmailService.join recipients;
     mo_subject := subject;
     mo_html := html;
     mo_text := if String.eqb text "" then TemplateEngine.htmlToText html else text |}.

(** The expiry stored with a refreshed token: [expiry_date || 3600] is
    added, as seconds, to the moment the refresh returned. *)
Definition refreshed_expiry (W : World) (credentials : Credentials) (now : Date) : Date :=
  addSeconds W now match cred_expiry_date credentials with
                   | Some n => if (n =? 0)%Z then 3600%Z else n
                   | None => 3600%Z
                   end.

(** What the adapter returns for an answer of nodemailer. *)
Definition gmail_result (answer : thrown + string) : EmailSendResult :=
  match answer with
  | inr id => {| messageId := JString id; success := true; error := None |}
  | inl e => EmailService.failure e
  end.

(** ** Assertions on runs *)

(** A triple on code in the monad [M]: from a state that satisfies [P],
    the code returns in a state that satisfies [Q] of its value or throws
    in one that satisfies [E] of the thrown value. *)
Definition hoare {A} (P : State -> Prop) (m : M A)
    (Q : A -> State -> Prop) (E : thrown -> State -> Prop) : Prop :=
  forall st, P st ->
    match m st with
    | (Ret a, st') => Q a st'
    | (Throw e, st') => E e st'
    end.

(** The values [updateSentEmailStatus] is given by the routes: a message
    id and a time stamp with [sent], an error message with [failed]. *)
Definition settling (status : send_status) (pmid : option jsval) (err : option string)
    (sentAt : option Date) : Prop :=
  (status = Sent /\ is_Some pmid /\ err = None /\ is_Some sentAt)
  \/ (status = Failed /\ pmid = None /\ is_Some err /\ sentAt = None).

(** The table of users after a request of [a]: as it was, or with the
    cached Gmail token of [a] replaced. *)
Definition tokens_step (a : string) (us us' : list User) : Prop :=
  us' = us
  \/ exists token expires, us' = map (EmailService.store_access_token a token expires) us.

(** Every table but [sent_emails] is as in [st0], and [sent_emails] holds [rows]. *)
Definition kept (st0 : State) (rows : list SentEmail) (st : State) : Prop :=
  users st = users st0
  /\ notes st = notes st0
  /\ email_templates st = email_templates st0
  /\ email_template_versions st = email_template_versions st0
  /\ sent_emails st = rows.

(** The same, except perhaps for a new Gmail token of [a]. *)
Definition holding (a : string) (st0 : State) (rows : list SentEmail) (st : State) : Prop :=
  tokens_step a (users st0) (users st)
  /\ notes st = notes st0
  /\ email_templates st = email_templates st0
  /\ email_template_versions st = email_template_versions st0
  /\ sent_emails st = rows.

(** [rows'] is [rows] after [updateSentEmailStatus] on the rows named [id]. *)
Definition settled_rows (id : string) (rows rows' : list SentEmail) : Prop :=
  exists status pmid err sentAt,
    settling status pmid err sentAt
    /\ rows' = finalize_rows id status pmid err sentAt rows.

(** A record that is no longer pending, with the columns its status asks for. *)
Definition settled (r : SentEmail) : Prop :=
  settling (se_status r) (se_provider_message_id r) (se_error_message r) (se_sent_at r).

(** The rows that do not belong to [a]. *)
Definition foreign {A} (owner : A -> string) (a : string) (rows : list A) : list A :=
  List.filter (fun r => negb (String.eqb (owner r) a)) rows.

(** What belongs to the other users is the same in both states. *)
Record others_same (a : string) (st st' : State) : Prop := {
  same_users : foreign user_id a (users st') = foreign user_id a (users st);
  same_notes : foreign note_user_id a (notes st') = foreign note_user_id a (notes st);
  same_templates :
    foreign tpl_user_id a (email_templates st') = foreign tpl_user_id a (email_templates st);
  same_records :
    foreign se_user_id a (sent_emails st') = foreign se_user_id a (sent_emails st);
}.

(** The constraints of schema.sql on the tables the routes write: primary
    keys, the UNIQUE idempotency key, and the references of a record to its
    note and its template, which belong to the owner of the record. *)
Record sound (st : State) : Prop := {
  note_ids : NoDup (map note_id (notes st));
  template_ids : NoDup (map tpl_id (email_templates st));
  record_ids : NoDup (map se_id (sent_emails st));
  record_keys : NoDup (map se_idempotency_key (sent_emails st));
  record_notes :
    forall r, In r (sent_emails st) ->
      exists n, In n (notes st) /\ note_id n = se_note_id r
                /\ note_user_id n = se_user_id r;
  record_templates :
    forall r, In r (sent_emails st) ->
      exists t, In t (email_templates st) /\ tpl_id t = se_template_id r
                /\ tpl_user_id t = se_user_id r;
}.

(** The version of the template that a record names can still be read:
    the template is at that version, or a snapshot of it was taken. *)
Definition version_on_file (st : State) (r : SentEmail) : Prop :=
  (exists t, In t (email_templates st) /\ tpl_id t = se_template_id r
             /\ tpl_version t = se_template_version r)
  \/ (exists v, In v (email_template_versions st) /\ ver_template_id v = se_template_id r
                /\ ver_version v = se_template_version r).

(** One request of the user [a], to any of the routes. *)
Inductive request (W : World) (now : nat -> Date) (a : string) : State -> State -> Prop :=
| request_template_create user name subject body st :
    user_id user = a ->
    request W now a st (snd (Templates.create W user name subject body st))
| request_template_update user id name subject body st :
    user_id user = a ->
    request W now a st (snd (Templates.update W user id name subject body st))
| request_template_delete user id st :
    user_id user = a ->
    request W now a st (snd (Templates.delete user id st))
| request_template_get user id st :
    user_id user = a ->
    request W now a st (snd (TemplateViews.get_one user id st))
| request_template_preview user templateId noteId st :
    user_id user = a ->
    request W now a st (snd (TemplateViews.preview W user templateId noteId st))
| request_send user rq st :
    user_id user = a ->
    request W now a st (snd (Emails.send W user rq st))
| request_retry user id st :
    user_id user = a ->
    request W now a st (snd (Emails.retry W user id st))
| request_note_get user id st :
    user_id user = a ->
    request W now a st (snd (Notes.get_one user id st))
| request_note_create user title content st :
    user_id user = a ->
    request W now a st (snd (Notes.create W now user title content st))
| request_note_update user id title content st :
    user_id user = a ->
    request W now a st (snd (Notes.update now user id title content st))
| request_note_delete user id st :
    user_id user = a ->
    request W now a st (snd (Notes.delete user id st)).

(** A row of [email_templates] before and after an UPDATE that selects
    with [sel], where [versions'] are the snapshots after it. *)
Definition row_step (sel : EmailTemplate -> bool) (set : EmailTemplate -> EmailTemplate)
    (versions' : list EmailTemplateVersion) (r r' : EmailTemplate) : Prop :=
  tpl_id r' = tpl_id r /\ tpl_user_id r' = tpl_user_id r
  /\ tpl_is_active r' = (if sel r then tpl_is_active (set r) else tpl_is_active r)
  /\ (sel r = false -> r' = r)
  /\ (tpl_version r' = tpl_version r
      \/ (tpl_version r' = tpl_version r + 1)%Z /\ In (Templates.snapshot_of r) versions').

(** A SET clause that leaves id, owner and version alone. *)
Definition keeps_identity (set : EmailTemplate -> EmailTemplate) : Prop :=
  forall t, tpl_id (set t) = tpl_id t /\ tpl_user_id (set t) = tpl_user_id t
            /\ tpl_version (set t) = tpl_version t.

(** What an UPDATE of [email_templates] does to the tables; the trigger
    fails or the rows advance as [row_step] says. *)
Definition templates_step (sel : EmailTemplate -> bool) (set : EmailTemplate -> EmailTemplate)
    (st st' : State) : Prop :=
  users st' = users st /\ notes st' = notes st /\ sent_emails st' = sent_emails st
  /\ ((email_templates st' = email_templates st
       /\ email_template_versions st' = email_template_versions st)
      \/ (Forall2 (row_step sel set (email_template_versions st'))
            (email_templates st) (email_templates st')
          /\ exists more,
               email_template_versions st' = email_template_versions st ++ more)).

(** The template [id] exists and is switched off. *)
Definition retired (id : string) (st : State) : Prop :=
  (exists t, In t (email_templates st) /\ tpl_id t = id)
  /\ forall t, In t (email_templates st) -> tpl_id t = id -> tpl_is_active t = false.

(** Any number of requests, of any users. *)
Definition requests (W : World) (now : nat -> Date) : State -> State -> Prop :=
  rtc (fun st st' => exists a, request W now a st st').

(** Every table of [st'] is as in [st]. *)
Definition same_tables (st st' : State) : Prop := kept st (sent_emails st) st'.

(** An address as the compose page passes it on: not empty, without outer
    white space, without a comma. *)
Definition clean_recipient (email : string) : Prop :=
  email <> "" /\ Js.trim email = email
  /\ Js.all (fun c => negb (Ascii.eqb c ",")) email = true.

Definition no_blank (s : string) : bool := Js.all (fun c => negb (Ascii.eqb c " ")) s.

(** *** Templates of the fragment, schemes of URI references *)

(** The values that Handlebars prints in the fragment of [HandlebarsLite]:
    strings and numbers. *)
Definition printable (v : jsval) : bool :=
  match v with JString _ | JNumber _ => true | _ => false end.

(** A template of that fragment, literal text and plain interpolations:
    it renders against the empty context, where no name is bound. *)
Definition in_fragment (source : string) : Prop :=
  is_Some (HandlebarsLite.render source ∅).

(** The scheme of a URI reference, in lower case: a letter followed by
    letters, digits, [+], [-] and [.], up to a colon (RFC 3986).  A
    reference without one is relative. *)
Definition scheme_tail_char (c : ascii) : bool :=
  TemplateEngine.scheme_char c
  || let n := nat_of_ascii c in (48 <=? n)%nat && (n <=? 57)%nat.



(** * Properties *)

(** ** Reasoning about monadic code *)

Ltac unfold_monad :=
  unfold mbind, M_bind, mret, M_ret, bind, ret, throw, try_catch, of_sum,
    ask, log, modify, get, respond in *.

Ltac step_monad :=
  repeat (unfold_monad; cbn [fst snd] in *).

Ltac by_cases_on_char b :=
  destruct b as [[] [] [] [] [] [] [] []]; try discriminate; try reflexivity.

Lemma bind_run {A B} (m : M A) (k : A -> M B) (st : State) :
  (x ← m; k x) st =
  match m st with
  | (Ret a, st') => k a st'
  | (Throw e, st') => (Throw e, st')
  end.
Proof. reflexivity. Qed.

Lemma try_catch_run {A} (m : M A) (h : thrown -> M A) (st : State) :
  try_catch m h st =
  match m st with
  | (Ret a, st') => (Ret a, st')
  | (Throw e, st') => h e st'
  end.
Proof. reflexivity. Qed.

Lemma varchar_run (n : nat) (s : string) (st : State) :
  varchar n s st = (if fits n s then Ret tt else Throw (value_too_long n), st).
Proof. unfold varchar. now destruct (fits n s). Qed.

(** Go past a width check: the value fits, or the statement raised. *)
Ltac pass_varchar :=
  rewrite bind_run, varchar_run;
  match goal with |- context [fits ?n ?s] => destruct (fits n s) eqn:? end;
  cbv beta iota.

(** ** Variable extraction *)

Example extract_spec_example :
  VariableExtractor.extractTemplateVariables
    "{{note_title}} {{#each items}}{{this}}{{/each}}" ""
  = ["note_title"; "items"].
Proof. reflexivity. Qed.

Example extract_dotted_path :
  VariableExtractor.extractTemplateVariables "{{user.name}} {{user.email}}" "{{{ raw }}}"
  = ["user"; "raw"].
Proof. reflexivity. Qed.

Lemma set_add_NoDup (x : string) (l : list string) :
  NoDup l -> NoDup (Js.set_add x l).
Proof.
  intros Hl. unfold Js.set_add.
  destruct (existsb (String.eqb x) l) eqn:E; [assumption|].
  apply NoDup_app. split; [assumption|]. split.
  - intros y Hy Hin. apply list_elem_of_singleton in Hin. subst y.
    assert (existsb (String.eqb x) l = true); [|congruence].
    apply existsb_exists. exists x. split.
    + now apply list_elem_of_In.
    + apply String.eqb_refl.
  - apply NoDup_singleton.
Qed.

(** The list returned holds no name twice. *)
Lemma extractTemplateVariables_NoDup (subject body : string) :
  NoDup (VariableExtractor.extractTemplateVariables subject body).
Proof.
  unfold VariableExtractor.extractTemplateVariables.
  generalize (Js.match_all VariableExtractor.mustache (subject +:+ " " +:+ body)).
  assert (H : NoDup (@nil string)) by constructor.
  revert H. generalize (@nil string).
  intros acc Hacc l. revert acc Hacc.
  induction l as [|m l IH]; intros acc Hacc; cbn [fold_left]; [assumption|].
  apply IH. unfold VariableExtractor.add_match.
  destruct (VariableExtractor.keeps _); [now apply set_add_NoDup | assumption].
Qed.

Lemma span_length (p : ascii -> bool) (s : string) :
  String.length s
  = String.length (fst (Js.span p s)) + String.length (snd (Js.span p s)).
Proof.
  induction s as [|c s IH]; [reflexivity|].
  cbn [Js.span]. destruct (p c); [|reflexivity].
  destruct (Js.span p s) as [run rest]. cbn [fst snd String.length] in *. lia.
Qed.

Lemma mustache_consuming : consuming VariableExtractor.mustache.
Proof.
  intros s hit rest. unfold VariableExtractor.mustache.
  destruct s as [|a s0]; [discriminate|].
  destruct (Ascii.eqb_spec a "{"); [subst a|by_cases_on_char a; contradiction].
  destruct s0 as [|b s1]; [discriminate|].
  destruct (Ascii.eqb_spec b "{"); [subst b|by_cases_on_char b; contradiction].
  pose proof (span_length (fun c => negb (Ascii.eqb c "}")) s1) as Hlen.
  destruct (Js.span _ s1) as [[|c run] tail]; [discriminate|].
  destruct tail as [|c1 tail]; [discriminate|].
  destruct (Ascii.eqb_spec c1 "}"); [subst c1|by_cases_on_char c1; contradiction].
  destruct tail as [|c2 tail]; [discriminate|].
  destruct (Ascii.eqb_spec c2 "}"); [subst c2|by_cases_on_char c2; contradiction].
  intros [= _ <-]. cbn [fst snd String.length] in *. lia.
Qed.

(** With a consuming pattern, any fuel above the length of the input gives
    the same matches: the fuel of [match_all] never runs out. *)
Lemma match_all_fuel (m : Js.matcher) (fuel1 fuel2 : nat) (s : string) :
  consuming m ->
  String.length s < fuel1 -> String.length s < fuel2 ->
  Js.match_all_from m fuel1 s = Js.match_all_from m fuel2 s.
Proof.
  intros Hm. revert fuel2 s.
  induction fuel1 as [|fuel1 IH]; intros fuel2 s H1 H2; [lia|].
  destruct fuel2 as [|fuel2]; [lia|].
  cbn [Js.match_all_from].
  destruct (m s) as [[hit rest]|] eqn:E.
  - f_equal. apply Hm in E. apply IH; lia.
  - destruct s as [|c s]; [reflexivity|]. cbn [String.length] in *. apply IH; lia.
Qed.

Lemma replace_all_fuel (m : Js.matcher) (rep : string) (fuel1 fuel2 : nat) (s : string) :
  consuming m ->
  String.length s < fuel1 -> String.length s < fuel2 ->
  Js.replace_all_from m rep fuel1 s = Js.replace_all_from m rep fuel2 s.
Proof.
  intros Hm. revert fuel2 s.
  induction fuel1 as [|fuel1 IH]; intros fuel2 s H1 H2; [lia|].
  destruct fuel2 as [|fuel2]; [lia|].
  cbn [Js.replace_all_from].
  destruct (m s) as [[hit rest]|] eqn:E.
  - f_equal. apply Hm in E. apply IH; lia.
  - destruct s as [|c s]; [reflexivity|]. cbn [String.length] in *.
    f_equal. apply IH; lia.
Qed.

(** The matches of the mustache pattern, unfolded at the first of them. *)
Lemma match_all_mustache (s : string) :
  Js.match_all VariableExtractor.mustache s =
  match VariableExtractor.mustache s with
  | Some (hit, rest) => hit :: Js.match_all VariableExtractor.mustache rest
  | None =>
      match s with
      | EmptyString => []
      | String _ s' => Js.match_all VariableExtractor.mustache s'
      end
  end.
Proof.
  unfold Js.match_all at 1. cbn [Js.match_all_from].
  destruct (VariableExtractor.mustache s) as [[hit rest]|] eqn:E.
  - f_equal. apply mustache_consuming in E.
    apply match_all_fuel; [exact mustache_consuming | lia | lia].
  - destruct s as [|c s]; [reflexivity|].
    apply match_all_fuel; [exact mustache_consuming | cbn; lia | lia].
Qed.

(** C8 (the code differs from the claim): the block helper [each] is
    stripped from a token, the block helpers [if] and [unless] are not.  The
    patterns [/^if\s+/] and [/^unless\s+/] lack the [#] that [/^#each\s+/]
    has, so the token [{{#if show}}] gives the name ["#if show"] where the
    claim has ["show"], and likewise for [unless]; the example of the
    specification, which only uses [each], gives [note_title; items]. *)
Theorem C8_if_and_unless_are_not_stripped :
  VariableExtractor.extractTemplateVariables "" "{{#if show}}yes{{/if}}"
    = ["#if show"]
  /\ VariableExtractor.extractTemplateVariables "" "{{#unless hidden}}x{{/unless}}"
    = ["#unless hidden"]
  /\ VariableExtractor.extractTemplateVariables "" "{{#each items}}{{this}}{{/each}}"
    = ["items"]
  /\ VariableExtractor.extractTemplateVariables
       "{{note_title}} {{#each items}}{{this}}{{/each}}" ""
    = ["note_title"; "items"].
Proof. repeat split; reflexivity. Qed.

(** ** The provider adapters *)

(** What the try block of the Nylas adapter returns is a success, and the
    transport has delivered. *)
Lemma nylas_attempt_success (W : World) grantId recipients subject html text st r st' :
  NylasEmailService.attempt W grantId recipients subject html text st = (Ret r, st') ->
  success r = true /\ error r = None
  /\ NylasEmailService.transport_failed W (tick st)
       (NylasEmailService.request W grantId recipients subject html text) = false.
Proof.
  unfold NylasEmailService.attempt, NylasEmailService.transport_failed.
  step_monad. cbn [tick set_trace].
  destruct (fetch W (tick st) _) as [e|response]; [discriminate|].
  destruct (rs_ok response); cbn [negb orb].
  - destruct (rs_text response) as [e|responseText]; [discriminate|].
    destruct (JSON_parse W responseText) as [result|]; [|discriminate].
    destruct (JsVal.get_prop result "data") as [e|data]; [discriminate|].
    destruct (JsVal.get_prop_opt data "id") as [e|data_id]; [discriminate|].
    destruct (JsVal.get_prop result "id") as [e|id]; [discriminate|].
    intros [= <- _]. repeat split; reflexivity.
  - destruct (rs_text response) as [e|responseText]; [discriminate|].
    destruct (NylasEmailService.new_Error W _) as [e|e]; discriminate.
Qed.

Lemma nylas_sendEmail_returns (W : World) grantId recipients subject html text st :
  exists r st',
    NylasEmailService.sendEmail W grantId recipients subject html text st = (Ret r, st')
    /\ uniform r
    /\ (NylasEmailService.transport_failed W (tick st)
          (NylasEmailService.request W grantId recipients subject html text) = true ->
        success r = false).
Proof.
  unfold NylasEmailService.sendEmail.
  rewrite bind_run. unfold log at 1, modify at 1. cbn beta iota.
  rewrite try_catch_run.
  destruct (NylasEmailService.attempt W grantId recipients subject html text _)
    as [[r|e] st1] eqn:Hrun.
  - exists r, st1. split; [reflexivity|].
    apply nylas_attempt_success in Hrun as (Hs & He & Ht). cbn [tick set_trace] in Ht.
    split; [left; auto|]. intros Hf. congruence.
  - eexists _, st1. split; [reflexivity|]. split; [|reflexivity].
    right. cbn. repeat split. eexists; reflexivity.
Qed.

Lemma gmail_attempt_success (W : World) user recipients subject html text st r st' :
  EmailService.attempt W user recipients subject html text st = (Ret r, st') ->
  success r = true /\ error r = None /\ truthy_str (gmail_refresh_token user) = true.
Proof.
  unfold EmailService.attempt.
  destruct (truthy_str (gmail_refresh_token user)); cbn [negb];
    [|unfold throw; discriminate].
  rewrite bind_run.
  destruct (EmailService.createTransporter W user st) as [[tr|e] st2]; [|discriminate].
  step_monad.
  destruct (sendMail W _ _ _) as [e|mid]; [discriminate|].
  intros [= <- _]. repeat split; reflexivity.
Qed.

Lemma gmail_sendEmail_returns (W : World) user recipients subject html text st :
  exists r st',
    EmailService.sendEmail W user recipients subject html text st = (Ret r, st')
    /\ uniform r
    /\ (truthy_str (gmail_refresh_token user) = false -> success r = false).
Proof.
  unfold EmailService.sendEmail.
  rewrite bind_run. unfold log at 1, modify at 1. cbn beta iota.
  rewrite try_catch_run.
  destruct (EmailService.attempt W user recipients subject html text _)
    as [[r|e] st1] eqn:Hrun.
  - exists r, st1. split; [reflexivity|].
    apply gmail_attempt_success in Hrun as (Hs & He & Ht).
    split; [left; auto|]. intros Hf. congruence.
  - eexists _, st1. split; [reflexivity|]. split; [|reflexivity].
    right. cbn. repeat split. eexists; reflexivity.
Qed.

(** Reading [data?.id] never throws, and neither does reading [id] from a
    value whose [data] could be read. *)
Lemma get_prop_opt_returns (v : jsval) (k : string) :
  exists x, JsVal.get_prop_opt v k = inr x.
Proof. destruct v; cbn; eauto. Qed.

Lemma get_prop_twice (v : jsval) (k k' : string) (x : jsval) :
  JsVal.get_prop v k = inr x -> exists y, JsVal.get_prop v k' = inr y.
Proof. destruct v; cbn; try discriminate; eauto. Qed.

(** The result of the Nylas adapter, read off the answers of the transport. *)
Lemma nylas_sendEmail_result (W : World) grantId recipients subject html text st r st' :
  NylasEmailService.sendEmail W grantId recipients subject html text st = (Ret r, st') ->
  match fetch W (tick st)
          (NylasEmailService.request W grantId recipients subject html text) with
  | inl e => r = NylasEmailService.failure e
  | inr response =>
      match rs_text response with
      | inl e => r = NylasEmailService.failure e
      | inr responseText =>
          if rs_ok response then
            match JSON_parse W responseText with
            | None =>
                r = NylasEmailService.failure
                      (JsError "Invalid JSON response from Nylas API")
            | Some result =>
                match JsVal.get_prop result "data" with
                | inl e => r = NylasEmailService.failure e
                | inr data =>
                    exists data_id id,
                      JsVal.get_prop_opt data "id" = inr data_id
                      /\ JsVal.get_prop result "id" = inr id
                      /\ r = {| messageId :=
                                  JsVal.or_else data_id (JsVal.or_else id (JString ""));
                                success := true; error := None |}
                end
            end
          else
            match NylasEmailService.new_Error W
                    (NylasEmailService.errorMessage W (rs_status response) responseText) with
            | inl e => r = NylasEmailService.failure e
            | inr err => r = NylasEmailService.failure err
            end
      end
  end.
Proof.
  unfold NylasEmailService.sendEmail, NylasEmailService.attempt.
  step_monad. cbn [tick set_trace].
  destruct (fetch W (tick st) _) as [e|response]; [now intros [= <- _]|].
  destruct (rs_ok response); cbn [negb].
  - destruct (rs_text response) as [e|responseText]; [now intros [= <- _]|].
    destruct (JSON_parse W responseText) as [result|]; [|now intros [= <- _]].
    destruct (JsVal.get_prop result "data") as [e|data] eqn:Hdata; [now intros [= <- _]|].
    destruct (get_prop_opt_returns data "id") as (data_id & Hdid).
    destruct (get_prop_twice result "data" "id" data Hdata) as (id & Hid).
    rewrite Hdid, Hid. intros [= <- _]. exists data_id, id. auto.
  - destruct (rs_text response) as [e|responseText]; [now intros [= <- _]|].
    destruct (NylasEmailService.new_Error W _) as [e|e]; now intros [= <- _].
Qed.

(** The result of the Gmail adapter, read off the answers of the token
    refresh and of nodemailer. *)
Lemma gmail_sendEmail_result (W : World) user recipients subject html text st :
  fst (EmailService.sendEmail W user recipients subject html text st)
  = Ret (if negb (truthy_str (gmail_refresh_token user)) then
           EmailService.failure (JsError "User has not authorized Gmail access")
         else
           let mail := gmail_mail user recipients subject html text in
           if token_is_fresh W user st then
             gmail_result (sendMail W (S (tick st))
                             (gmail_transporter user (gmail_access_token user)) mail)
           else
             match oauth_refreshAccessToken W (refresh_tick user st)
                     (gmail_refresh_token user) with
             | inl e => EmailService.failure e
             | inr credentials =>
                 gmail_result (sendMail W (S (S (refresh_tick user st)))
                                 (gmail_transporter user (cred_access_token credentials))
                                 mail)
             end).
Proof.
  unfold token_is_fresh, refresh_tick.
  unfold EmailService.sendEmail, EmailService.attempt, EmailService.createTransporter,
    EmailService.getValidAccessToken, EmailService.refreshAccessToken,
    gmail_transporter, gmail_mail.
  destruct (truthy_str (gmail_refresh_token user)); cbn [negb]; [|reflexivity].
  cbv zeta.
  destruct (truthy_str (gmail_access_token user));
    destruct (gmail_token_expires_at user) as [expiresAt|];
    step_monad; cbn [tick set_trace set_tick];
    try (destruct (5 * 60 * 1000 <? expiresAt - clock W (tick st))%Z;
         cbn [tick set_trace set_tick trace users]);
    try (destruct (oauth_refreshAccessToken W _ _) as [e|credentials]; [reflexivity|];
         cbn [tick set_trace set_tick set_users trace users]);
    destruct (sendMail W _ _ _) as [e|id]; reflexivity.
Qed.

(** C9: whatever the transport does, each adapter returns, and what it
    returns is read off the answers of the transport.  The Nylas adapter
    returns [{success: false, error}] with an empty [messageId] when
    [fetch] rejects, when the body cannot be read, when the status is not
    ok, when an ok body is not JSON and when the parsed value is [null];
    otherwise it returns [{success: true, messageId}] with the id found in
    the answer.  The Gmail adapter returns a failure without a refresh
    token, the failure of the token refresh when that throws, the failure
    of nodemailer when that throws (with its message), and otherwise
    [{success: true, messageId}] with the id nodemailer gave.  Nothing
    thrown inside leaves [sendEmail]. *)
Theorem C9_adapters_return_uniform_results (W : World) :
  (forall grantId recipients subject html text st,
      exists r st',
        NylasEmailService.sendEmail W grantId recipients subject html text st
          = (Ret r, st')
        /\ uniform r
        /\ (NylasEmailService.transport_failed W (tick st)
              (NylasEmailService.request W grantId recipients subject html text) = true ->
            success r = false)
        /\ match fetch W (tick st)
                   (NylasEmailService.request W grantId recipients subject html text) with
           | inl e => r = NylasEmailService.failure e
           | inr response =>
               match rs_text response with
               | inl e => r = NylasEmailService.failure e
               | inr responseText =>
                   if rs_ok response then
                     match JSON_parse W responseText with
                     | None =>
                         r = NylasEmailService.failure
                               (JsError "Invalid JSON response from Nylas API")
                     | Some result =>
                         match JsVal.get_prop result "data" with
                         | inl e => r = NylasEmailService.failure e
                         | inr data =>
                             exists data_id id,
                               JsVal.get_prop_opt data "id" = inr data_id
                               /\ JsVal.get_prop result "id" = inr id
                               /\ r = {| messageId :=
                                           JsVal.or_else data_id
                                             (JsVal.or_else id (JString ""));
                                         success := true; error := None |}
                         end
                     end
                   else
                     match NylasEmailService.new_Error W
                             (NylasEmailService.errorMessage W (rs_status response)
                                responseText) with
                     | inl e => r = NylasEmailService.failure e
                     | inr err => r = NylasEmailService.failure err
                     end
               end
           end)
  /\ (forall user recipients subject html text st,
         exists r st',
           EmailService.sendEmail W user recipients subject html text st = (Ret r, st')
           /\ uniform r
           /\ (truthy_str (gmail_refresh_token user) = false ->
               r = {| messageId := JString ""; success := false;
                      error := Some "User has not authorized Gmail access" |})
           /\ (truthy_str (gmail_refresh_token user) = true ->
               let mail := gmail_mail user recipients subject html text in
               let sent (t : nat) (accessToken : option string) :=
                 match sendMail W t (gmail_transporter user accessToken) mail with
                 | inr id => {| messageId := JString id; success := true; error := None |}
                 | inl (JsError m) =>
                     {| messageId := JString ""; success := false; error := Some m |}
                 | inl JsNonError =>
                     {| messageId := JString ""; success := false;
                        error := Some "Unknown error" |}
                 end in
               if token_is_fresh W user st then
                 r = sent (S (tick st)) (gmail_access_token user)
               else
                 match oauth_refreshAccessToken W (refresh_tick user st)
                         (gmail_refresh_token user) with
                 | inl (JsError m) =>
                     r = {| messageId := JString ""; success := false; error := Some m |}
                 | inl JsNonError =>
                     r = {| messageId := JString ""; success := false;
                            error := Some "Unknown error" |}
                 | inr credentials =>
                     r = sent (S (S (refresh_tick user st))) (cred_access_token credentials)
                 end)).
Proof.
  split; intros.
  - destruct (nylas_sendEmail_returns W grantId recipients subject html text st)
      as (r & st' & Hrun & Hu & Hfail).
    exists r, st'. split; [exact Hrun|]. split; [exact Hu|]. split; [exact Hfail|].
    exact (nylas_sendEmail_result W _ _ _ _ _ _ _ _ Hrun).
  - destruct (gmail_sendEmail_returns W user recipients subject html text st)
      as (r & st' & Hrun & Hu & _).
    exists r, st'. split; [exact Hrun|]. split; [exact Hu|].
    pose proof (gmail_sendEmail_result W user recipients subject html text st) as Hres.
    rewrite Hrun in Hres. cbn [fst] in Hres. injection Hres as ->.
    split; intros Htoken; rewrite Htoken; cbn [negb]; [reflexivity|].
    cbv zeta. destruct (token_is_fresh W user st).
    + destruct (sendMail W _ _ _) as [[m|]|id]; reflexivity.
    + destruct (oauth_refreshAccessToken W _ _) as [[m|]|credentials]; try reflexivity.
      destruct (sendMail W _ _ _) as [[m|]|id]; reflexivity.
Qed.

(** C9 at work: the Nylas transport rejects the request; an owner without
    a refresh token asks the Gmail adapter; an owner with one gets the id
    that nodemailer gave. *)
Lemma C9_adapters_witness :
  let W := Sample.world in
  let user := Sample.user "u1" None None in
  let owner := Sample.user "u1" (Some "1//refresh") None in
  let st := Sample.state user in
  (NylasEmailService.transport_failed W (tick st)
     (NylasEmailService.request W "grant-1" ["a@b.c"] "Trip" "<p>Hi</p>" "Hi") = true
   /\ exists r st',
       NylasEmailService.sendEmail W "grant-1" ["a@b.c"] "Trip" "<p>Hi</p>" "Hi" st
         = (Ret r, st')
       /\ r = {| messageId := JString ""; success := false; error := Some "fetch failed" |})
  /\ (truthy_str (gmail_refresh_token user) = false
      /\ exists r st',
          EmailService.sendEmail W user ["a@b.c"] "Trip" "<p>Hi</p>" "Hi" st = (Ret r, st')
          /\ r = {| messageId := JString ""; success := false;
                    error := Some "User has not authorized Gmail access" |})
  /\ (truthy_str (gmail_refresh_token owner) = true
      /\ exists r st',
          EmailService.sendEmail W owner ["a@b.c"] "Trip" "<p>Hi</p>" "Hi" st = (Ret r, st')
          /\ r = {| messageId := JString "<message-1@mail.gmail.com>"; success := true;
                    error := None |}).
Proof.
  intros W user owner st.
  destruct (C9_adapters_return_uniform_results W) as [Hnylas Hgmail].
  split; [|split].
  - split; [reflexivity|].
    destruct (Hnylas "grant-1" ["a@b.c"] "Trip" "<p>Hi</p>" "Hi" st)
      as (r & st' & Hrun & _ & _ & Hres).
    exists r, st'. split; [exact Hrun|]. exact Hres.
  - split; [reflexivity|].
    destruct (Hgmail user ["a@b.c"] "Trip" "<p>Hi</p>" "Hi" st)
      as (r & st' & Hrun & _ & Hnone & _).
    exists r, st'. split; [exact Hrun|]. exact (Hnone eq_refl).
  - split; [reflexivity|].
    destruct (Hgmail owner ["a@b.c"] "Trip" "<p>Hi</p>" "Hi" st)
      as (r & st' & Hrun & _ & _ & Hsent).
    exists r, st'. split; [exact Hrun|]. exact (Hsent eq_refl).
Defined.

(** C10: the request of the Nylas adapter does not depend on the grant id
    it is given; its URL is the constant [endpoint], which names one fixed
    grant.  Two calls that differ only in the grant id issue the same
    request and run alike. *)
Theorem C10_nylas_request_ignores_grant (W : World) :
  forall grantId1 grantId2 recipients subject html text,
    NylasEmailService.request W grantId1 recipients subject html text
      = NylasEmailService.request W grantId2 recipients subject html text
    /\ rq_url (NylasEmailService.request W grantId1 recipients subject html text)
       = "https://api.us.nylas.com/v3/grants/dcbd389c-d486-4d70-8c82-022dc738806e/messages/send"
    /\ forall st,
        NylasEmailService.sendEmail W grantId1 recipients subject html text st
        = NylasEmailService.sendEmail W grantId2 recipients subject html text st.
Proof.
  intros. repeat split.
Qed.

(** ** What a run leaves behind *)

Lemma new_events_app (st st' : State) (l : list event) :
  trace st' = trace st ++ l -> new_events st st' = l.
Proof. intros H. unfold new_events. rewrite H. apply drop_app_length. Qed.

Lemma untouched_refl st : untouched st st.
Proof. repeat split. Qed.

Lemma untouched_trans st1 st2 st3 :
  untouched st1 st2 -> untouched st2 st3 -> untouched st1 st3.
Proof. unfold untouched. intros (?&?&?&?) (?&?&?&?). repeat split; congruence. Qed.

Ltac destruct_run :=
  repeat (step_monad;
          match goal with
          | H : (_, _) = (_, _) |- _ => injection H as ? ?; subst
          | H : context [match ?x with _ => _ end] |- _ => destruct x eqn:?
          | H : context [if ?x then _ else _] |- _ => destruct x eqn:?
          end).

Lemma refreshAccessToken_frame (W : World) user st r st' :
  EmailService.refreshAccessToken W user st = (r, st') ->
  trace st' = trace st /\ untouched st st'.
Proof.
  unfold EmailService.refreshAccessToken. intros H.
  destruct_run; try discriminate; cbn; repeat split.
Qed.

Lemma createTransporter_frame (W : World) user st r st' :
  EmailService.createTransporter W user st = (r, st') ->
  trace st' = trace st /\ untouched st st'.
Proof.
  unfold EmailService.createTransporter, EmailService.getValidAccessToken.
  rewrite bind_run.
  destruct (truthy_str (gmail_access_token user)), (gmail_token_expires_at user) as [d|].
  - rewrite bind_run. unfold ask at 1. cbn beta iota.
    destruct (5 * 60 * 1000 <? d - clock W (tick st))%Z.
    + step_monad. intros [= <- <-]. cbn. repeat split.
    + destruct (EmailService.refreshAccessToken W user _) as [[a|e] st1] eqn:Hr;
        apply refreshAccessToken_frame in Hr as [Ht Hu];
        step_monad; intros [= <- <-]; cbn in *; auto.
  - destruct (EmailService.refreshAccessToken W user _) as [[a|e] st1] eqn:Hr;
      apply refreshAccessToken_frame in Hr as [Ht Hu];
      step_monad; intros [= <- <-]; cbn in *; auto.
  - destruct (EmailService.refreshAccessToken W user _) as [[a|e] st1] eqn:Hr;
      apply refreshAccessToken_frame in Hr as [Ht Hu];
      step_monad; intros [= <- <-]; cbn in *; auto.
  - destruct (EmailService.refreshAccessToken W user _) as [[a|e] st1] eqn:Hr;
      apply refreshAccessToken_frame in Hr as [Ht Hu];
      step_monad; intros [= <- <-]; cbn in *; auto.
Qed.

Lemma gmail_attempt_frame (W : World) user recipients subject html text st r st' :
  EmailService.attempt W user recipients subject html text st = (r, st') ->
  untouched st st'
  /\ (trace st' = trace st
      \/ exists t m, trace st' = trace st ++ [EvSendMail t m] /\ mail_of m subject html).
Proof.
  unfold EmailService.attempt.
  destruct (negb (truthy_str (gmail_refresh_token user))).
  - step_monad. intros [= <- <-]. split; [apply untouched_refl | now left].
  - rewrite bind_run.
    destruct (EmailService.createTransporter W user st) as [[tr|e] st1] eqn:Hc;
      apply createTransporter_frame in Hc as [Ht Hu].
    + step_monad. destruct (sendMail W _ _ _) as [e|mid]; intros [= <- <-]; cbn;
        (split; [exact Hu | right; eexists _, _; rewrite Ht; split;
                             [reflexivity | split; reflexivity]]).
    + intros [= <- <-]. split; [exact Hu | now left].
Qed.

(** The events of a Gmail send: the call itself, then at most one mail. *)
Lemma gmail_sendEmail_frame (W : World) user recipients subject html text st :
  exists r st' rest,
    EmailService.sendEmail W user recipients subject html text st = (Ret r, st')
    /\ uniform r
    /\ untouched st st'
    /\ trace st' = trace st ++ EvAdapterSend Gmail recipients subject html text :: rest
    /\ (rest = [] \/ exists t m, rest = [EvSendMail t m] /\ mail_of m subject html).
Proof.
  unfold EmailService.sendEmail.
  rewrite bind_run. unfold log at 1, modify at 1. cbn beta iota.
  rewrite try_catch_run.
  destruct (EmailService.attempt W user recipients subject html text _)
    as [[r|e] st1] eqn:Hrun.
  - pose proof (gmail_attempt_success _ _ _ _ _ _ _ _ _ Hrun) as (Hs & He & _).
    apply gmail_attempt_frame in Hrun as [Hu Ht]. cbn in Hu, Ht.
    destruct Ht as [Ht|(t & m & Ht & Hm)].
    + exists r, st1, []. repeat split; try apply Hu; [left; auto | exact Ht | now left].
    + exists r, st1, [EvSendMail t m].
      repeat split; try apply Hu; [left; auto | | right; eauto].
      rewrite Ht. now rewrite <- app_assoc.
  - apply gmail_attempt_frame in Hrun as [Hu Ht]. cbn in Hu, Ht.
    destruct Ht as [Ht|(t & m & Ht & Hm)].
    + eexists _, st1, []. split; [reflexivity|].
      repeat split; try apply Hu; [right; cbn; repeat split; eexists; reflexivity
                                  | exact Ht | now left].
    + eexists _, st1, [EvSendMail t m]. split; [reflexivity|].
      repeat split; try apply Hu;
        [right; cbn; repeat split; eexists; reflexivity | | right; eauto].
      rewrite Ht. now rewrite <- app_assoc.
Qed.

(** The events of a Nylas send: the call itself, then the HTTP request. *)
Lemma nylas_sendEmail_frame (W : World) grantId recipients subject html text st :
  exists r st',
    NylasEmailService.sendEmail W grantId recipients subject html text st = (Ret r, st')
    /\ uniform r
    /\ untouched st st'
    /\ users st' = users st
    /\ trace st' = trace st ++
         [EvAdapterSend Nylas recipients subject html text;
          EvHttp (NylasEmailService.request W grantId recipients subject html text)].
Proof.
  destruct (nylas_sendEmail_returns W grantId recipients subject html text st)
    as (r & st' & Hrun & Hu & _).
  exists r, st'. split; [exact Hrun|]. split; [exact Hu|].
  revert Hrun. unfold NylasEmailService.sendEmail, NylasEmailService.attempt.
  intros H. destruct_run; try discriminate; cbn;
    rewrite <- ?app_assoc; repeat split.
Qed.

Lemma renderTemplate_frame (W : World) template note st r st' :
  TemplateEngine.renderTemplate W template note st = (r, st') ->
  st' = set_tick (5 + tick st) st.
Proof.
  unfold TemplateEngine.renderTemplate, TemplateEngine.extractNoteVariables,
    TemplateEngine.note_bindings.
  intros H. destruct_run; reflexivity.
Qed.

Lemma updateSentEmailStatus_run (W : World) id status pmid err st :
  EmailService.updateSentEmailStatus W id status pmid err st =
  let sentAt := if decide (status = Sent) then Some (clock W (tick st)) else None in
  (Ret tt,
   set_sent_emails
     (map (fun r => if String.eqb (se_id r) id
                    then EmailService.finalized status pmid err sentAt r else r)
        (sent_emails st))
     (set_trace (trace st ++ [EvFinalize id status])
        (if decide (status = Sent) then set_tick (S (tick st)) st else st))).
Proof.
  unfold EmailService.updateSentEmailStatus.
  destruct (decide (status = Sent)); reflexivity.
Qed.

Lemma INSERT_sent_email_run (W : World) user note template version key recipients r st :
  Emails.INSERT_sent_email W user note template version key recipients r st =
  let id := gen_random_uuid W (tick st) in
  let row := {| se_id := id; se_user_id := user; se_note_id := note;
                se_template_id := template; se_template_version := version;
                se_idempotency_key := key; se_recipients := recipients;
                se_subject := TemplateEngine.subject r;
                se_body_html := TemplateEngine.body_html r;
                se_body_text := TemplateEngine.body_text r;
                se_status := Pending; se_error_message := None;
                se_provider_message_id := None; se_sent_at := None |} in
  if negb (fits 255 key) then (Throw (value_too_long 255), st)
  else if negb (fits 500 (TemplateEngine.subject r)) then (Throw (value_too_long 500), st)
  else if existsb (fun e => String.eqb (se_id e) id
                            || String.eqb (se_idempotency_key e) key) (sent_emails st)
  then (Throw (JsError "duplicate key value violates unique constraint"),
        set_tick (S (tick st)) st)
  else (Ret row,
        set_sent_emails (sent_emails st ++ [row])
          (set_trace (trace st ++ [EvInsertSentEmail id]) (set_tick (S (tick st)) st))).
Proof.
  unfold Emails.INSERT_sent_email. rewrite bind_run, varchar_run.
  destruct (fits 255 key); [|reflexivity]. cbn [negb].
  rewrite bind_run, varchar_run.
  destruct (fits 500 (TemplateEngine.subject r)); [|reflexivity]. cbn [negb].
  step_monad. cbn.
  destruct (existsb _ (sent_emails st)); reflexivity.
Qed.

Lemma finalize_run (W : World) id (r : EmailSendResult) st :
  uniform r ->
  exists resp st' status pmid err sentAt,
    Emails.finalize W id r st = (Ret resp, st')
    /\ sent_emails st' = finalize_rows id status pmid err sentAt (sent_emails st)
    /\ email_templates st' = email_templates st
    /\ email_template_versions st' = email_template_versions st
    /\ notes st' = notes st
    /\ trace st' = trace st ++ [EvFinalize id status]
    /\ ((status = Sent /\ err = None
         /\ exists mid, pmid = Some mid
            /\ resp = {| http_status := 200; body := BSent id mid |})
        \/ (status = Failed /\ pmid = None
            /\ resp = {| http_status := 500;
                         body := BError "Failed to send email" err |})).
Proof.
  intros Hu. unfold Emails.finalize.
  destruct (success r) eqn:Hs.
  - rewrite bind_run, updateSentEmailStatus_run. cbn zeta.
    destruct Hu as [[_ He]|[? _]]; [|congruence].
    eexists _, _, Sent, _, None, _. split; [reflexivity|]. cbn.
    repeat split. left. repeat split. eauto.
  - rewrite bind_run, updateSentEmailStatus_run. cbn zeta.
    eexists _, _, Failed, None, _, _. split; [reflexivity|]. cbn.
    repeat split. right. repeat split.
Qed.

Lemma deliver_run (W : World) user id recipients subject html text st resp st' :
  (let (r0, s) :=
     try_catch
       (userData ← Emails.select_credentials (user_id user);
        sendResult ←
          match Emails.select_provider userData with
          | Some Nylas =>
              NylasEmailService.sendEmail W (default "" (nylas_access_token userData))
                recipients subject html text
          | Some Gmail => EmailService.sendEmail W user recipients subject html text
          | None => throw (JsError Emails.no_provider_message)
          end;
        Emails.finalize W id sendResult)
       (Emails.on_send_error W id) st in
   match r0 with
   | Ret r => (r, s)
   | Throw _ => (send_failure, s)
   end) = (resp, st') ->
  exists status pmid err sentAt adapter,
    sent_emails st' = finalize_rows id status pmid err sentAt (sent_emails st)
    /\ email_templates st' = email_templates st
    /\ email_template_versions st' = email_template_versions st
    /\ notes st' = notes st
    /\ trace st' = trace st ++
         EvSelectCredentials (user_id user) :: adapter ++ [EvFinalize id status]
    /\ provider_outcome user (users st) id recipients subject html text
         adapter status pmid err resp.
Proof.
  unfold provider_outcome.
  rewrite try_catch_run, bind_run.
  unfold Emails.select_credentials at 1.
  rewrite bind_run. unfold log at 1, modify at 1. cbn beta iota.
  rewrite bind_run. unfold get at 1. cbn beta iota. cbn [users set_trace].
  destruct (List.filter _ (users st)) as [|userData ?].
  { unfold throw at 1. cbn beta iota. unfold Emails.on_send_error.
    rewrite bind_run, updateSentEmailStatus_run. cbn zeta.
    destruct (decide (Failed = Sent)) as [?|_]; [discriminate|].
    unfold throw. intros [= <- <-]. cbn. rewrite <- app_assoc.
    exists Failed, None, (Some (Emails.error_text
      (JsError "Cannot read properties of undefined (reading 'has_nylas_auth')"))), None, [].
    repeat split. eexists; reflexivity. }
  unfold mret, M_ret, ret. cbn beta iota.
  rewrite bind_run.
  destruct (Emails.select_provider userData) as [[|]|].
  - match goal with |- context [NylasEmailService.sendEmail W ?g ?a ?b ?c ?d ?s] =>
      destruct (nylas_sendEmail_frame W g a b c d s)
        as (r & st1 & -> & Hu & (Hse & Ht & Hv & Hn) & _ & Htr) end.
    destruct (finalize_run W id r st1 Hu)
      as (resp1 & st2 & status & pmid & err & sentAt & -> & Hse2 & Ht2 & Hv2 & Hn2 & Htr2 & Hres).
    intros [= <- <-].
    cbn [sent_emails email_templates email_template_versions notes trace set_trace]
      in Hse, Ht, Hv, Hn, Htr.
    exists status, pmid, err, sentAt.
    exists [EvAdapterSend Nylas recipients subject html text;
            EvHttp (NylasEmailService.request W (default "" (nylas_access_token userData))
                      recipients subject html text)].
    split; [rewrite Hse2, Hse; reflexivity|]. split; [rewrite Ht2; exact Ht|].
    split; [rewrite Hv2; exact Hv|]. split; [rewrite Hn2; exact Hn|]. split.
    + rewrite Htr2, Htr, <- !app_assoc. reflexivity.
    + eexists. split; [reflexivity|]. split; [reflexivity|]. exact Hres.
  - match goal with |- context [EmailService.sendEmail W ?u ?a ?b ?c ?d ?s] =>
      destruct (gmail_sendEmail_frame W u a b c d s)
        as (r & st1 & rest & -> & Hu & (Hse & Ht & Hv & Hn) & Htr & Hrest) end.
    destruct (finalize_run W id r st1 Hu)
      as (resp1 & st2 & status & pmid & err & sentAt & -> & Hse2 & Ht2 & Hv2 & Hn2 & Htr2 & Hres).
    intros [= <- <-].
    cbn [sent_emails email_templates email_template_versions notes trace set_trace]
      in Hse, Ht, Hv, Hn, Htr.
    exists status, pmid, err, sentAt.
    exists (EvAdapterSend Gmail recipients subject html text :: rest).
    split; [rewrite Hse2, Hse; reflexivity|]. split; [rewrite Ht2; exact Ht|].
    split; [rewrite Hv2; exact Hv|]. split; [rewrite Hn2; exact Hn|]. split.
    + rewrite Htr2, Htr, <- !app_assoc. reflexivity.
    + exists rest. split; [reflexivity|]. split; [|exact Hres].
      destruct Hrest as [->|(t & m & -> & _)]; reflexivity.
  - unfold throw at 1. cbn beta iota. unfold Emails.on_send_error.
    rewrite bind_run, updateSentEmailStatus_run. cbn zeta.
    destruct (decide (Failed = Sent)) as [?|_]; [discriminate|].
    unfold throw. intros [= <- <-]. cbn. rewrite <- app_assoc.
    exists Failed, None, (Some Emails.no_provider_message), None, [].
    repeat split.
Qed.

Lemma finalize_rows_other id status pmid err sentAt rows :
  Forall (fun r => se_id r <> id) rows ->
  finalize_rows id status pmid err sentAt rows = rows.
Proof.
  unfold finalize_rows.
  induction 1 as [|r rows Hr _ IH]; [reflexivity|].
  cbn [map]. rewrite IH. destruct (String.eqb_spec (se_id r) id); congruence.
Qed.

Lemma fresh_row_id (id key : string) (rows : list SentEmail) :
  existsb (fun e => String.eqb (se_id e) id || String.eqb (se_idempotency_key e) key) rows
    = false ->
  Forall (fun r => se_id r <> id) rows.
Proof.
  induction rows as [|r rows IH]; cbn; [constructor|].
  intros H. apply orb_false_elim in H as [H1 H2].
  apply orb_false_elim in H1 as [H1 _].
  constructor; [|auto]. now apply String.eqb_neq.
Qed.

Lemma set_tick_same st : set_tick (tick st) st = st.
Proof. now destruct st. Qed.

Lemma finalIdempotencyKey_run (W : World) (key : option string) (st : State) :
  exists k n,
    Emails.finalIdempotencyKey W key st = (Ret k, set_tick n st)
    /\ forall k0, key = Some k0 -> k0 <> "" -> k = k0 /\ set_tick n st = st.
Proof.
  destruct key as [[|c k]|].
  - eexists _, _. split; [reflexivity|]. intros k0 [= <-] H. congruence.
  - exists (String c k), (tick st). rewrite set_tick_same. split; [reflexivity|].
    intros k0 [= <-] _. auto.
  - eexists _, _. split; [reflexivity|]. discriminate.
Qed.

Lemma send_run (W : World) user rq st resp st' :
  Emails.send W user rq st = (resp, st') ->
  (exists n, st' = set_tick n st)
  \/ (exists t n,
         trace st' = trace st ++ [EvRender t n]
         /\ untouched st st' /\ users st' = users st /\ resp = send_failure)
  \/ (exists key row status pmid err sentAt t n adapter,
         (forall k, Emails.rq_idempotency_key rq = Some k -> k <> "" -> key = k)
         /\ Emails.by_key key st = []
         /\ se_idempotency_key row = key
         /\ Forall (fun r => se_id r <> se_id row) (sent_emails st)
         /\ sent_emails st' =
              sent_emails st ++ [EmailService.finalized status pmid err sentAt row]
         /\ email_templates st' = email_templates st
         /\ email_template_versions st' = email_template_versions st
         /\ notes st' = notes st
         /\ trace st' = trace st ++
              [EvRender t n; EvInsertSentEmail (se_id row);
               EvSelectCredentials (user_id user)]
              ++ adapter ++ [EvFinalize (se_id row) status]
         /\ provider_outcome user (users st) (se_id row) (se_recipients row)
              (se_subject row) (se_body_html row) (se_body_text row)
              adapter status pmid err resp).
Proof.
  unfold Emails.send, handler.
  destruct (Emails.missing_fields rq).
  { step_monad. intros [= <- <-]. left. exists (tick st). now rewrite set_tick_same. }
  rewrite bind_run.
  destruct (finalIdempotencyKey_run W (Emails.rq_idempotency_key rq) st)
    as (key & n0 & -> & Hk).
  assert (Hk' : forall k, Emails.rq_idempotency_key rq = Some k -> k <> "" -> key = k)
    by (intros k H1 H2; now destruct (Hk k H1 H2)).
  clear Hk.
  rewrite bind_run. unfold get at 1. cbn beta iota.
  replace (Emails.by_key key (set_tick n0 st)) with (Emails.by_key key st) by reflexivity.
  destruct (Emails.by_key key st) as [|existing ?] eqn:Hby.
  2:{ step_monad. intros [= <- <-]. left. eauto. }
  cbn [email_templates notes set_tick].
  destruct (List.filter (Templates.owned_active _ _) _) as [|template ?].
  { step_monad. intros [= <- <-]. left. eauto. }
  destruct (List.filter _ (notes st)) as [|note ?].
  { step_monad. intros [= <- <-]. left. eauto. }
  rewrite bind_run. unfold log at 1, modify at 1. cbn beta iota.
  rewrite bind_run.
  destruct (TemplateEngine.renderTemplate W template note _) as [[rendered|e] st2] eqn:Hr;
    apply renderTemplate_frame in Hr; subst st2.
  2:{ intros [= <- <-]. right; left. eexists _, _. cbn. repeat split. }
  rewrite bind_run, INSERT_sent_email_run. cbn zeta.
  cbn [sent_emails set_tick set_trace tick].
  destruct (fits 255 key); cbn [negb].
  2:{ intros [= <- <-]. right; left. eexists _, _. cbn. repeat split. }
  destruct (fits 500 (TemplateEngine.subject rendered)); cbn [negb].
  2:{ intros [= <- <-]. right; left. eexists _, _. cbn. repeat split. }
  destruct (existsb _ (sent_emails st)) eqn:Hfresh.
  { intros [= <- <-]. right; left. eexists _, _. cbn. repeat split. }
  match goal with |- context [set_sent_emails (_ ++ [?r]) ?s] =>
    set (row := r); set (st3 := set_sent_emails (sent_emails st ++ [row]) s) end.
  intros Hrun. apply (deliver_run W user (se_id row) (se_recipients row)
                        (se_subject row) (se_body_html row) (se_body_text row)) in Hrun.
  destruct Hrun as (status & pmid & err & sentAt & adapter & Hse & Ht & Hv & Hn & Htr & Hout).
  right; right. exists key, row, status, pmid, err, sentAt.
  exists (tpl_id template), (note_id note), adapter.
  pose proof (fresh_row_id _ _ _ Hfresh) as Hids.
  split; [exact Hk'|]. split; [exact Hby|]. split; [reflexivity|].
  split; [exact Hids|]. split.
  { rewrite Hse. unfold st3. cbn [sent_emails set_sent_emails].
    unfold finalize_rows. rewrite map_app. fold (finalize_rows (se_id row) status pmid err sentAt (sent_emails st)).
    rewrite (finalize_rows_other _ _ _ _ _ _ Hids). cbn [map].
    now rewrite String.eqb_refl. }
  split; [exact Ht|]. split; [exact Hv|]. split; [exact Hn|]. split.
  { rewrite Htr. unfold st3. cbn [trace set_sent_emails set_trace set_tick].
    rewrite <- !app_assoc. reflexivity. }
  exact Hout.
Qed.

(** ** Idempotent replay *)

Lemma adapter_sends_app (l1 l2 : list event) :
  adapter_sends (l1 ++ l2) = adapter_sends l1 + adapter_sends l2.
Proof. unfold adapter_sends. now rewrite List.filter_app, length_app. Qed.

Lemma by_key_same_rows (key : string) (st st' : State) :
  sent_emails st' = sent_emails st -> Emails.by_key key st' = Emails.by_key key st.
Proof. unfold Emails.by_key. now intros ->. Qed.

(** A call bearing a key the table knows changes nothing. *)
Lemma send_replay (W : World) user rq key existing rest st :
  Emails.missing_fields rq = false ->
  Emails.rq_idempotency_key rq = Some key -> key <> "" ->
  Emails.by_key key st = existing :: rest ->
  Emails.send W user rq st =
    ({| http_status := 200;
        body := BIdempotent (se_id existing) (se_status existing) (se_sent_at existing) |},
     st).
Proof.
  intros Hv Hk Hne Hby. unfold Emails.send, handler. rewrite Hv, Hk.
  destruct key as [|c key]; [congruence|].
  unfold Emails.finalIdempotencyKey. step_monad. now rewrite Hby.
Qed.

(** What one call does to the trace and to the rows bearing [key]. *)
Lemma send_effect (W : World) user rq key st resp st' :
  Emails.rq_idempotency_key rq = Some key -> key <> "" ->
  Emails.send W user rq st = (resp, st') ->
  exists new,
    trace st' = trace st ++ new
    /\ adapter_sends new <= 1
    /\ (Emails.by_key key st <> [] -> adapter_sends new = 0)
    /\ (Emails.by_key key st <> [] \/ adapter_sends new = 1 -> Emails.by_key key st' <> []).
Proof.
  intros Hk Hne Hrun.
  apply send_run in Hrun as [(n & ->)|[(t & n & Htr & (Hse & _) & _ & _)|Hrun]].
  - exists []. cbn. rewrite app_nil_r. repeat split; [lia|].
    intros [H|H]; [exact H | discriminate].
  - exists [EvRender t n]. split; [exact Htr|]. cbn.
    split; [lia|]. split; [reflexivity|].
    rewrite (by_key_same_rows key _ _ Hse). intros [H|H]; [exact H | discriminate].
  - destruct Hrun as (key' & row & status & pmid & err & sentAt & t & n & adapter
                      & Hk' & Hby & Hrow & _ & Hse & _ & _ & _ & Htr & Hout).
    specialize (Hk' key Hk Hne). subst key'.
    exists ([EvRender t n; EvInsertSentEmail (se_id row);
             EvSelectCredentials (user_id user)] ++ adapter ++ [EvFinalize (se_id row) status]).
    split; [exact Htr|].
    assert (Hcount : adapter_sends
              ([EvRender t n; EvInsertSentEmail (se_id row);
                EvSelectCredentials (user_id user)] ++ adapter ++
               [EvFinalize (se_id row) status]) = adapter_sends adapter).
    { rewrite !adapter_sends_app. cbn. lia. }
    rewrite Hcount.
    assert (Hle : adapter_sends adapter <= 1).
    { unfold provider_outcome in Hout.
      destruct (List.filter _ (users st)) as [|userData ?].
      - destruct Hout as (-> & _). cbn. lia.
      - destruct (Emails.select_provider userData).
        + destruct Hout as (rest & -> & Hrest & _).
          change (adapter_sends (_ :: rest)) with (S (adapter_sends rest)). lia.
        + destruct Hout as (-> & _). cbn. lia. }
    split; [exact Hle|]. split; [intros H; congruence|].
    intros _. unfold Emails.by_key. rewrite Hse, List.filter_app. cbn [List.filter].
    cbn [se_idempotency_key EmailService.finalized]. rewrite Hrow, String.eqb_refl.
    intros H. apply app_eq_nil in H as [_ H]. discriminate.
Qed.

(** C1 (as the code has it): a call that passes the check of its fields and
    whose key names a stored record answers with the [id], [status] and
    [sent_at] of that record and leaves the whole state as it was: nothing
    is rendered, no adapter is called, no row is written.  Two calls with
    the same key, whatever else they carry, make the adapters send at most
    once, and exactly once when the first of them reached an adapter. *)
Theorem C1_same_key_sends_at_most_once (W : World) user rq key st :
  Emails.rq_idempotency_key rq = Some key ->
  key <> "" ->
  (forall existing rest,
      Emails.missing_fields rq = false ->
      Emails.by_key key st = existing :: rest ->
      Emails.send W user rq st =
        ({| http_status := 200;
            body := BIdempotent (se_id existing) (se_status existing)
                      (se_sent_at existing) |}, st))
  /\ (forall user2 rq2,
         Emails.rq_idempotency_key rq2 = Some key ->
         let st1 := snd (Emails.send W user rq st) in
         let st2 := snd (Emails.send W user2 rq2 st1) in
         adapter_sends (new_events st st2) <= 1
         /\ (adapter_sends (new_events st st1) = 1 ->
             adapter_sends (new_events st st2) = 1)).
Proof.
  intros Hk Hne. split.
  - intros existing rest Hv Hby. now apply (send_replay W user rq key existing rest).
  - intros user2 rq2 Hk2. cbv zeta.
    destruct (Emails.send W user rq st) as [resp1 st1] eqn:H1. cbn [snd].
    destruct (Emails.send W user2 rq2 st1) as [resp2 st2] eqn:H2. cbn [snd].
    destruct (send_effect W user rq key st resp1 st1 Hk Hne H1)
      as (new1 & Ht1 & Hle1 & _ & Hkeep1).
    destruct (send_effect W user2 rq2 key st1 resp2 st2 Hk2 Hne H2)
      as (new2 & Ht2 & Hle2 & Hzero2 & _).
    assert (Ht : trace st2 = trace st ++ new1 ++ new2)
      by now rewrite Ht2, Ht1, <- app_assoc.
    rewrite (new_events_app _ _ _ Ht), (new_events_app _ _ _ Ht1), adapter_sends_app.
    destruct (Nat.eq_dec (adapter_sends new1) 1) as [E|E].
    + rewrite Hzero2 by (apply Hkeep1; now right). lia.
    + split; [lia | congruence].
Qed.

(** C1, where the claim fails.  First: a record is stored under the key
    ["k1"], and a second call with that key but without recipients is
    answered 400, not with the record.  Second: the owner has authorized no
    provider, the first call stores its record as failed, the second replays
    it, and the two calls together make no provider send, not one. *)
Lemma C1_counterexample :
  let u := Sample.user "u1" None None in
  let st1 := snd (Emails.send Sample.world u (Sample.request "k1" ["a@b.c"]) (Sample.state u)) in
  let second := Emails.send Sample.world u (Sample.request "k1" ["a@b.c"]) st1 in
  (map se_idempotency_key (sent_emails st1) = ["k1"]
   /\ fst (Emails.send Sample.world u (Sample.request "k1" []) st1)
      = {| http_status := 400;
           body := BError "Note ID, template ID, and recipients are required" None |})
  /\ (fst second = {| http_status := 200; body := BIdempotent "row-5" Failed None |}
      /\ adapter_sends (trace (snd second)) = 0).
Proof. vm_compute. repeat split. Qed.

(** C1 at work: a stored failed record is replayed unchanged, and two calls
    of an owner with Gmail make one send. *)
Lemma C1_same_key_witness :
  let W := Sample.world in
  let u := Sample.user "u1" (Some "1//refresh") None in
  let rq := Sample.request "k1" ["a@b.c"] in
  let stored := Sample.record Failed (Some "Connection timeout") in
  (Emails.rq_idempotency_key rq = Some "k1" /\ "k1" <> "")
  /\ (Emails.missing_fields rq = false
      /\ Emails.by_key "k1" (Sample.state_with u stored) = [stored]
      /\ Emails.send W u rq (Sample.state_with u stored) =
           ({| http_status := 200; body := BIdempotent "row-5" Failed None |},
            Sample.state_with u stored))
  /\ (adapter_sends
        (new_events (Sample.state u) (snd (Emails.send W u rq (Sample.state u)))) = 1
      /\ adapter_sends
           (new_events (Sample.state u)
              (snd (Emails.send W u rq (snd (Emails.send W u rq (Sample.state u)))))) = 1).
Proof.
  intros W u rq stored.
  assert (Hne : "k1" <> "") by discriminate.
  assert (Hby : Emails.by_key "k1" (Sample.state_with u stored) = [stored])
    by (vm_compute; reflexivity).
  assert (Hfirst : adapter_sends
            (new_events (Sample.state u) (snd (Emails.send W u rq (Sample.state u)))) = 1)
    by (vm_compute; reflexivity).
  split; [split; [reflexivity | exact Hne]|]. split.
  - split; [reflexivity|]. split; [exact Hby|].
    exact (proj1 (C1_same_key_sends_at_most_once W u rq "k1" (Sample.state_with u stored)
                    eq_refl Hne) stored [] eq_refl Hby).
  - split; [exact Hfirst|].
    exact (proj2 (proj2 (C1_same_key_sends_at_most_once W u rq "k1" (Sample.state u)
                           eq_refl Hne) u rq eq_refl) Hfirst).
Defined.

(** ** Sending without an authorized provider *)





(** ** Retrying *)

(** Every run of the retry route: without a failed record of that id and
    owner nothing happens; otherwise the stored subject and bodies go to the
    Gmail adapter, whoever the owner has authorized, and the record is
    finalized in place. *)
Lemma retry_run (W : World) user id st resp st' :
  Emails.retry W user id st = (resp, st') ->
  match List.filter (fun r => String.eqb (se_id r) id
                              && String.eqb (se_user_id r) (user_id user)
                              && bool_decide (se_status r = Failed)) (sent_emails st) with
  | [] =>
      resp = {| http_status := 404; body := BError "Failed email not found" None |}
      /\ st' = st
  | r :: _ =>
      exists status pmid err sentAt rest,
        sent_emails st' = finalize_rows (se_id r) status pmid err sentAt (sent_emails st)
        /\ email_templates st' = email_templates st
        /\ email_template_versions st' = email_template_versions st
        /\ trace st' = trace st ++
             EvAdapterSend Gmail (se_recipients r) (se_subject r) (se_body_html r)
               (se_body_text r) :: rest ++ [EvFinalize (se_id r) status]
        /\ (rest = [] \/ exists t m, rest = [EvSendMail t m]
                                     /\ mail_of m (se_subject r) (se_body_html r))
        /\ ((status = Sent /\ http_status resp = 200%Z)
            \/ (status = Failed /\ http_status resp = 500%Z))
  end.
Proof.
  unfold Emails.retry, handler. rewrite bind_run. unfold get at 1. cbn beta iota.
  destruct (List.filter _ (sent_emails st)) as [|r ?].
  { step_monad. intros [= <- <-]. split; reflexivity. }
  rewrite try_catch_run, bind_run.
  destruct (gmail_sendEmail_frame W user (se_recipients r) (se_subject r)
              (se_body_html r) (se_body_text r) st)
    as (res & st1 & rest & -> & Hu & (Hse & Ht & Hv & _) & Htr & Hrest).
  destruct (finalize_run W (se_id r) res st1 Hu)
    as (resp1 & st2 & status & pmid & err & sentAt & -> & Hse2 & Ht2 & Hv2 & _ & Htr2 & Hres).
  intros [= <- <-].
  exists status, pmid, err, sentAt, rest.
  split; [rewrite Hse2, Hse; reflexivity|].
  split; [rewrite Ht2; exact Ht|]. split; [rewrite Hv2; exact Hv|]. split.
  { rewrite Htr2, Htr, <- !app_assoc. reflexivity. }
  split; [exact Hrest|].
  destruct Hres as [(-> & _ & mid & _ & ->)|(-> & _ & ->)]; [left | right]; split; reflexivity.
Qed.

(** C4 (the code differs from the claim): the retry route never selects a
    provider; it always calls the Gmail adapter.  For an owner who has
    authorized Nylas only, POST /send picks Nylas, while the retry of the
    failed record goes to the Gmail adapter, which refuses for want of a
    refresh token: the record stays failed.  The stored subject and bodies
    are what is resent, and the record is finalized in place. *)
Theorem C4_retry_always_uses_gmail :
  let u := Sample.user "u1" None (Some "grant-1") in
  let stored := Sample.record Failed (Some "fetch failed") in
  let run := Emails.retry Sample.world u "row-5" (Sample.state_with u stored) in
  Emails.select_provider u = Some Nylas
  /\ fst run = {| http_status := 500;
                  body := BError "Failed to send email"
                            (Some "User has not authorized Gmail access") |}
  /\ trace (snd run) =
       [EvAdapterSend Gmail ["a@b.c"] "Trip" "<p>Pack the bags</p>" "Pack the bags";
        EvFinalize "row-5" Failed]
  /\ sent_emails (snd run) =
       [Sample.record Failed (Some "User has not authorized Gmail access")].
Proof. vm_compute. repeat split. Qed.

(** ** Placeholders for unknown variables *)

Lemma placeholder_truthy (name : string) :
  TemplateEngine.truthy (JString (TemplateEngine.placeholder name)) = true.
Proof. reflexivity. Qed.

Lemma has_truthy_bound (variables : gmap string jsval) name v :
  variables !! name = Some v -> TemplateEngine.truthy v = true ->
  TemplateEngine.has_truthy variables name = true.
Proof. unfold TemplateEngine.has_truthy. now intros -> ->. Qed.

(** A truthy binding survives the loop. *)
Lemma add_placeholder_keeps (variables : gmap string jsval) m name v :
  variables !! name = Some v -> TemplateEngine.truthy v = true ->
  TemplateEngine.add_placeholder variables m !! name = Some v.
Proof.
  intros Hv Ht. unfold TemplateEngine.add_placeholder. cbv zeta.
  destruct (TemplateEngine.has_truthy variables (TemplateEngine.name_of_match m)) eqn:E;
    [exact Hv|].
  destruct (decide (TemplateEngine.name_of_match m = name)) as [Heq|Hne].
  - rewrite Heq, (has_truthy_bound _ _ _ Hv Ht) in E. discriminate.
  - now rewrite lookup_insert_ne.
Qed.

Lemma add_placeholders_keep (l : list string) (variables : gmap string jsval) name v :
  variables !! name = Some v -> TemplateEngine.truthy v = true ->
  fold_left TemplateEngine.add_placeholder l variables !! name = Some v.
Proof.
  revert variables. induction l as [|m l IH]; intros variables Hv Ht; [exact Hv|].
  cbn [fold_left]. apply IH; [|exact Ht]. now apply add_placeholder_keeps.
Qed.

Lemma has_truthy_insert_ne (variables : gmap string jsval) k v name :
  k <> name ->
  TemplateEngine.has_truthy (<[k := v]> variables) name
  = TemplateEngine.has_truthy variables name.
Proof. intros H. unfold TemplateEngine.has_truthy. now rewrite lookup_insert_ne. Qed.

(** A token of the note whose name has no truthy binding gets its placeholder. *)
Lemma add_placeholders_bind (l : list string) (variables : gmap string jsval) name :
  In name (map TemplateEngine.name_of_match l) ->
  TemplateEngine.has_truthy variables name = false ->
  fold_left TemplateEngine.add_placeholder l variables !! name
  = Some (JString (TemplateEngine.placeholder name)).
Proof.
  revert variables. induction l as [|m l IH]; intros variables Hin Hf; [destruct Hin|].
  cbn [fold_left]. unfold TemplateEngine.add_placeholder at 2. cbv zeta.
  destruct (decide (TemplateEngine.name_of_match m = name)) as [E|E].
  - rewrite E, Hf. apply add_placeholders_keep.
    + apply lookup_insert_eq.
    + apply placeholder_truthy.
  - destruct Hin as [Hin|Hin]; [contradiction|].
    destruct (TemplateEngine.has_truthy variables (TemplateEngine.name_of_match m));
      [now apply IH|].
    apply IH; [exact Hin|]. now rewrite has_truthy_insert_ne.
Qed.

(** A name that is no token of the note keeps the binding it had, or none. *)
Lemma add_placeholders_other (l : list string) (variables : gmap string jsval) name :
  ~ In name (map TemplateEngine.name_of_match l) ->
  fold_left TemplateEngine.add_placeholder l variables !! name = variables !! name.
Proof.
  revert variables. induction l as [|m l IH]; intros variables Hin; [reflexivity|].
  cbn [fold_left]. rewrite IH by (intros H; apply Hin; now right).
  unfold TemplateEngine.add_placeholder. cbv zeta.
  destruct (TemplateEngine.has_truthy variables (TemplateEngine.name_of_match m));
    [reflexivity|].
  apply lookup_insert_ne. intros E. apply Hin. now left.
Qed.

Lemma span_all_then (p : ascii -> bool) (s : string) (c : ascii) (rest : string) :
  Js.all p s = true -> p c = false ->
  Js.span p (s +:+ String c rest) = (s, String c rest).
Proof.
  intros Hs Hc. induction s as [|a s IH].
  - change ("" +:+ String c rest) with (String c rest).
    cbn [Js.span]. now rewrite Hc.
  - cbn [Js.all] in Hs. apply andb_prop in Hs as [Ha Hs].
    change (String a s +:+ String c rest) with (String a (s +:+ String c rest)).
    cbn [Js.span]. now rewrite Ha, (IH Hs).
Qed.

(** Handlebars on [{{name}}] when the context has no [name]: the empty string. *)
Lemma render_unbound (name : string) (context : gmap string jsval) :
  HandlebarsLite.plain_name name = true ->
  context !! name = None ->
  HandlebarsLite.render ("{{" +:+ name +:+ "}}") context = Some "".
Proof.
  unfold HandlebarsLite.plain_name. intros Hn Hc.
  apply andb_prop in Hn as [Hall Hplain].
  destruct name as [|c0 name]; [discriminate|].
  assert (Hc0 : (Js.is_letter c0 || Ascii.eqb c0 "_") = true).
  { cbn in Hplain. now apply andb_prop in Hplain as [H _]. }
  assert (Hfirst : Ascii.eqb c0 "{" = false /\ Js.is_space c0 = false).
  { clear -Hc0. destruct c0 as [[] [] [] [] [] [] [] []];
      try discriminate Hc0; split; reflexivity. }
  destruct Hfirst as [Hbrace Hspace].
  unfold HandlebarsLite.render.
  change ("{{" +:+ String c0 name +:+ "}}")
    with (String "{" (String "{" (String c0 name +:+ "}}"))).
  cbn [String.length HandlebarsLite.render_from].
  cbn [Ascii.eqb Bool.eqb Js.strip_prefix].
  change (Js.strip_prefix "{{" (String "{" (String "{" (String c0 name +:+ "}}"))))
    with (Some (String c0 name +:+ "}}")).
  cbn beta iota.
  assert (Hraw : Js.startsWith (String c0 name +:+ "}}") "{" = false).
  { unfold Js.startsWith.
    change (String c0 name +:+ "}}") with (String c0 (name +:+ "}}")).
    cbn [Js.strip_prefix]. now rewrite Ascii.eqb_sym, Hbrace. }
  rewrite Hraw.
  assert (Htrim : Js.trimStart (String c0 name +:+ "}}") = String c0 name +:+ "}}").
  { unfold Js.trimStart.
    change (String c0 name +:+ "}}") with (String c0 (name +:+ "}}")).
    cbn [Js.span]. now rewrite Hspace. }
  rewrite Htrim.
  rewrite (span_all_then HandlebarsLite.id_char (String c0 name) "}" "}" Hall eq_refl).
  rewrite Hplain. cbn [negb andb].
  change (Js.strip_prefix "}}" (Js.trimStart "}}")) with (Some "").
  cbn beta iota. change (Js.startsWith "" "}") with false. cbn beta iota.
  rewrite Hc. cbn [HandlebarsLite.expression_text].
  reflexivity.
Qed.

Lemma expression_text_printable raw (v : jsval) :
  printable v = true -> is_Some (HandlebarsLite.expression_text raw (Some v)).
Proof. destruct v; try discriminate; cbn; eauto. Qed.

Lemma render_from_defined fuel source (context : gmap string jsval) :
  map_Forall (fun _ v => printable v = true) context ->
  is_Some (HandlebarsLite.render_from fuel source ∅) ->
  is_Some (HandlebarsLite.render_from fuel source context).
Proof.
  intros Hc. revert source. induction fuel as [|fuel IH]; intros source H.
  { destruct H as [? H]. discriminate H. }
  destruct source as [|c source']; [cbn; eauto|].
  cbn [HandlebarsLite.render_from] in *.
  destruct (Ascii.eqb c "\"); [exact H|].
  destruct (Js.strip_prefix "{{" (String c source')) as [after|].
  2:{ destruct (HandlebarsLite.render_from fuel source' ∅) as [tail|] eqn:E.
      - destruct (IH source' (mk_is_Some _ _ E)) as [tail' ->]. cbn. eauto.
      - destruct H as [? H]. discriminate H. }
  destruct (Js.span HandlebarsLite.id_char _) as [id after2].
  destruct (HandlebarsLite.plain_id id); [|exact H].
  destruct (Js.strip_prefix _ (Js.trimStart after2)) as [rest|]; [|exact H].
  destruct (negb _ && Js.startsWith rest "}"); [exact H|].
  rewrite lookup_empty in H. cbn [HandlebarsLite.expression_text] in H.
  destruct (HandlebarsLite.render_from fuel rest ∅) as [tail|] eqn:E.
  2:{ destruct H as [? H]. discriminate H. }
  destruct (IH rest (mk_is_Some _ _ E)) as [tail' ->].
  destruct (context !! id) as [v|] eqn:Hv.
  - destruct (expression_text_printable (Js.startsWith after "{") v (Hc id v Hv)) as [t ->].
    cbn. eauto.
  - cbn. eauto.
Qed.

Lemma render_from_delete fuel source (context : gmap string jsval) name :
  is_Some (HandlebarsLite.render_from fuel source context) ->
  is_Some (HandlebarsLite.render_from fuel source (delete name context)).
Proof.
  revert source. induction fuel as [|fuel IH]; intros source H.
  { destruct H as [? H]. discriminate H. }
  destruct source as [|c source']; [cbn; eauto|].
  cbn [HandlebarsLite.render_from] in *.
  destruct (Ascii.eqb c "\"); [exact H|].
  destruct (Js.strip_prefix "{{" (String c source')) as [after|].
  2:{ destruct (HandlebarsLite.render_from fuel source' context) as [tail|] eqn:E.
      - destruct (IH source' (mk_is_Some _ _ E)) as [tail' ->]. cbn. eauto.
      - destruct H as [? H]. discriminate H. }
  destruct (Js.span HandlebarsLite.id_char _) as [id after2].
  destruct (HandlebarsLite.plain_id id); [|exact H].
  destruct (Js.strip_prefix _ (Js.trimStart after2)) as [rest|]; [|exact H].
  destruct (negb _ && Js.startsWith rest "}"); [exact H|].
  destruct (HandlebarsLite.expression_text _ (context !! id)) as [t|] eqn:Ht.
  2:{ destruct H as [? H]. discriminate H. }
  destruct (HandlebarsLite.render_from fuel rest context) as [tail|] eqn:E.
  2:{ destruct H as [? H]. discriminate H. }
  destruct (IH rest (mk_is_Some _ _ E)) as [tail' ->].
  destruct (decide (id = name)) as [->|Hne].
  - rewrite lookup_delete_eq. cbn. eauto.
  - rewrite lookup_delete_ne by congruence. rewrite Ht. cbn. eauto.
Qed.

Lemma add_placeholders_printable (l : list string) (variables : gmap string jsval) :
  map_Forall (fun _ v => printable v = true) variables ->
  map_Forall (fun _ v => printable v = true)
    (fold_left TemplateEngine.add_placeholder l variables).
Proof.
  revert variables. induction l as [|m l IH]; intros variables H; [exact H|].
  cbn [fold_left]. apply IH. unfold TemplateEngine.add_placeholder. cbv zeta.
  destruct (TemplateEngine.has_truthy _ _); [exact H|].
  apply map_Forall_insert_2; [reflexivity|exact H].
Qed.

Lemma note_bindings_printable (W : World) note st base st' :
  TemplateEngine.note_bindings W note st = (Ret base, st') ->
  map_Forall (fun _ v => printable v = true) base.
Proof.
  unfold TemplateEngine.note_bindings. step_monad. intros [= <- _].
  repeat (apply map_Forall_insert_2; [reflexivity|]). apply map_Forall_empty.
Qed.

(** [renderTemplate] is Handlebars on the bindings of the note. *)
Lemma renderTemplate_run (W : World) template note st variables st' :
  TemplateEngine.extractNoteVariables W note st = (Ret variables, st') ->
  TemplateEngine.renderTemplate W template note st
  = (match handlebars W (tpl_subject template) variables with
     | inl e => Throw e
     | inr subject =>
         match handlebars W (tpl_body template) variables with
         | inl e => Throw e
         | inr bodyHtml =>
             Ret {| TemplateEngine.subject := subject;
                    TemplateEngine.body_html := TemplateEngine.sanitizeHtml W bodyHtml;
                    TemplateEngine.body_text :=
                      TemplateEngine.htmlToText (TemplateEngine.sanitizeHtml W bodyHtml);
                    TemplateEngine.variables_used := variables |}
         end
     end, st').
Proof.
  intros Hv. unfold TemplateEngine.renderTemplate. rewrite bind_run, Hv.
  unfold_monad.
  destruct (handlebars W (tpl_subject template) variables) as [e|subject]; [reflexivity|].
  destruct (handlebars W (tpl_body template) variables) as [e|bodyHtml]; reflexivity.
Qed.

(** C2 (as the code has it): the placeholders come from the note, not from
    the template.  Each [{{...}}] token of the note's content whose name
    (braces removed, trimmed) has no truthy binding, own or inherited, is
    bound to the literal [[name]] in brackets; every other name keeps the
    binding it had or stays unbound, whatever the template refers to.
    [renderTemplate] is Handlebars on these bindings: it fails exactly when
    Handlebars throws on the subject or on the body.  Where Handlebars
    behaves as [HandlebarsLite] says, a template made of text and plain
    interpolations always renders against the bindings of a note, whatever
    names it mentions; taking a binding away never turns a rendering into a
    failure; and an expression [{{name}}] whose name is unbound renders as
    the empty string: no placeholder appears for it. *)
Theorem C2_placeholders_come_from_the_note (W : World) (note : Note) (st : State) :
  exists base st',
    TemplateEngine.note_bindings W note st = (Ret base, st')
    /\ TemplateEngine.extractNoteVariables W note st
       = (Ret (TemplateEngine.add_placeholders (note_content note) base), st')
    /\ (forall name,
          In name (map TemplateEngine.name_of_match
                     (Js.match_all VariableExtractor.mustache (note_content note))) ->
          TemplateEngine.has_truthy base name = false ->
          TemplateEngine.add_placeholders (note_content note) base !! name
          = Some (JString ("[" +:+ name +:+ "]")))
    /\ (forall name,
          ~ In name (map TemplateEngine.name_of_match
                       (Js.match_all VariableExtractor.mustache (note_content note))) ->
          TemplateEngine.add_placeholders (note_content note) base !! name = base !! name)
    /\ (forall template,
          let variables := TemplateEngine.add_placeholders (note_content note) base in
          TemplateEngine.renderTemplate W template note st
          = (match handlebars W (tpl_subject template) variables with
             | inl e => Throw e
             | inr subject =>
                 match handlebars W (tpl_body template) variables with
                 | inl e => Throw e
                 | inr bodyHtml =>
                     Ret {| TemplateEngine.subject := subject;
                            TemplateEngine.body_html := TemplateEngine.sanitizeHtml W bodyHtml;
                            TemplateEngine.body_text :=
                              TemplateEngine.htmlToText
                                (TemplateEngine.sanitizeHtml W bodyHtml);
                            TemplateEngine.variables_used := variables |}
                 end
             end, st'))
    /\ (HandlebarsLite.conforms W ->
        (forall template,
            in_fragment (tpl_subject template) -> in_fragment (tpl_body template) ->
            exists r,
              fst (TemplateEngine.renderTemplate W template note st) = Ret r
              /\ HandlebarsLite.render (tpl_subject template)
                   (TemplateEngine.add_placeholders (note_content note) base)
                 = Some (TemplateEngine.subject r))
        /\ (forall source (variables : gmap string jsval) name out,
              HandlebarsLite.render source variables = Some out ->
              exists out', handlebars W source (delete name variables) = inr out')
        /\ (forall name (variables : gmap string jsval),
              HandlebarsLite.plain_name name = true ->
              variables !! name = None ->
              handlebars W ("{{" +:+ name +:+ "}}") variables = inr "")).
Proof.
  destruct (TemplateEngine.note_bindings W note st) as [[base|e] st'] eqn:Hb.
  2:{ unfold TemplateEngine.note_bindings in Hb. step_monad. discriminate. }
  exists base, st'. split; [reflexivity|].
  assert (Hrun : TemplateEngine.extractNoteVariables W note st
                 = (Ret (TemplateEngine.add_placeholders (note_content note) base), st')).
  { unfold TemplateEngine.extractNoteVariables. rewrite bind_run, Hb. reflexivity. }
  split; [exact Hrun|].
  split; [|split; [|split]].
  - intros name Hin Hf. now apply add_placeholders_bind.
  - intros name Hin. now apply add_placeholders_other.
  - intros template. cbv zeta. now apply renderTemplate_run.
  - intros Hw. split; [|split].
    + intros template Hs Hbody.
      assert (Hp : map_Forall (fun _ v => printable v = true)
                     (TemplateEngine.add_placeholders (note_content note) base)).
      { apply add_placeholders_printable.
        apply (note_bindings_printable W note st base st' Hb). }
      destruct (render_from_defined _ _ _ Hp Hs) as [subject Es].
      destruct (render_from_defined _ _ _ Hp Hbody) as [bodyHtml Eb].
      rewrite (renderTemplate_run W template note st _ st' Hrun).
      rewrite (Hw _ _ _ Es), (Hw _ _ _ Eb). cbn [fst].
      eexists. split; [reflexivity|]. exact Es.
    + intros source variables name out Hout.
      destruct (render_from_delete _ source variables name (mk_is_Some _ _ Hout))
        as [out' E].
      exists out'. apply Hw. exact E.
    + intros name variables Hn Hv. apply Hw. now apply render_unbound.
Qed.

(** C2, where the claim fails: the template refers to [{{unknown_var}}],
    the note does not mention it, the bindings do not hold it; the rendered
    subject is empty and the rendered body is ["<p></p>"]: the text
    ["[unknown_var]"] is in neither. *)
Lemma C2_counterexample :
  match fst (TemplateEngine.renderTemplate Sample.world
               (Sample.template "{{unknown_var}}" "<p>{{unknown_var}}</p>") Sample.note
               (Sample.state (Sample.user "u1" None None))) with
  | Ret r =>
      TemplateEngine.variables_used r !! "unknown_var" = None
      /\ TemplateEngine.subject r = ""
      /\ TemplateEngine.body_html r = "<p></p>"
      /\ Js.includes (TemplateEngine.subject r) "[unknown_var]" = false
      /\ Js.includes (TemplateEngine.body_html r) "[unknown_var]" = false
  | Throw _ => False
  end.
Proof. vm_compute. repeat split. Qed.

(** C2 at work: a note that mentions [{{ nickname }}] and has an empty
    title, rendered through a template that also mentions a name the note
    does not know. *)
Lemma C2_placeholders_witness :
  let note := {| note_id := "n2"; note_user_id := "u1"; note_title := "";
                 note_content := "Dear {{ nickname }}, about {{note_title}}";
                 note_created_at := 0%Z; note_updated_at := 0%Z |} in
  let st := Sample.state (Sample.user "u1" None None) in
  let template := Sample.template "For {{unknown_var}}: {{note_title}}!"
                    "<p>{{nickname}} and {{unknown_var}}</p>" in
  match fst (TemplateEngine.extractNoteVariables Sample.world note st) with
  | Ret variables =>
      variables !! "nickname" = Some (JString "[nickname]")
      /\ variables !! "note_title" = Some (JString "[note_title]")
      /\ variables !! "unknown_var" = None
      /\ handlebars Sample.world "{{unknown_var}}" variables = inr ""
      /\ (HandlebarsLite.conforms Sample.world
          /\ in_fragment (tpl_subject template) /\ in_fragment (tpl_body template))
      /\ exists r,
           fst (TemplateEngine.renderTemplate Sample.world template note st) = Ret r
           /\ HandlebarsLite.render (tpl_subject template) variables
              = Some (TemplateEngine.subject r)
           /\ TemplateEngine.subject r = "For : [note_title]!"
  | Throw _ => False
  end.
Proof.
  intros note st template.
  destruct (C2_placeholders_come_from_the_note Sample.world note st)
    as (base & st' & Hb & Hrun & Hbind & Hother & _ & Hrender).
  assert (Hbase : match fst (TemplateEngine.note_bindings Sample.world note st) with
                  | Ret b => TemplateEngine.has_truthy b "nickname" = false
                             /\ TemplateEngine.has_truthy b "note_title" = false
                             /\ b !! "unknown_var" = None
                  | Throw _ => False
                  end)
    by (vm_compute; repeat split).
  rewrite Hb in Hbase. cbn [fst] in Hbase. destruct Hbase as (Hb1 & Hb2 & Hb3).
  assert (Hnames : map TemplateEngine.name_of_match
                     (Js.match_all VariableExtractor.mustache (note_content note))
                   = ["nickname"; "note_title"])
    by (vm_compute; reflexivity).
  rewrite Hnames in Hbind, Hother.
  assert (Hunknown : TemplateEngine.add_placeholders (note_content note) base
                       !! "unknown_var" = None).
  { rewrite (Hother "unknown_var"); [exact Hb3|].
    intros [H|[H|[]]]; discriminate H. }
  assert (Hw : HandlebarsLite.conforms Sample.world).
  { intros source context out H. cbn [Sample.world handlebars]. now rewrite H. }
  assert (Hs : in_fragment (tpl_subject template))
    by (apply (mk_is_Some _ "For : !"); vm_compute; reflexivity).
  assert (Hbody : in_fragment (tpl_body template))
    by (apply (mk_is_Some _ "<p> and </p>"); vm_compute; reflexivity).
  destruct (Hrender Hw) as (Hall & _ & Hone).
  destruct (Hall template Hs Hbody) as (r & Hr & Hsub).
  assert (Hsubject :
            match fst (TemplateEngine.renderTemplate Sample.world template note st) with
            | Ret r => TemplateEngine.subject r = "For : [note_title]!"
            | Throw _ => False
            end) by (vm_compute; reflexivity).
  rewrite Hr in Hsubject.
  rewrite Hrun. cbn [fst]. split; [|split; [|split; [|split; [|split]]]].
  - apply (Hbind "nickname"); [left; reflexivity | exact Hb1].
  - apply (Hbind "note_title"); [right; left; reflexivity | exact Hb2].
  - exact Hunknown.
  - apply (Hone "unknown_var"); [reflexivity | exact Hunknown].
  - repeat split; assumption.
  - exists r. split; [exact Hr|]. split; [exact Hsub|exact Hsubject].
Defined.

(** ** Template versions *)

Lemma update_rows_none sel set rows versions :
  Forall (fun r => sel r = false) rows ->
  Templates.update_rows sel set rows versions = Some (rows, versions, []).
Proof.
  induction 1 as [|r rows Hr _ IH]; [reflexivity|].
  cbn [Templates.update_rows]. now rewrite Hr, IH.
Qed.

(** When a single row is selected, the UPDATE is the trigger on that row. *)
Lemma update_rows_one sel set pre t post versions :
  Forall (fun r => sel r = false) pre ->
  Forall (fun r => sel r = false) post ->
  sel t = true ->
  Templates.update_rows sel set (pre ++ t :: post) versions =
  match Templates.create_template_version t (set t) versions with
  | None => None
  | Some (NEW, versions1) => Some (pre ++ NEW :: post, versions1, [NEW])
  end.
Proof.
  intros Hpre Hpost Ht. induction Hpre as [|r pre Hr _ IH].
  - cbn [app Templates.update_rows]. rewrite Ht.
    destruct (Templates.create_template_version t (set t) versions) as [[NEW versions1]|];
      [|reflexivity].
    now rewrite (update_rows_none _ _ _ _ Hpost).
  - cbn [app Templates.update_rows]. rewrite Hr, IH.
    now destruct (Templates.create_template_version t (set t) versions) as [[NEW versions1]|].
Qed.

Lemma owned_active_id id user t :
  Templates.owned_active id user t = true -> tpl_id t = id.
Proof.
  unfold Templates.owned_active. intros H.
  apply andb_prop in H as [H _]. apply andb_prop in H as [H _].
  now apply String.eqb_eq.
Qed.

(** With unique ids the WHERE clause selects one row at most. *)
Lemma selected_split id user rows :
  NoDup (map tpl_id rows) ->
  Forall (fun r => Templates.owned_active id user r = false) rows
  \/ exists pre t post,
      rows = pre ++ t :: post
      /\ Templates.owned_active id user t = true
      /\ Forall (fun r => Templates.owned_active id user r = false) pre
      /\ Forall (fun r => Templates.owned_active id user r = false) post.
Proof.
  induction rows as [|r rows IH]; intros Hnd; [left; constructor|].
  cbn [map] in Hnd. apply NoDup_cons in Hnd as [Hr Hnd].
  destruct (Templates.owned_active id user r) eqn:E.
  - right. exists [], r, rows. repeat split; [exact E | constructor|].
    apply Forall_forall. intros r' Hin%list_elem_of_In.
    destruct (Templates.owned_active id user r') eqn:E'; [|reflexivity].
    exfalso. apply Hr. apply list_elem_of_In.
    rewrite (owned_active_id _ _ _ E), <- (owned_active_id _ _ _ E').
    now apply in_map.
  - destruct (IH Hnd) as [Hall|(pre & t & post & -> & Ht & Hpre & Hpost)].
    + left. now constructor.
    + right. exists (r :: pre), t, post. repeat split; [exact Ht | now constructor | exact Hpost].
Qed.

Lemma consistent_tables st st' :
  consistent st ->
  email_templates st' = email_templates st ->
  email_template_versions st' = email_template_versions st ->
  consistent st'.
Proof.
  intros [H1 H2 H3 H4] Ht Hv.
  split; rewrite ?Ht, ?Hv; assumption.
Qed.

Lemma other_row_other_id pre (t : EmailTemplate) post x :
  NoDup (map tpl_id (pre ++ t :: post)) ->
  In x pre \/ In x post -> tpl_id x <> tpl_id t.
Proof.
  rewrite map_app. cbn [map]. intros Hnd Hin E.
  apply NoDup_app in Hnd as (_ & Hdis & Hpost).
  apply NoDup_cons in Hpost as [Hnot _].
  destruct Hin as [Hin|Hin].
  - apply (Hdis (tpl_id x)).
    + apply list_elem_of_In. now apply in_map.
    + rewrite E. left.
  - apply Hnot. rewrite <- E. apply list_elem_of_In. now apply in_map.
Qed.

(** Replacing a row by its edited form, with or without a snapshot of the
    old form, keeps the tables consistent. *)
Lemma consistent_replace st pre t post NEW versions' st' :
  consistent st ->
  email_templates st = pre ++ t :: post ->
  email_templates st' = pre ++ NEW :: post ->
  email_template_versions st' = versions' ->
  tpl_id NEW = tpl_id t ->
  tpl_variables NEW
    = VariableExtractor.extractTemplateVariables (tpl_subject NEW) (tpl_body NEW) ->
  (versions' = email_template_versions st /\ tpl_version NEW = tpl_version t)
  \/ (versions' = email_template_versions st ++ [Templates.snapshot_of t]
      /\ tpl_version NEW = (tpl_version t + 1)%Z) ->
  consistent st'.
Proof.
  intros [H1 H2 H3 H4] Hrows Hrows' Hvers Hid Hvar Hcase.
  assert (Hids : map tpl_id (email_templates st') = map tpl_id (email_templates st)).
  { rewrite Hrows, Hrows', !map_app. cbn [map]. now rewrite Hid. }
  assert (Hin_t : In t (email_templates st)).
  { rewrite Hrows. apply in_or_app. right; now left. }
  assert (Hold : forall v, In v versions' ->
                   In v (email_template_versions st)
                   \/ (v = Templates.snapshot_of t
                       /\ tpl_version NEW = (tpl_version t + 1)%Z)).
  { intros v Hv. destruct Hcase as [[-> _]|[-> Hn]]; [now left|].
    apply in_app_or in Hv as [Hv|[<-|[]]]; [now left | right; auto]. }
  split.
  - intros x Hx. rewrite Hrows' in Hx.
    apply in_app_or in Hx as [Hx|[<-|Hx]]; [| exact Hvar |];
      apply H1; rewrite Hrows; apply in_or_app; [now left | right; now right].
  - now rewrite Hids.
  - rewrite Hids, Hvers. intros v Hv.
    destruct (Hold v Hv) as [Hv'|[-> _]]; [now apply H3|].
    cbn [ver_template_id Templates.snapshot_of]. now apply in_map.
  - rewrite Hvers. intros v x Hv Hx Hidx. rewrite Hrows' in Hx.
    assert (Hversion : (tpl_version t <= tpl_version NEW)%Z)
      by (destruct Hcase as [[_ ->]|[_ ->]]; lia).
    apply in_app_or in Hx as [Hx|[<-|Hx]].
    + destruct (Hold v Hv) as [Hv'|[-> _]].
      * apply H4; [exact Hv' | rewrite Hrows; apply in_or_app; now left | exact Hidx].
      * exfalso. rewrite Hrows in H2.
        apply (other_row_other_id pre t post x H2); [now left | exact Hidx].
    + destruct (Hold v Hv) as [Hv'|[-> Hn]].
      * specialize (H4 v t Hv' Hin_t). rewrite <- Hid in H4. specialize (H4 Hidx). lia.
      * cbn [ver_version Templates.snapshot_of]. lia.
    + destruct (Hold v Hv) as [Hv'|[-> _]].
      * apply H4; [exact Hv' | rewrite Hrows; apply in_or_app; right; now right | exact Hidx].
      * exfalso. rewrite Hrows in H2.
        apply (other_row_other_id pre t post x H2); [now right | exact Hidx].
Qed.

(** In a consistent state the snapshot the trigger inserts is new. *)
Lemma snapshot_is_new st t :
  consistent st -> In t (email_templates st) ->
  existsb (fun v => String.eqb (ver_template_id v) (tpl_id t)
                    && (ver_version v =? tpl_version t)%Z)
    (email_template_versions st) = false.
Proof.
  intros [_ _ _ H4] Ht.
  destruct (existsb _ _) eqn:E; [|reflexivity].
  apply existsb_exists in E as (v & Hv & Hcond).
  apply andb_prop in Hcond as [Hid Hver].
  apply String.eqb_eq in Hid. apply Z.eqb_eq in Hver.
  specialize (H4 v t Hv Ht (eq_sym Hid)). lia.
Qed.

(** The trigger on a row of a consistent state: without a change of
    subject, body or hints the row is stored as it comes; with one, the old
    row is snapshotted and the version goes up by one, unless the version
    leaves the range of INTEGER. *)
Lemma create_template_version_run st OLD NEW :
  consistent st -> In OLD (email_templates st) ->
  Templates.create_template_version OLD NEW (email_template_versions st) =
  if Templates.content_changed OLD NEW then
    if (Templates.INTEGER_MAX <? tpl_version OLD + 1)%Z then None
    else Some (Templates.with_version (tpl_version OLD + 1) NEW,
               email_template_versions st ++ [Templates.snapshot_of OLD])
  else Some (NEW, email_template_versions st).
Proof.
  intros Hc Hin. unfold Templates.create_template_version.
  now rewrite (snapshot_is_new st OLD Hc Hin).
Qed.

(** The UPDATE of a template route, on a consistent state. *)
Lemma UPDATE_run id user set st :
  consistent st ->
  (Forall (fun r => Templates.owned_active id user r = false) (email_templates st)
   /\ Templates.UPDATE (Templates.owned_active id user) set st
      = (Ret [], set_email_template_versions (email_template_versions st)
                   (set_email_templates (email_templates st) st)))
  \/ exists pre OLD post,
      email_templates st = pre ++ OLD :: post
      /\ Templates.owned_active id user OLD = true
      /\ Templates.UPDATE (Templates.owned_active id user) set st =
         match Templates.create_template_version OLD (set OLD) (email_template_versions st) with
         | None => (Throw (JsError "UPDATE email_templates failed"), st)
         | Some (NEW, versions) =>
             (Ret [NEW],
              set_email_template_versions versions
                (set_email_templates (pre ++ NEW :: post) st))
         end.
Proof.
  intros Hc. unfold Templates.UPDATE.
  destruct (selected_split id user (email_templates st) (ids_unique st Hc))
    as [Hnone|(pre & OLD & post & Hrows & Hsel & Hpre & Hpost)].
  - left. split; [exact Hnone|]. now rewrite (update_rows_none _ _ _ _ Hnone).
  - right. exists pre, OLD, post. split; [exact Hrows|]. split; [exact Hsel|].
    rewrite Hrows, (update_rows_one _ _ _ _ _ _ Hpre Hpost Hsel).
    now destruct (Templates.create_template_version OLD (set OLD) _) as [[NEW versions]|].
Qed.

Lemma UPDATE_consistent id user set st r st' :
  consistent st ->
  (forall t, In t (email_templates st) ->
     tpl_id (set t) = tpl_id t
     /\ tpl_version (set t) = tpl_version t
     /\ tpl_variables (set t)
        = VariableExtractor.extractTemplateVariables (tpl_subject (set t)) (tpl_body (set t))) ->
  Templates.UPDATE (Templates.owned_active id user) set st = (r, st') ->
  consistent st'.
Proof.
  intros Hc Hset.
  destruct (UPDATE_run id user set st Hc)
    as [[_ ->]|(pre & OLD & post & Hrows & Hsel & ->)].
  - intros [= _ <-]. now apply (consistent_tables st).
  - assert (Hin : In OLD (email_templates st))
      by (rewrite Hrows; apply in_or_app; right; now left).
    destruct (Hset OLD Hin) as (Hid & Hver & Hvar).
    rewrite (create_template_version_run st OLD (set OLD) Hc Hin).
    destruct (Templates.content_changed OLD (set OLD)).
    + destruct (Templates.INTEGER_MAX <? tpl_version OLD + 1)%Z.
      * now intros [= _ <-].
      * intros [= _ <-].
        apply (consistent_replace st pre OLD post
                 (Templates.with_version (tpl_version OLD + 1) (set OLD))
                 (email_template_versions st ++ [Templates.snapshot_of OLD]));
          try reflexivity; try assumption.
        right. split; reflexivity.
    + intros [= _ <-].
      apply (consistent_replace st pre OLD post (set OLD) (email_template_versions st));
        try reflexivity; try assumption.
      left. split; [reflexivity | exact Hver].
Qed.

Lemma create_consistent (W : World) user name subject body st :
  consistent st -> consistent (snd (Templates.create W user name subject body st)).
Proof.
  intros Hc. unfold Templates.create, handler.
  destruct (_ || _); [exact Hc|].
  destruct (negb _); [exact Hc|].
  pass_varchar; [|exact Hc]. pass_varchar; [|exact Hc].
  step_monad. cbn [email_templates set_tick].
  destruct (existsb _ (email_templates st)) eqn:Hfresh.
  { cbn [snd]. now apply (consistent_tables st). }
  cbn [snd].
  assert (Hnew : ~ In (gen_random_uuid W (tick st)) (map tpl_id (email_templates st))).
  { intros Hin. apply in_map_iff in Hin as (t & Hid & Hin).
    assert (existsb (fun t => String.eqb (tpl_id t) (gen_random_uuid W (tick st)))
              (email_templates st) = true); [|congruence].
    apply existsb_exists. exists t. split; [exact Hin|]. now apply String.eqb_eq. }
  destruct Hc as [H1 H2 H3 H4]. split; cbn [email_templates email_template_versions
    set_email_templates set_tick].
  - intros t Ht. apply in_app_or in Ht as [Ht|[<-|[]]]; [now apply H1 | reflexivity].
  - rewrite map_app. cbn [map tpl_id]. apply NoDup_app. split; [exact H2|]. split.
    + intros x Hx Hx'. apply list_elem_of_singleton in Hx'. subst x.
      apply Hnew. now apply list_elem_of_In.
    + apply NoDup_singleton.
  - intros v Hv. rewrite map_app. apply in_or_app. left. now apply H3.
  - intros v t Hv Ht Hid. apply in_app_or in Ht as [Ht|[<-|[]]]; [now apply H4|].
    exfalso. apply Hnew. cbn [tpl_id] in Hid. rewrite Hid. now apply H3.
Qed.

(** Every route keeps the template tables consistent. *)
Lemma step_consistent (W : World) st st' :
  consistent st -> step W st st' -> consistent st'.
Proof.
  intros Hc Hstep. destruct Hstep.
  - now apply create_consistent.
  - unfold Templates.update, handler.
    destruct (_ || _); [exact Hc|].
    destruct (negb _); [exact Hc|].
    pass_varchar; [|exact Hc]. pass_varchar; [|exact Hc].
    rewrite bind_run.
    destruct (Templates.UPDATE _ _ st) as [[rows|e] st1] eqn:Hup;
      apply UPDATE_consistent in Hup; try exact Hc;
      try (intros t _; repeat split; reflexivity).
    + destruct rows; exact Hup.
    + exact Hup.
  - unfold Templates.delete, handler. rewrite bind_run.
    destruct (Templates.UPDATE _ _ st) as [[rows|e] st1] eqn:Hup;
      apply UPDATE_consistent in Hup; try exact Hc;
      try (intros t Ht; split; [reflexivity|]; split;
           [reflexivity | exact (variables_derived st Hc t Ht)]).
    + destruct rows; exact Hup.
    + exact Hup.
  - destruct (Emails.send W user rq st) as [resp st1] eqn:Hrun. cbn [snd].
    apply send_run in Hrun as [(n & ->)|[(t & n & _ & (_ & Ht & Hv & _) & _)|Hrun]].
    + now apply (consistent_tables st).
    + now apply (consistent_tables st).
    + destruct Hrun as (? & ? & ? & ? & ? & ? & ? & ? & ? & _ & _ & _ & _ & _ & Ht & Hv & _).
      now apply (consistent_tables st).
  - destruct (Emails.retry W user id st) as [resp st1] eqn:Hrun. cbn [snd].
    apply retry_run in Hrun.
    destruct (List.filter _ (sent_emails st)).
    + destruct Hrun as [_ ->]. exact Hc.
    + destruct Hrun as (? & ? & ? & ? & ? & _ & Ht & Hv & _).
      now apply (consistent_tables st).
Qed.

Lemma reachable_consistent (W : World) st : reachable W st -> consistent st.
Proof.
  induction 1 as [st Ht Hv|st st' _ IH Hstep].
  - split; rewrite ?Ht, ?Hv.
    + intros ? [].
    + constructor.
    + intros ? [].
    + intros ? ? [].
  - now apply (step_consistent W st).
Qed.

Lemma same_id_same_row (rows : list EmailTemplate) a b :
  NoDup (map tpl_id rows) -> In a rows -> In b rows -> tpl_id a = tpl_id b -> a = b.
Proof.
  induction rows as [|r rows IH]; intros Hnd Ha Hb E; [destruct Ha|].
  cbn [map] in Hnd. apply NoDup_cons in Hnd as [Hr Hnd].
  destruct Ha as [->|Ha], Hb as [->|Hb]; [reflexivity | | | now apply IH].
  - exfalso. apply Hr. rewrite E. apply list_elem_of_In. now apply in_map.
  - exfalso. apply Hr. rewrite <- E. apply list_elem_of_In. now apply in_map.
Qed.

(** No route rewrites or removes a snapshot: the table only grows at its end. *)
Lemma snapshots_are_kept (W : World) st st' :
  consistent st -> step W st st' ->
  exists more, email_template_versions st' = email_template_versions st ++ more.
Proof.
  intros Hc Hstep.
  assert (Hupdate : forall id user set r st1,
             Templates.UPDATE (Templates.owned_active id user) set st = (r, st1) ->
             exists more, email_template_versions st1 = email_template_versions st ++ more).
  { intros id user set r st1.
    destruct (UPDATE_run id user set st Hc)
      as [[_ ->]|(pre & OLD & post & Hrows & Hsel & ->)].
    - intros [= _ <-]. exists []. now rewrite app_nil_r.
    - assert (Hin : In OLD (email_templates st))
        by (rewrite Hrows; apply in_or_app; right; now left).
      rewrite (create_template_version_run st OLD (set OLD) Hc Hin).
      destruct (Templates.content_changed OLD (set OLD));
        [destruct (Templates.INTEGER_MAX <? tpl_version OLD + 1)%Z|];
        intros [= _ <-]; cbn [email_template_versions set_email_template_versions];
        eauto; exists []; now rewrite app_nil_r. }
  assert (Hsame : forall st1, email_template_versions st1 = email_template_versions st ->
             exists more, email_template_versions st1 = email_template_versions st ++ more).
  { intros st1 ->. exists []. now rewrite app_nil_r. }
  destruct Hstep.
  - apply Hsame. unfold Templates.create, handler.
    destruct (_ || _); [reflexivity|]. destruct (negb _); [reflexivity|].
    pass_varchar; [|reflexivity]. pass_varchar; [|reflexivity].
    step_monad. cbn [email_templates set_tick].
    now destruct (existsb _ (email_templates st)).
  - unfold Templates.update, handler.
    destruct (_ || _); [now apply Hsame|]. destruct (negb _); [now apply Hsame|].
    pass_varchar; [|now apply Hsame]. pass_varchar; [|now apply Hsame].
    rewrite bind_run.
    destruct (Templates.UPDATE _ _ st) as [[rows|e] st1] eqn:Hup;
      apply Hupdate in Hup; [destruct rows|]; exact Hup.
  - unfold Templates.delete, handler. rewrite bind_run.
    destruct (Templates.UPDATE _ _ st) as [[rows|e] st1] eqn:Hup;
      apply Hupdate in Hup; [destruct rows|]; exact Hup.
  - apply Hsame.
    destruct (Emails.send W user rq st) as [resp st1] eqn:Hrun. cbn [snd].
    apply send_run in Hrun as [(n & ->)|[(t & n & _ & (_ & _ & Hv & _) & _)|Hrun]];
      [reflexivity | exact Hv |].
    now destruct Hrun as (? & ? & ? & ? & ? & ? & ? & ? & ? & _ & _ & _ & _ & _ & _ & Hv & _).
  - apply Hsame.
    destruct (Emails.retry W user id st) as [resp st1] eqn:Hrun. cbn [snd].
    apply retry_run in Hrun.
    destruct (List.filter _ (sent_emails st)).
    + now destruct Hrun as [_ ->].
    + now destruct Hrun as (? & ? & ? & ? & ? & _ & _ & Hv & _).
Qed.

(** C3: in a state the routes can reach, an accepted update of the active
    row [old] (fields not empty and within the widths of their columns,
    templates that compile, version below the INTEGER maximum) answers 200
    with the stored row, which keeps id and owner and holds the new name,
    subject, body and the variables extracted from them.  If the new
    subject or body differs from the old one, exactly one snapshot is
    appended, holding the id, version, subject, body and variables of the
    old row, and the version of the stored row is the old one plus one; if
    both are the same, no snapshot is written and the version stays.  (No
    route rewrites a snapshot: [snapshots_are_kept].) *)
Theorem C3_update_snapshots_exactly_when_content_changes
    (W : World) user id name subject body st old :
  reachable W st ->
  In old (email_templates st) ->
  Templates.owned_active id (user_id user) old = true ->
  name <> "" -> subject <> "" -> body <> "" ->
  String.length name <= 255 -> String.length subject <= 500 ->
  fst (TemplateEngine.validateTemplate W subject body) = true ->
  (tpl_version old < Templates.INTEGER_MAX)%Z ->
  exists new st',
    Templates.update W user id name subject body st
      = ({| http_status := 200; body := BTemplate new |}, st')
    /\ In new (email_templates st')
    /\ tpl_id new = tpl_id old
    /\ tpl_user_id new = tpl_user_id old
    /\ tpl_name new = name
    /\ tpl_subject new = subject
    /\ tpl_body new = body
    /\ tpl_variables new = VariableExtractor.extractTemplateVariables subject body
    /\ (tpl_subject old <> subject \/ tpl_body old <> body ->
        email_template_versions st'
          = email_template_versions st
            ++ [{| ver_template_id := tpl_id old; ver_version := tpl_version old;
                   ver_subject := tpl_subject old; ver_body := tpl_body old;
                   ver_variables := tpl_variables old |}]
        /\ tpl_version new = (tpl_version old + 1)%Z)
    /\ (tpl_subject old = subject /\ tpl_body old = body ->
        email_template_versions st' = email_template_versions st
        /\ tpl_version new = tpl_version old).
Proof.
  intros Hreach Hin Hsel Hname Hsubject Hbody Hwn Hws Hvalid Hmax.
  pose proof (reachable_consistent W st Hreach) as Hc.
  unfold Templates.update, handler.
  apply String.eqb_neq in Hname, Hsubject, Hbody.
  rewrite Hname, Hsubject, Hbody, Hvalid. cbn [orb negb].
  apply Nat.leb_le in Hwn, Hws.
  rewrite bind_run, varchar_run. unfold fits at 1. rewrite Hwn. cbv beta iota.
  rewrite bind_run, varchar_run. unfold fits at 1. rewrite Hws. cbv beta iota.
  rewrite bind_run.
  set (variables := VariableExtractor.extractTemplateVariables subject body).
  destruct (UPDATE_run id (user_id user) (Templates.edited name subject body variables) st Hc)
    as [[Hnone _]|(pre & OLD & post & Hrows & Hsel' & ->)].
  { exfalso. rewrite Forall_forall in Hnone.
    specialize (Hnone old (proj2 (list_elem_of_In _ _) Hin)). congruence. }
  assert (Hin' : In OLD (email_templates st))
    by (rewrite Hrows; apply in_or_app; right; now left).
  assert (OLD = old) as ->.
  { apply (same_id_same_row (email_templates st)); try assumption.
    - apply (ids_unique st Hc).
    - now rewrite (owned_active_id _ _ _ Hsel), (owned_active_id _ _ _ Hsel'). }
  rewrite (create_template_version_run st old _ Hc Hin).
  unfold Templates.content_changed.
  cbn [tpl_subject tpl_body tpl_variables Templates.edited].
  destruct (String.eqb_spec (tpl_subject old) subject) as [Es|Es];
    destruct (String.eqb_spec (tpl_body old) body) as [Eb|Eb]; cbn [negb orb].
  - assert (Hvars : tpl_variables old = variables).
    { rewrite (variables_derived st Hc old Hin), Es, Eb. reflexivity. }
    rewrite (bool_decide_eq_true_2 _ Hvars). cbn [negb].
    eexists _, _. split; [reflexivity|].
    cbn [email_templates email_template_versions set_email_templates
           set_email_template_versions].
    split; [apply in_or_app; right; now left|].
    repeat split; try reflexivity; tauto.
  - assert (Hlt : (Templates.INTEGER_MAX <? tpl_version old + 1)%Z = false)
      by (apply Z.ltb_ge; lia).
    rewrite Hlt. eexists _, _. split; [reflexivity|].
    cbn [email_templates email_template_versions set_email_templates
           set_email_template_versions].
    split; [apply in_or_app; right; now left|].
    repeat split; try reflexivity; tauto.
  - assert (Hlt : (Templates.INTEGER_MAX <? tpl_version old + 1)%Z = false)
      by (apply Z.ltb_ge; lia).
    rewrite Hlt. eexists _, _. split; [reflexivity|].
    cbn [email_templates email_template_versions set_email_templates
           set_email_template_versions].
    split; [apply in_or_app; right; now left|].
    repeat split; try reflexivity; tauto.
  - assert (Hlt : (Templates.INTEGER_MAX <? tpl_version old + 1)%Z = false)
      by (apply Z.ltb_ge; lia).
    rewrite Hlt. eexists _, _. split; [reflexivity|].
    cbn [email_templates email_template_versions set_email_templates
           set_email_template_versions].
    split; [apply in_or_app; right; now left|].
    repeat split; try reflexivity; tauto.
Qed.

(** C3 at work: the first change of the body of a template just created
    archives the row as it was, and takes the version from 1 to 2. *)
Lemma C3_update_witness :
  let W := Sample.world in
  let u := Sample.user "u1" None None in
  let st := snd (Templates.create W u "Plain" "{{note_title}}" "<p>one</p>"
                   Sample.empty_state) in
  let old := Sample.first_template in
  (reachable W st /\ In old (email_templates st)
   /\ Templates.owned_active "row-0" (user_id u) old = true
   /\ String.length "Plain" <= 255 /\ String.length "{{note_title}}" <= 500
   /\ fst (TemplateEngine.validateTemplate W "{{note_title}}" "<p>two</p>") = true
   /\ (tpl_version old < Templates.INTEGER_MAX)%Z)
  /\ exists new st',
      Templates.update W u "row-0" "Plain" "{{note_title}}" "<p>two</p>" st
        = ({| http_status := 200; body := BTemplate new |}, st')
      /\ In new (email_templates st')
      /\ tpl_subject new = "{{note_title}}"
      /\ tpl_body new = "<p>two</p>"
      /\ email_template_versions st'
         = [{| ver_template_id := "row-0"; ver_version := 1;
               ver_subject := "{{note_title}}"; ver_body := "<p>one</p>";
               ver_variables := ["note_title"] |}]
      /\ tpl_version new = 2%Z.
Proof.
  intros W u st old.
  assert (Hreach : reachable W st).
  { apply (reachable_step W Sample.empty_state).
    - now apply reachable_start.
    - apply step_create. }
  assert (Hin : In old (email_templates st)) by (vm_compute; left; reflexivity).
  assert (Hsel : Templates.owned_active "row-0" (user_id u) old = true) by reflexivity.
  assert (Hmax : (tpl_version old < Templates.INTEGER_MAX)%Z) by reflexivity.
  assert (Hwn : String.length "Plain" <= 255) by (cbn; lia).
  assert (Hws : String.length "{{note_title}}" <= 500) by (cbn; lia).
  assert (Hvalid : fst (TemplateEngine.validateTemplate W "{{note_title}}" "<p>two</p>") = true)
    by reflexivity.
  split; [repeat split; assumption|].
  destruct (C3_update_snapshots_exactly_when_content_changes W u "row-0" "Plain"
              "{{note_title}}" "<p>two</p>" st old Hreach Hin Hsel
              ltac:(discriminate) ltac:(discriminate) ltac:(discriminate)
              Hwn Hws Hvalid Hmax)
    as (new & st' & Hrun & Hnew & _ & _ & _ & Hs & Hb & _ & Hchanged & _).
  exists new, st'. split; [exact Hrun|]. split; [exact Hnew|].
  split; [exact Hs|]. split; [exact Hb|].
  destruct Hchanged as [Hv Hn]; [right; discriminate|].
  split; [exact Hv | exact Hn].
Defined.

(** Two changes of the body take the version from 1 to 2 to 3 and leave two
    snapshots; saving the same content again changes neither. *)
Example versions_one_two_three :
  let W := Sample.world in
  let u := Sample.user "u1" None None in
  let st1 := snd (Templates.create W u "Plain" "{{note_title}}" "<p>one</p>"
                    Sample.empty_state) in
  let st2 := snd (Templates.update W u "row-0" "Plain" "{{note_title}}" "<p>two</p>" st1) in
  let st3 := snd (Templates.update W u "row-0" "Plain" "{{note_title}}" "<p>three</p>" st2) in
  let st4 := snd (Templates.update W u "row-0" "Renamed" "{{note_title}}" "<p>three</p>" st3) in
  map tpl_version (email_templates st1) = [1%Z]
  /\ map tpl_version (email_templates st2) = [2%Z]
  /\ map tpl_version (email_templates st3) = [3%Z]
  /\ map tpl_version (email_templates st4) = [3%Z]
  /\ map (fun v => (ver_version v, ver_body v)) (email_template_versions st3)
     = [(1%Z, "<p>one</p>"); (2%Z, "<p>two</p>")]
  /\ email_template_versions st4 = email_template_versions st3.
Proof. vm_compute. repeat split. Qed.

(** ** The configuration of the sanitizer *)






Lemma colon_is_no_scheme_tail : scheme_tail_char ":" = false.
Proof. reflexivity. Qed.












(** * Further properties of the code *)

(** ** Extracted names and plain text *)

Lemma append_cons (a : ascii) (s t : string) : String a s +:+ t = String a (s +:+ t).
Proof. reflexivity. Qed.

Lemma append_empty_l (t : string) : "" +:+ t = t.
Proof. reflexivity. Qed.

Lemma append_empty_r (s : string) : s +:+ "" = s.
Proof. induction s as [|a s IH]; [reflexivity|]. rewrite append_cons, IH. reflexivity. Qed.

Lemma append_assoc (s t u : string) : (s +:+ t) +:+ u = s +:+ (t +:+ u).
Proof.
  induction s as [|a s IH]; [reflexivity|].
  rewrite !append_cons, IH. reflexivity.
Qed.

Lemma all_app (p : ascii -> bool) (s t : string) :
  Js.all p (s +:+ t) = Js.all p s && Js.all p t.
Proof.
  induction s as [|a s IH]; [reflexivity|].
  rewrite append_cons. cbn [Js.all]. rewrite IH, andb_assoc. reflexivity.
Qed.

Lemma all_and (p q : ascii -> bool) (s : string) :
  Js.all (fun c => p c && q c) s = Js.all p s && Js.all q s.
Proof.
  induction s as [|a s IH]; [reflexivity|].
  cbn [Js.all]. rewrite IH. destruct (p a), (q a), (Js.all p s); reflexivity.
Qed.

Lemma all_filter (p : ascii -> bool) (s : string) : Js.all p (Js.filter p s) = true.
Proof.
  induction s as [|a s IH]; [reflexivity|].
  cbn [Js.filter]. destruct (p a) eqn:E; [cbn [Js.all]; rewrite E, IH; reflexivity|exact IH].
Qed.

Lemma all_filter_other (p q : ascii -> bool) (s : string) :
  Js.all q s = true -> Js.all q (Js.filter p s) = true.
Proof.
  induction s as [|a s IH]; [reflexivity|].
  cbn [Js.all Js.filter]. intros [Ha Hs]%andb_true_iff.
  destruct (p a); [cbn [Js.all]; rewrite Ha; auto|auto].
Qed.

Lemma span_app (p : ascii -> bool) (s : string) :
  s = fst (Js.span p s) +:+ snd (Js.span p s).
Proof.
  induction s as [|a s IH]; [reflexivity|].
  cbn [Js.span]. destruct (p a); [|reflexivity].
  destruct (Js.span p s) as [run rest]. cbn [fst snd] in *.
  rewrite append_cons, <- IH. reflexivity.
Qed.

Lemma span_fst_all (p : ascii -> bool) (s : string) : Js.all p (fst (Js.span p s)) = true.
Proof.
  induction s as [|a s IH]; [reflexivity|].
  cbn [Js.span]. destruct (p a) eqn:E; [|reflexivity].
  destruct (Js.span p s) as [run rest]. cbn [fst Js.all] in *. rewrite E, IH. reflexivity.
Qed.

Lemma span_snd_head (p : ascii -> bool) (s : string) (c : ascii) :
  head_char (snd (Js.span p s)) = Some c -> p c = false.
Proof.
  induction s as [|a s IH]; [discriminate|].
  cbn [Js.span]. destruct (p a) eqn:E.
  - destruct (Js.span p s) as [run rest]. cbn [snd] in *. exact IH.
  - cbn. intros [= <-]. exact E.
Qed.

Lemma span_all_id (p : ascii -> bool) (s : string) :
  Js.all p s = true -> Js.span p s = (s, "").
Proof.
  induction s as [|a s IH]; [reflexivity|].
  cbn [Js.all Js.span]. intros [Ha Hs]%andb_true_iff. rewrite Ha, (IH Hs). reflexivity.
Qed.

Lemma span_none (p : ascii -> bool) (s : string) :
  Js.all (fun c => negb (p c)) s = true -> Js.span p s = ("", s).
Proof.
  destruct s as [|a s]; [reflexivity|].
  cbn [Js.all Js.span]. intros [Ha _]%andb_true_iff.
  destruct (p a); [discriminate|reflexivity].
Qed.

Lemma all_span (p q : ascii -> bool) (s : string) :
  Js.all q s = true ->
  Js.all q (fst (Js.span p s)) = true /\ Js.all q (snd (Js.span p s)) = true.
Proof.
  intros H. rewrite (span_app p s), all_app in H. apply andb_true_iff in H. exact H.
Qed.

Lemma rev_onto_onto (s a b : string) :
  Js.rev_onto (Js.rev_onto s a) b = Js.rev_onto a (s +:+ b).
Proof.
  revert a b. induction s as [|c s IH]; intros a b; [reflexivity|].
  cbn [Js.rev_onto]. rewrite IH. reflexivity.
Qed.

Lemma rev_rev (s : string) : Js.rev (Js.rev s) = s.
Proof. unfold Js.rev. rewrite rev_onto_onto. cbn [Js.rev_onto]. apply append_empty_r. Qed.

Lemma rev_onto_app (s acc : string) : Js.rev_onto s acc = Js.rev s +:+ acc.
Proof.
  unfold Js.rev. revert acc. induction s as [|c s IH]; intros acc; [reflexivity|].
  cbn [Js.rev_onto]. rewrite IH, (IH (String c "")), append_assoc. reflexivity.
Qed.

Lemma rev_app (s t : string) : Js.rev (s +:+ t) = Js.rev t +:+ Js.rev s.
Proof.
  induction s as [|c s IH].
  - rewrite append_empty_l. cbn. rewrite append_empty_r. reflexivity.
  - rewrite append_cons. unfold Js.rev at 1 3. cbn [Js.rev_onto].
    rewrite !rev_onto_app, IH, append_assoc. reflexivity.
Qed.

Lemma all_rev (q : ascii -> bool) (s : string) : Js.all q (Js.rev s) = Js.all q s.
Proof.
  induction s as [|c s IH]; [reflexivity|].
  unfold Js.rev. cbn [Js.rev_onto]. rewrite rev_onto_app, all_app, IH.
  cbn [Js.all]. rewrite andb_true_r, andb_comm. reflexivity.
Qed.

Lemma all_trimStart (q : ascii -> bool) (s : string) :
  Js.all q s = true -> Js.all q (Js.trimStart s) = true.
Proof. intros H. apply (all_span Js.is_space q s H). Qed.

Lemma all_trim (q : ascii -> bool) (s : string) :
  Js.all q s = true -> Js.all q (Js.trim s) = true.
Proof.
  intros H. unfold Js.trim. rewrite all_rev. apply all_trimStart.
  rewrite all_rev. apply all_trimStart, H.
Qed.

Lemma all_strip_prefix (q : ascii -> bool) (p s rest : string) :
  Js.strip_prefix p s = Some rest -> Js.all q s = true -> Js.all q rest = true.
Proof.
  revert s. induction p as [|a p IH]; intros s.
  - cbn. intros [= <-]. auto.
  - destruct s as [|b s]; [discriminate|]. cbn [Js.strip_prefix Js.all].
    destruct (Ascii.eqb a b); [|discriminate].
    intros H [_ Hs]%andb_true_iff. eauto.
Qed.

Lemma all_strip_keyword (q : ascii -> bool) (kw s : string) :
  Js.all q s = true -> Js.all q (Js.strip_keyword kw s) = true.
Proof.
  intros H. unfold Js.strip_keyword.
  destruct (Js.strip_prefix kw s) as [after|] eqn:E; [|exact H].
  pose proof (all_strip_prefix q _ _ _ E H) as Hafter.
  destruct (all_span Js.is_space q after Hafter) as [_ Hrest].
  destruct (Js.span Js.is_space after) as [[|c run] rest]; [exact H|exact Hrest].
Qed.

Lemma variable_of_match_shape (m : string) :
  Js.all (fun c => negb (Js.is_brace c) && negb (Ascii.eqb c "."))
    (VariableExtractor.variable_of_match m) = true.
Proof.
  unfold VariableExtractor.variable_of_match, Js.split_head.
  rewrite all_and. apply andb_true_iff. split.
  - apply all_span. apply all_trim.
    do 3 apply all_strip_keyword. apply all_filter.
  - apply (span_fst_all (fun c => negb (Ascii.eqb c "."))).
Qed.

Lemma keeps_root_name (m : string) :
  VariableExtractor.keeps (VariableExtractor.variable_of_match m) = true ->
  root_name (VariableExtractor.variable_of_match m).
Proof.
  unfold VariableExtractor.keeps. intros [[H1 H2]%andb_true_iff H3]%andb_true_iff.
  repeat split.
  - intros E. rewrite E in H1. discriminate.
  - intros E. rewrite E in H3. discriminate.
  - apply negb_true_iff, H2.
  - apply variable_of_match_shape.
Qed.

Lemma set_add_Forall (P : string -> Prop) (x : string) (l : list string) :
  P x -> Forall P l -> Forall P (Js.set_add x l).
Proof.
  intros Hx Hl. unfold Js.set_add. destruct (existsb _ l); [exact Hl|].
  apply Forall_app. split; [exact Hl|]. constructor; [exact Hx|constructor].
Qed.

(** X1 ([extractTemplateVariables]): the names extracted from a subject and
    a body are pairwise distinct, and each one is a root name: not empty,
    not [this], not starting with a slash, and free of braces and dots. *)
Theorem X1_extracted_names_are_distinct_roots (subject body : string) :
  NoDup (VariableExtractor.extractTemplateVariables subject body)
  /\ Forall root_name (VariableExtractor.extractTemplateVariables subject body).
Proof.
  split; [apply extractTemplateVariables_NoDup|].
  unfold VariableExtractor.extractTemplateVariables.
  generalize (Js.match_all VariableExtractor.mustache (subject +:+ " " +:+ body)).
  intros matches.
  assert (H : Forall root_name (@nil string)) by constructor.
  revert H. generalize (@nil string) as vars.
  induction matches as [|m matches IH]; intros vars Hvars; [exact Hvars|].
  cbn [fold_left]. apply IH. unfold VariableExtractor.add_match.
  destruct (VariableExtractor.keeps _) eqn:E; [|exact Hvars].
  apply set_add_Forall; [apply keeps_root_name, E|exact Hvars].
Qed.

(** *** A plain name comes out as written *)

Lemma all_weaken (p q : ascii -> bool) (s : string) :
  (forall c, p c = true -> q c = true) -> Js.all p s = true -> Js.all q s = true.
Proof.
  intros Hpq. induction s as [|a s IH]; [reflexivity|].
  cbn [Js.all]. intros [Ha Hs]%andb_true_iff. rewrite (Hpq _ Ha), (IH Hs). reflexivity.
Qed.

Lemma filter_all_id (p : ascii -> bool) (s : string) :
  Js.all p s = true -> Js.filter p s = s.
Proof.
  induction s as [|a s IH]; [reflexivity|].
  cbn [Js.all Js.filter]. intros [Ha Hs]%andb_true_iff. rewrite Ha, (IH Hs). reflexivity.
Qed.

Lemma filter_app (p : ascii -> bool) (s t : string) :
  Js.filter p (s +:+ t) = Js.filter p s +:+ Js.filter p t.
Proof.
  induction s as [|a s IH]; [reflexivity|].
  rewrite append_cons. cbn [Js.filter]. destruct (p a); rewrite IH; reflexivity.
Qed.

Lemma trimStart_no_space (s : string) :
  Js.all (fun c => negb (Js.is_space c)) s = true -> Js.trimStart s = s.
Proof. intros H. unfold Js.trimStart. rewrite (span_none _ _ H). reflexivity. Qed.

Lemma trim_no_space (s : string) :
  Js.all (fun c => negb (Js.is_space c)) s = true -> Js.trim s = s.
Proof.
  intros H. unfold Js.trim. rewrite (trimStart_no_space s H).
  rewrite trimStart_no_space by (rewrite all_rev; exact H). apply rev_rev.
Qed.

Lemma strip_keyword_no_space (kw s : string) :
  Js.all (fun c => negb (Js.is_space c)) s = true -> Js.strip_keyword kw s = s.
Proof.
  intros H. unfold Js.strip_keyword.
  destruct (Js.strip_prefix kw s) as [after|] eqn:E; [|reflexivity].
  pose proof (all_strip_prefix _ _ _ _ E H) as Hafter.
  rewrite (span_none _ _ Hafter). reflexivity.
Qed.

Lemma name_char_parts (name : string) :
  Js.all name_char name = true ->
  Js.all (fun c => negb (Js.is_space c)) name = true
  /\ Js.all (fun c => negb (Js.is_brace c)) name = true
  /\ Js.all (fun c => negb (Ascii.eqb c ".")) name = true
  /\ Js.all (fun c => negb (Ascii.eqb c "}")) name = true.
Proof.
  intros H. repeat split; revert H; apply all_weaken; intros c; unfold name_char, Js.is_brace;
    destruct (Js.is_space c), (Ascii.eqb c "{"), (Ascii.eqb c "}"), (Ascii.eqb c ".");
    cbn; congruence.
Qed.

Lemma variable_of_plain_name (name : string) :
  Js.all name_char name = true ->
  VariableExtractor.variable_of_match ("{{" +:+ name +:+ "}}") = name.
Proof.
  intros (Hsp & Hbr & Hdot & _)%name_char_parts.
  unfold VariableExtractor.variable_of_match.
  rewrite !filter_app, (filter_all_id _ _ Hbr).
  change (Js.filter _ "{{") with "". change (Js.filter _ "}}") with "".
  rewrite append_empty_l, append_empty_r.
  rewrite (strip_keyword_no_space "#each" name Hsp), (strip_keyword_no_space "if" name Hsp),
    (strip_keyword_no_space "unless" name Hsp).
  rewrite trim_no_space by exact Hsp.
  unfold Js.split_head. rewrite (span_all_id _ _ Hdot). reflexivity.
Qed.

Lemma variable_of_each_name (name : string) :
  name <> "" -> Js.all name_char name = true ->
  VariableExtractor.variable_of_match ("{{#each " +:+ name +:+ "}}") = name.
Proof.
  intros Hne (Hsp & Hbr & Hdot & _)%name_char_parts.
  unfold VariableExtractor.variable_of_match.
  change ("{{#each " +:+ name +:+ "}}") with ("{{" +:+ ("#each " +:+ (name +:+ "}}"))).
  rewrite !filter_app, (filter_all_id _ _ Hbr).
  change (Js.filter _ "{{") with "". change (Js.filter _ "}}") with "".
  change (Js.filter _ "#each ") with "#each ".
  rewrite append_empty_l, append_empty_r.
  assert (E : Js.strip_keyword "#each" ("#each " +:+ name) = name).
  { unfold Js.strip_keyword. change (Js.strip_prefix "#each" ("#each " +:+ name))
      with (Some (String " " name)).
    cbn [Js.span]. change (Js.is_space " ") with true. cbn iota.
    rewrite (span_none _ _ Hsp). reflexivity. }
  rewrite E.
  rewrite (strip_keyword_no_space "if" name Hsp), (strip_keyword_no_space "unless" name Hsp).
  rewrite trim_no_space by exact Hsp.
  unfold Js.split_head. rewrite (span_all_id _ _ Hdot). reflexivity.
Qed.

Lemma mustache_open (s1 : string) :
  VariableExtractor.mustache (String "{" (String "{" s1)) =
  match Js.span (fun c => negb (Ascii.eqb c "}"%char)) s1 with
  | (String c run, String "}"%char (String "}"%char rest)) =>
      Some ("{{" +:+ String c run +:+ "}}", rest)
  | _ => None
  end.
Proof. reflexivity. Qed.

Lemma mustache_token (inner rest : string) :
  inner <> "" -> Js.all (fun c => negb (Ascii.eqb c "}")) inner = true ->
  VariableExtractor.mustache ("{{" +:+ inner +:+ "}}" +:+ rest)
  = Some ("{{" +:+ inner +:+ "}}", rest).
Proof.
  intros Hne Hin.
  change ("{{" +:+ inner +:+ "}}" +:+ rest)
    with (String "{" (String "{" (inner +:+ ("}}" +:+ rest)))).
  rewrite mustache_open.
  assert (E : Js.span (fun c => negb (Ascii.eqb c "}")) (inner +:+ ("}}" +:+ rest))
              = (inner, "}}" +:+ rest)).
  { clear Hne. induction inner as [|a inner IH]; [reflexivity|].
    rewrite append_cons. cbn [Js.all Js.span] in *.
    apply andb_true_iff in Hin as [Ha Hin]. rewrite Ha, (IH Hin). reflexivity. }
  rewrite E. destruct inner as [|c run]; [congruence|]. reflexivity.
Qed.

Lemma extract_single_token (inner : string) :
  inner <> "" -> Js.all (fun c => negb (Ascii.eqb c "}")) inner = true ->
  VariableExtractor.extractTemplateVariables "" ("{{" +:+ inner +:+ "}}")
  = VariableExtractor.add_match [] ("{{" +:+ inner +:+ "}}").
Proof.
  intros Hne Hin. unfold VariableExtractor.extractTemplateVariables.
  change ("" +:+ " " +:+ ("{{" +:+ inner +:+ "}}"))
    with (String " " ("{{" +:+ inner +:+ "}}")).
  rewrite match_all_mustache. cbn [VariableExtractor.mustache].
  rewrite match_all_mustache.
  pose proof (mustache_token inner "" Hne Hin) as E.
  rewrite !append_empty_r in E. rewrite E. reflexivity.
Qed.

(** X2 ([extractTemplateVariables]): a name written without white space,
    braces or dots, that is not [this] and does not start with a slash, is
    extracted as written, and alone, from the placeholder [{{name}}] and
    from the block opener [{{#each name}}]. *)
Theorem X2_plain_name_is_extracted_as_written (name : string) :
  name <> "" -> Js.all name_char name = true ->
  Js.startsWith name "/" = false -> name <> "this" ->
  VariableExtractor.extractTemplateVariables "" ("{{" +:+ name +:+ "}}") = [name]
  /\ VariableExtractor.extractTemplateVariables "" ("{{#each " +:+ name +:+ "}}") = [name].
Proof.
  intros Hne Hname Hslash Hthis.
  pose proof (name_char_parts name Hname) as (_ & _ & _ & Hclose).
  assert (Hkeeps : VariableExtractor.keeps name = true).
  { unfold VariableExtractor.keeps. rewrite Hslash.
    destruct (String.eqb_spec name ""); [congruence|].
    destruct (String.eqb_spec name "this"); [congruence|]. reflexivity. }
  split.
  - rewrite (extract_single_token name Hne Hclose).
    unfold VariableExtractor.add_match. rewrite (variable_of_plain_name name Hname), Hkeeps.
    reflexivity.
  - change ("{{#each " +:+ name +:+ "}}") with ("{{" +:+ ("#each " +:+ name) +:+ "}}").
    rewrite extract_single_token.
    + change ("{{" +:+ ("#each " +:+ name) +:+ "}}") with ("{{#each " +:+ name +:+ "}}").
      unfold VariableExtractor.add_match.
      rewrite (variable_of_each_name name Hne Hname), Hkeeps. reflexivity.
    + discriminate.
    + change ("#each " +:+ name) with (String "#" (String "e" (String "a" (String "c" (String "h" (String " " name)))))).
      cbn [Js.all]. exact Hclose.
Qed.

Lemma X2_plain_name_witness :
  VariableExtractor.extractTemplateVariables "" ("{{" +:+ "note_title" +:+ "}}") = ["note_title"]
  /\ VariableExtractor.extractTemplateVariables "" ("{{#each " +:+ "items" +:+ "}}") = ["items"].
Proof.
  split.
  - apply (X2_plain_name_is_extracted_as_written "note_title");
      [discriminate|reflexivity|reflexivity|discriminate].
  - apply (X2_plain_name_is_extracted_as_written "items");
      [discriminate|reflexivity|reflexivity|discriminate].
Defined.

(** *** The plain text is trimmed *)

Lemma head_char_app (s t : string) :
  s <> "" -> head_char (s +:+ t) = head_char s.
Proof. destruct s; [congruence|reflexivity]. Qed.

Lemma rev_empty (s : string) : Js.rev s = "" -> s = "".
Proof. intros H. rewrite <- (rev_rev s), H. reflexivity. Qed.

Lemma trimStart_head (s : string) (c : ascii) :
  head_char (Js.trimStart s) = Some c -> Js.is_space c = false.
Proof. apply span_snd_head. Qed.

Lemma trim_no_outer_space (s : string) : no_outer_space (Js.trim s).
Proof.
  intros c. unfold Js.trim.
  set (u := Js.trimStart s). set (t := Js.trimStart (Js.rev u)).
  intros [H|H].
  - (* the first character of the result is the first character of [u] *)
    destruct (decide (t = "")) as [Et|Et]; [rewrite Et in H; discriminate|].
    pose proof (span_app Js.is_space (Js.rev u)) as Hsplit.
    fold (Js.trimStart (Js.rev u)) in Hsplit. fold t in Hsplit.
    apply (f_equal Js.rev) in Hsplit. rewrite rev_rev, rev_app in Hsplit.
    assert (Hrt : Js.rev t <> "") by (intros E; apply Et, rev_empty, E).
    apply (trimStart_head s). fold u. rewrite Hsplit, head_char_app by exact Hrt. exact H.
  - rewrite rev_rev in H. apply (trimStart_head _ _ H).
Qed.

(** X3 ([htmlToText]): the plain text never starts and never ends with
    white space. *)
Theorem X3_plain_text_has_no_outer_white_space (html : string) :
  no_outer_space (TemplateEngine.htmlToText html).
Proof. unfold TemplateEngine.htmlToText. cbv zeta. apply trim_no_outer_space. Qed.

(** *** Text without markup *)

Lemma replace_all_from_skips (m : Js.matcher) (rep : string) (q : ascii -> bool) :
  m "" = None ->
  (forall c t, q c = true -> m (String c t) = None) ->
  forall fuel s, Js.all q s = true -> Js.replace_all_from m rep fuel s = s.
Proof.
  intros Hnil Hq. induction fuel as [|fuel IH]; intros s Hs; [reflexivity|].
  destruct s as [|c s]; cbn [Js.replace_all_from].
  - rewrite Hnil. reflexivity.
  - cbn [Js.all] in Hs. apply andb_true_iff in Hs as [Hc Hs].
    rewrite (Hq c s Hc), (IH s Hs). reflexivity.
Qed.

Lemma replace_all_skips (m : Js.matcher) (rep : string) (q : ascii -> bool) (s : string) :
  m "" = None ->
  (forall c t, q c = true -> m (String c t) = None) ->
  Js.all q s = true -> Js.replace_all m rep s = s.
Proof. intros Hnil Hq Hs. apply (replace_all_from_skips m rep q Hnil Hq), Hs. Qed.

Ltac by_cases_on_text_char c :=
  destruct c as [[] [] [] [] [] [] [] []]; try discriminate; intros _; reflexivity.

Lemma re_br_text c t : text_char c = true -> TemplateEngine.re_br (String c t) = None.
Proof. by_cases_on_text_char c. Qed.

Lemma literal_ci_text p c t :
  text_char c = true -> head_char p = Some "<"%char -> Js.literal_ci p (String c t) = None.
Proof.
  destruct p as [|a p]; [discriminate|]. intros H [= ->]. revert H.
  unfold Js.literal_ci. cbn [Js.strip_prefix_ci].
  destruct c as [[] [] [] [] [] [] [] []]; try discriminate; intros _; reflexivity.
Qed.

Lemma re_heading_end_text c t :
  text_char c = true -> TemplateEngine.re_heading_end (String c t) = None.
Proof. by_cases_on_text_char c. Qed.

Lemma re_tag_text c t : text_char c = true -> TemplateEngine.re_tag (String c t) = None.
Proof. by_cases_on_text_char c. Qed.

Lemma literal_text p c t :
  text_char c = true -> head_char p = Some "&"%char -> Js.literal p (String c t) = None.
Proof.
  destruct p as [|a p]; [discriminate|]. intros H [= ->]. revert H.
  unfold Js.literal. cbn [Js.strip_prefix].
  destruct c as [[] [] [] [] [] [] [] []]; try discriminate; intros _; reflexivity.
Qed.

Lemma re_blank_lines_text c t :
  text_char c = true -> TemplateEngine.re_blank_lines (String c t) = None.
Proof.
  unfold TemplateEngine.re_blank_lines.
  destruct c as [[] [] [] [] [] [] [] []]; try discriminate; intros _; reflexivity.
Qed.

(** X4 ([htmlToText]): a text with no [<], no [&] and no line feed is only
    trimmed. *)
Theorem X4_text_without_markup_is_only_trimmed (s : string) :
  Js.all text_char s = true -> TemplateEngine.htmlToText s = Js.trim s.
Proof.
  intros Hs. unfold TemplateEngine.htmlToText. cbv zeta.
  rewrite (replace_all_skips TemplateEngine.re_br _ text_char s eq_refl re_br_text Hs).
  rewrite (replace_all_skips (Js.literal_ci "</p>") _ text_char s eq_refl
             (fun c t H => literal_ci_text "</p>" c t H eq_refl) Hs).
  rewrite (replace_all_skips (Js.literal_ci "</div>") _ text_char s eq_refl
             (fun c t H => literal_ci_text "</div>" c t H eq_refl) Hs).
  rewrite (replace_all_skips TemplateEngine.re_heading_end _ text_char s eq_refl
             re_heading_end_text Hs).
  rewrite (replace_all_skips TemplateEngine.re_tag _ text_char s eq_refl re_tag_text Hs).
  rewrite (replace_all_skips (Js.literal "&nbsp;") _ text_char s eq_refl
             (fun c t H => literal_text "&nbsp;" c t H eq_refl) Hs).
  rewrite (replace_all_skips (Js.literal "&amp;") _ text_char s eq_refl
             (fun c t H => literal_text "&amp;" c t H eq_refl) Hs).
  rewrite (replace_all_skips (Js.literal "&lt;") _ text_char s eq_refl
             (fun c t H => literal_text "&lt;" c t H eq_refl) Hs).
  rewrite (replace_all_skips (Js.literal "&gt;") _ text_char s eq_refl
             (fun c t H => literal_text "&gt;" c t H eq_refl) Hs).
  rewrite (replace_all_skips (Js.literal "&quot;") _ text_char s eq_refl
             (fun c t H => literal_text "&quot;" c t H eq_refl) Hs).
  rewrite (replace_all_skips (Js.literal "&#39;") _ text_char s eq_refl
             (fun c t H => literal_text "&#39;" c t H eq_refl) Hs).
  rewrite (replace_all_skips TemplateEngine.re_blank_lines _ text_char s eq_refl
             re_blank_lines_text Hs).
  reflexivity.
Qed.

Lemma X4_text_without_markup_witness :
  TemplateEngine.htmlToText "  Pack the bags, then go.  " = "Pack the bags, then go.".
Proof.
  rewrite (X4_text_without_markup_is_only_trimmed "  Pack the bags, then go.  ");
    reflexivity.
Defined.

(** ** Tags in the plain text *)

Lemma length_app (s t : string) :
  String.length (s +:+ t) = String.length s + String.length t.
Proof.
  induction s as [|a s IH]; [reflexivity|].
  rewrite append_cons. cbn [String.length]. rewrite IH. reflexivity.
Qed.

Lemma splitting_all (m : Js.matcher) (q : ascii -> bool) s hit rest :
  splitting m -> m s = Some (hit, rest) -> Js.all q s = true -> Js.all q rest = true.
Proof.
  intros Hm E Hs. destruct (Hm s hit rest E) as [pre ->].
  rewrite all_app in Hs. apply andb_true_iff in Hs. apply Hs.
Qed.

Lemma all_replace_all_from (m : Js.matcher) (rep : string) (q : ascii -> bool) :
  splitting m -> Js.all q rep = true ->
  forall fuel s, Js.all q s = true -> Js.all q (Js.replace_all_from m rep fuel s) = true.
Proof.
  intros Hm Hrep. induction fuel as [|fuel IH]; intros s Hs; [exact Hs|].
  cbn [Js.replace_all_from]. destruct (m s) as [[hit rest]|] eqn:E.
  - rewrite all_app, Hrep. cbn. apply IH. eapply splitting_all; eauto.
  - destruct s as [|c s]; [reflexivity|]. cbn [Js.all] in *.
    apply andb_true_iff in Hs as [Hc Hs]. rewrite Hc, (IH s Hs). reflexivity.
Qed.

Lemma all_replace_all (m : Js.matcher) (rep : string) (q : ascii -> bool) (s : string) :
  splitting m -> Js.all q rep = true -> Js.all q s = true ->
  Js.all q (Js.replace_all m rep s) = true.
Proof. intros. apply all_replace_all_from; assumption. Qed.

Lemma strip_prefix_ci_split (p s rest : string) :
  Js.strip_prefix_ci p s = Some rest -> exists pre, s = pre +:+ rest.
Proof.
  revert s. induction p as [|a p IH]; intros s.
  - cbn. intros [= <-]. exists "". reflexivity.
  - destruct s as [|b s]; [discriminate|]. cbn [Js.strip_prefix_ci].
    destruct (Ascii.eqb a (Js.to_lower b)); [|discriminate].
    intros H. destruct (IH s H) as [pre ->]. exists (String b pre). reflexivity.
Qed.

Lemma strip_prefix_split (p s rest : string) :
  Js.strip_prefix p s = Some rest -> s = p +:+ rest.
Proof.
  revert s. induction p as [|a p IH]; intros s.
  - cbn. intros [= <-]. reflexivity.
  - destruct s as [|b s]; [discriminate|]. cbn [Js.strip_prefix].
    destruct (Ascii.eqb_spec a b) as [->|]; [|discriminate].
    intros H. rewrite (IH s H). reflexivity.
Qed.

Lemma literal_splitting (p : string) : splitting (Js.literal p).
Proof.
  intros s hit rest. unfold Js.literal.
  destruct (Js.strip_prefix p s) as [r|] eqn:E; [|discriminate].
  intros [= <- <-]. exists p. apply strip_prefix_split, E.
Qed.

Lemma literal_ci_splitting (p : string) : splitting (Js.literal_ci p).
Proof.
  intros s hit rest. unfold Js.literal_ci.
  destruct (Js.strip_prefix_ci p s) as [r|] eqn:E; [|discriminate].
  intros [= <- <-]. eapply strip_prefix_ci_split, E.
Qed.

Lemma re_br_splitting : splitting TemplateEngine.re_br.
Proof.
  intros s hit rest. unfold TemplateEngine.re_br.
  destruct (Js.strip_prefix_ci "<br" s) as [after|] eqn:E; [|discriminate].
  destruct (strip_prefix_ci_split _ _ _ E) as [pre ->].
  pose proof (span_app Js.is_space after) as Hsp.
  destruct (Js.span Js.is_space after) as [ws r0]. cbn [fst snd] in *.
  cbv zeta.
  assert (Hcase : forall r1, (exists pre1, after = pre1 +:+ r1) ->
            match r1 with String ">"%char r => Some (Js.consumed (pre +:+ after) r, r)
                        | _ => None end = Some (hit, rest) ->
            exists pre0, pre +:+ after = pre0 +:+ rest).
  { intros r1 [pre1 ->] H. destruct r1 as [|c r]; [discriminate|].
    destruct (Ascii.eqb_spec c ">") as [->|Hc].
    - injection H as _ <-. exists (pre +:+ pre1 +:+ ">").
      rewrite !append_assoc. reflexivity.
    - exfalso. revert H Hc. clear.
      destruct c as [[] [] [] [] [] [] [] []]; try discriminate. congruence. }
  destruct r0 as [|c r0].
  - intros H. apply (Hcase "" (ex_intro _ after (eq_sym (append_empty_r _)))). exact H.
  - destruct (Ascii.eqb_spec c "/") as [->|Hc].
    + intros H. apply (Hcase r0); [|exact H].
      exists (ws +:+ "/"). rewrite Hsp, append_assoc. reflexivity.
    + intros H. apply (Hcase (String c r0)).
      * exists ws. exact Hsp.
      * revert H Hc. clear. destruct c as [[] [] [] [] [] [] [] []]; try congruence; auto.
Qed.

Lemma re_heading_end_splitting : splitting TemplateEngine.re_heading_end.
Proof.
  intros s hit rest. unfold TemplateEngine.re_heading_end.
  destruct (Js.strip_prefix_ci "</h" s) as [after|] eqn:E; [|discriminate].
  destruct (strip_prefix_ci_split _ _ _ E) as [pre ->].
  destruct after as [|d [|c r]]; try discriminate.
  destruct (Ascii.eqb_spec c ">") as [->|Hc].
  - destruct (_ && _); [|discriminate]. intros [= _ <-].
    exists (pre +:+ String d ">"). rewrite append_assoc. reflexivity.
  - intros H. exfalso. revert H Hc. clear.
    destruct c as [[] [] [] [] [] [] [] []]; try discriminate. congruence.
Qed.

Lemma re_tag_inv (s hit rest : string) :
  TemplateEngine.re_tag s = Some (hit, rest) ->
  exists inner, s = "<" +:+ inner +:+ ">" +:+ rest
                /\ Js.all (fun c => negb (Ascii.eqb c ">")) inner = true.
Proof.
  unfold TemplateEngine.re_tag. destruct s as [|c s1]; [discriminate|].
  destruct (Ascii.eqb_spec c "<") as [->|Hc].
  - pose proof (span_app (fun c => negb (Ascii.eqb c ">")) s1) as Hsp.
    pose proof (span_fst_all (fun c => negb (Ascii.eqb c ">")) s1) as Hin.
    destruct (Js.span _ s1) as [inner r0]. cbn [fst snd] in *.
    destruct r0 as [|d r]; [discriminate|].
    destruct (Ascii.eqb_spec d ">") as [->|Hd].
    + intros [= _ <-]. exists inner. split; [|exact Hin]. rewrite Hsp. reflexivity.
    + intros H. exfalso. revert H Hd. clear.
      destruct d as [[] [] [] [] [] [] [] []]; try discriminate. congruence.
  - intros H. exfalso. revert H Hc. clear.
    destruct c as [[] [] [] [] [] [] [] []]; try discriminate. congruence.
Qed.

Lemma re_tag_splitting : splitting TemplateEngine.re_tag.
Proof.
  intros s hit rest H. destruct (re_tag_inv s hit rest H) as (inner & -> & _).
  exists ("<" +:+ inner +:+ ">"). rewrite !append_assoc. reflexivity.
Qed.

Lemma re_tag_none (s1 : string) :
  TemplateEngine.re_tag (String "<" s1) = None ->
  Js.all (fun c => negb (Ascii.eqb c ">")) s1 = true.
Proof.
  unfold TemplateEngine.re_tag.
  pose proof (span_app (fun c => negb (Ascii.eqb c ">")) s1) as Hsp.
  pose proof (span_fst_all (fun c => negb (Ascii.eqb c ">")) s1) as Hin.
  pose proof (span_snd_head (fun c => negb (Ascii.eqb c ">")) s1) as Hhd.
  destruct (Js.span _ s1) as [inner r0]. cbn [fst snd] in *.
  destruct r0 as [|d r].
  - intros _. rewrite Hsp, append_empty_r. exact Hin.
  - specialize (Hhd d eq_refl). apply negb_false_iff in Hhd.
    apply Ascii.eqb_eq in Hhd as ->. discriminate.
Qed.

Lemma replace_tags_tag_free (fuel : nat) (s : string) :
  String.length s < fuel ->
  tag_free (Js.replace_all_from TemplateEngine.re_tag "" fuel s) = true.
Proof.
  revert s. induction fuel as [|fuel IH]; intros s Hlen; [lia|].
  cbn [Js.replace_all_from].
  destruct (TemplateEngine.re_tag s) as [[hit rest]|] eqn:E.
  - rewrite append_empty_l. apply IH.
    destruct (re_tag_inv _ _ _ E) as (inner & -> & _).
    rewrite !length_app in Hlen. cbn in Hlen. lia.
  - destruct s as [|c s]; [reflexivity|]. cbn [tag_free String.length] in *.
    rewrite IH by lia. rewrite andb_true_r.
    destruct (Ascii.eqb_spec c "<") as [->|Hc]; [|reflexivity].
    cbn [negb orb]. apply all_replace_all_from;
      [apply re_tag_splitting|reflexivity|apply re_tag_none, E].
Qed.

(** [tag_free] looks at the characters other than white space only. *)
Lemma all_filter_eq (p q : ascii -> bool) (s : string) :
  (forall c, p c = false -> q c = true) ->
  Js.all q (Js.filter p s) = Js.all q s.
Proof.
  intros H. induction s as [|c s IH]; [reflexivity|].
  cbn [Js.filter Js.all]. destruct (p c) eqn:E.
  - cbn [Js.all]. rewrite IH. reflexivity.
  - rewrite (H c E), IH. reflexivity.
Qed.

Lemma tag_free_filter (s : string) : tag_free (Js.filter not_space s) = tag_free s.
Proof.
  induction s as [|c s IH]; [reflexivity|].
  cbn [Js.filter tag_free]. destruct (not_space c) eqn:E.
  - cbn [tag_free]. rewrite IH, all_filter_eq; [reflexivity|].
    intros d. destruct d as [[] [] [] [] [] [] [] []]; vm_compute; congruence.
  - rewrite IH. replace (negb (Ascii.eqb c "<")) with true; [reflexivity|].
    revert E. destruct c as [[] [] [] [] [] [] [] []]; vm_compute; congruence.
Qed.

Lemma filter_none (p : ascii -> bool) (s : string) :
  Js.all (fun c => negb (p c)) s = true -> Js.filter p s = "".
Proof.
  induction s as [|c s IH]; [reflexivity|].
  cbn [Js.all Js.filter]. intros [Hc Hs]%andb_true_iff.
  apply negb_true_iff in Hc. rewrite Hc. auto.
Qed.

Lemma all_space_not (s : string) :
  Js.all Js.is_space s = true -> Js.all (fun c => negb (not_space c)) s = true.
Proof. apply all_weaken. intros c H. unfold not_space. rewrite H. reflexivity. Qed.

Lemma re_blank_lines_inv (s hit rest : string) :
  TemplateEngine.re_blank_lines s = Some (hit, rest) ->
  s = hit +:+ rest /\ Js.all Js.is_space hit = true /\ hit <> "".
Proof.
  unfold TemplateEngine.re_blank_lines. destruct s as [|c s1]; [discriminate|].
  destruct (Ascii.eqb_spec c TemplateEngine.LF) as [->|]; [|discriminate].
  pose proof (span_app Js.is_space s1) as Hsp.
  pose proof (span_fst_all Js.is_space s1) as Hws.
  destruct (Js.span Js.is_space s1) as [ws rest0]. cbn [fst snd] in *.
  destruct (2 <=? TemplateEngine.count_lf ws)%nat; [|discriminate].
  pose proof (span_app (fun c => negb (Ascii.eqb c TemplateEngine.LF)) (Js.rev ws)) as Hrev.
  destruct (Js.span _ (Js.rev ws)) as [tail_rev head_rev]. cbn [fst snd] in *.
  intros [= <- <-].
  apply (f_equal Js.rev) in Hrev. rewrite rev_rev, rev_app in Hrev.
  split; [|split; [|discriminate]].
  - rewrite append_cons, <- append_assoc, <- Hrev, <- Hsp. reflexivity.
  - cbn [Js.all]. change (Js.is_space TemplateEngine.LF) with true. cbn [andb].
    rewrite Hrev, all_app in Hws. apply andb_true_iff in Hws. apply Hws.
Qed.

Lemma replace_blank_lines_skeleton (fuel : nat) (s : string) :
  String.length s < fuel ->
  Js.filter not_space
    (Js.replace_all_from TemplateEngine.re_blank_lines
       (String TemplateEngine.LF (String TemplateEngine.LF "")) fuel s)
  = Js.filter not_space s.
Proof.
  revert s. induction fuel as [|fuel IH]; intros s Hlen; [lia|].
  cbn [Js.replace_all_from].
  destruct (TemplateEngine.re_blank_lines s) as [[hit rest]|] eqn:E.
  - destruct (re_blank_lines_inv _ _ _ E) as (-> & Hhit & Hne).
    rewrite !filter_app, (filter_none _ _ (all_space_not _ Hhit)).
    change (Js.filter not_space (String TemplateEngine.LF (String TemplateEngine.LF "")))
      with "".
    rewrite IH; [reflexivity|].
    rewrite length_app in Hlen.
    destruct hit; [congruence|]. cbn in Hlen. lia.
  - destruct s as [|c s]; [reflexivity|]. cbn [Js.filter String.length] in *.
    rewrite IH by lia. reflexivity.
Qed.

Lemma filter_rev_onto (p : ascii -> bool) (s acc : string) :
  Js.filter p (Js.rev_onto s acc) = Js.rev_onto (Js.filter p s) (Js.filter p acc).
Proof.
  revert acc. induction s as [|c s IH]; intros acc; [reflexivity|].
  cbn [Js.rev_onto Js.filter]. rewrite IH. cbn [Js.filter].
  destruct (p c); reflexivity.
Qed.

Lemma filter_rev (p : ascii -> bool) (s : string) :
  Js.filter p (Js.rev s) = Js.rev (Js.filter p s).
Proof. unfold Js.rev. rewrite filter_rev_onto. reflexivity. Qed.

Lemma trimStart_skeleton (s : string) :
  Js.filter not_space (Js.trimStart s) = Js.filter not_space s.
Proof.
  unfold Js.trimStart.
  rewrite (span_app Js.is_space s) at 2. rewrite filter_app.
  rewrite (filter_none _ _ (all_space_not _ (span_fst_all Js.is_space s))).
  reflexivity.
Qed.

Lemma trim_skeleton (s : string) :
  Js.filter not_space (Js.trim s) = Js.filter not_space s.
Proof.
  unfold Js.trim.
  rewrite filter_rev, trimStart_skeleton, filter_rev, rev_rev, trimStart_skeleton.
  reflexivity.
Qed.

Lemma tag_free_no_match (fuel : nat) (s : string) :
  tag_free s = true -> Js.match_all_from TemplateEngine.re_tag fuel s = [].
Proof.
  revert s. induction fuel as [|fuel IH]; intros s Hs; [reflexivity|].
  cbn [Js.match_all_from].
  destruct (TemplateEngine.re_tag s) as [[hit rest]|] eqn:E.
  - exfalso. destruct (re_tag_inv _ _ _ E) as (inner & -> & _).
    change ("<" +:+ inner +:+ ">" +:+ rest) with (String "<" (inner +:+ ">" +:+ rest)) in Hs.
    cbn [tag_free] in Hs. change (Ascii.eqb "<" "<") with true in Hs. cbn [negb orb] in Hs.
    apply andb_true_iff in Hs as [Hs _].
    rewrite !all_app in Hs. cbn in Hs. rewrite andb_false_r in Hs. discriminate.
  - destruct s as [|c s]; [reflexivity|]. cbn [tag_free] in Hs.
    apply andb_true_iff in Hs as [_ Hs]. auto.
Qed.

Lemma literal_amp_skip (p : string) (c : ascii) (t : string) :
  no_amp c = true -> head_char p = Some "&"%char -> Js.literal p (String c t) = None.
Proof.
  destruct p as [|a p]; [discriminate|]. intros H [= ->]. revert H.
  unfold Js.literal, no_amp. cbn [Js.strip_prefix].
  destruct (Ascii.eqb_spec c "&") as [->|Hc]; [discriminate|].
  intros _. destruct (Ascii.eqb_spec "&" c) as [<-|]; [congruence|reflexivity].
Qed.

(** X5 ([htmlToText]): when the HTML holds no [&], nothing in the plain
    text matches the tag pattern: every tag was removed.  (Character
    references can spell tags that come back when they are decoded, see
    [references_are_decoded_into_markup].) *)
Theorem X5_plain_text_without_references_has_no_tag (html : string) :
  Js.all no_amp html = true ->
  Js.match_all TemplateEngine.re_tag (TemplateEngine.htmlToText html) = [].
Proof.
  intros Hamp. apply tag_free_no_match.
  unfold TemplateEngine.htmlToText. cbv zeta.
  set (s1 := Js.replace_all TemplateEngine.re_br _ html).
  set (s2 := Js.replace_all (Js.literal_ci "</p>") _ s1).
  set (s3 := Js.replace_all (Js.literal_ci "</div>") _ s2).
  set (s4 := Js.replace_all TemplateEngine.re_heading_end _ s3).
  set (s5 := Js.replace_all TemplateEngine.re_tag "" s4).
  assert (H1 : Js.all no_amp s1 = true)
    by (apply all_replace_all; [apply re_br_splitting|reflexivity|exact Hamp]).
  assert (H2 : Js.all no_amp s2 = true)
    by (apply all_replace_all; [apply literal_ci_splitting|reflexivity|exact H1]).
  assert (H3 : Js.all no_amp s3 = true)
    by (apply all_replace_all; [apply literal_ci_splitting|reflexivity|exact H2]).
  assert (H4 : Js.all no_amp s4 = true)
    by (apply all_replace_all; [apply re_heading_end_splitting|reflexivity|exact H3]).
  assert (H5 : Js.all no_amp s5 = true)
    by (apply all_replace_all; [apply re_tag_splitting|reflexivity|exact H4]).
  rewrite (replace_all_skips (Js.literal "&nbsp;") _ no_amp s5 eq_refl
             (fun c t H => literal_amp_skip "&nbsp;" c t H eq_refl) H5).
  rewrite (replace_all_skips (Js.literal "&amp;") _ no_amp s5 eq_refl
             (fun c t H => literal_amp_skip "&amp;" c t H eq_refl) H5).
  rewrite (replace_all_skips (Js.literal "&lt;") _ no_amp s5 eq_refl
             (fun c t H => literal_amp_skip "&lt;" c t H eq_refl) H5).
  rewrite (replace_all_skips (Js.literal "&gt;") _ no_amp s5 eq_refl
             (fun c t H => literal_amp_skip "&gt;" c t H eq_refl) H5).
  rewrite (replace_all_skips (Js.literal "&quot;") _ no_amp s5 eq_refl
             (fun c t H => literal_amp_skip "&quot;" c t H eq_refl) H5).
  rewrite (replace_all_skips (Js.literal "&#39;") _ no_amp s5 eq_refl
             (fun c t H => literal_amp_skip "&#39;" c t H eq_refl) H5).
  rewrite <- tag_free_filter, trim_skeleton.
  unfold Js.replace_all at 1. rewrite replace_blank_lines_skeleton by lia.
  rewrite tag_free_filter. apply replace_tags_tag_free. lia.
Qed.

Lemma X5_plain_text_witness :
  Js.match_all TemplateEngine.re_tag
    (TemplateEngine.htmlToText "<p>Hello <b>world</b></p><img src=x>") = [].
Proof.
  apply (X5_plain_text_without_references_has_no_tag
           "<p>Hello <b>world</b></p><img src=x>").
  reflexivity.
Defined.

(** Character references are decoded after the tags are removed, and
    [&amp;] before the others. *)
Example references_are_decoded_into_markup :
  TemplateEngine.htmlToText "&lt;b&gt;bold&lt;/b&gt;" = "<b>bold</b>"
  /\ TemplateEngine.htmlToText "&amp;lt;b&amp;gt;" = "<b>".
Proof. split; reflexivity. Qed.

(** ** What the adapters return *)

(** X6 (Nylas [sendEmail]): when the API answers with a status that is not
    ok, the adapter returns a failure instead of throwing.  Its error is
    the first 200 characters of the response text when that text is not
    JSON ([Failed to send email] when the text is empty), and [HTTP]
    followed by the status when the text is a JSON object with neither
    [error] nor [message]. *)
Theorem X6_nylas_reports_what_the_api_answered (W : World) grantId recipients
    subject html text st response body :
  fetch W (tick st) (NylasEmailService.request W grantId recipients subject html text)
    = inr response ->
  rs_ok response = false ->
  rs_text response = inr body ->
  (JSON_parse W body = None ->
   fst (NylasEmailService.sendEmail W grantId recipients subject html text st)
   = Ret {| messageId := JString ""; success := false;
            error := Some match body with
                          | EmptyString => "Failed to send email"
                          | String _ _ => String.substring 0 200 body
                          end |})
  /\ (forall fields,
        JSON_parse W body = Some (JObject fields) ->
        JsVal.lookup "error" fields = None ->
        JsVal.lookup "message" fields = None ->
        fst (NylasEmailService.sendEmail W grantId recipients subject html text st)
        = Ret {| messageId := JString ""; success := false;
                 error := Some ("HTTP " +:+ pretty (rs_status response)) |}).
Proof.
  intros Hfetch Hok Htext.
  unfold NylasEmailService.sendEmail, NylasEmailService.attempt,
    NylasEmailService.errorMessage.
  split.
  - intros Hjson. step_monad. cbn [tick set_trace].
    rewrite Hfetch, Hok. cbn [negb]. rewrite Htext, Hjson.
    cbn [NylasEmailService.new_Error fst NylasEmailService.failure].
    destruct body as [|c body]; reflexivity.
  - intros fields Hjson Herr Hmsg. step_monad. cbn [tick set_trace].
    rewrite Hfetch, Hok. cbn [negb]. rewrite Htext, Hjson.
    cbn [JsVal.get_prop JsVal.get_prop_opt]. rewrite Herr, Hmsg.
    cbn [default JsVal.get_prop_opt JsVal.or_else TemplateEngine.truthy
         NylasEmailService.new_Error fst NylasEmailService.failure].
    reflexivity.
Qed.

Lemma X6_nylas_reports_witness :
  let W := Scenario.gateway_world in
  let st := Sample.state (Sample.user "u1" None (Some "grant-1")) in
  error <$> (match fst (NylasEmailService.sendEmail W "grant-1" ["a@b.c"] "Trip" "<p>Hi</p>" "Hi" st)
             with Ret r => Some r | Throw _ => None end)
  = Some (Some "Bad Gateway")
  /\ error <$> (match fst (NylasEmailService.sendEmail W "grant-1" ["a@b.c"] "Trip" "<p>Hi</p>" "Hi"
                            (set_tick 1 st))
                with Ret r => Some r | Throw _ => None end)
     = Some (Some "HTTP 502").
Proof.
  intros W st. split.
  - rewrite (proj1 (X6_nylas_reports_what_the_api_answered W "grant-1" ["a@b.c"] "Trip"
                      "<p>Hi</p>" "Hi" st _ "Bad Gateway" eq_refl eq_refl eq_refl) eq_refl).
    reflexivity.
  - rewrite (proj2 (X6_nylas_reports_what_the_api_answered W "grant-1" ["a@b.c"] "Trip"
                      "<p>Hi</p>" "Hi" (set_tick 1 st) _ "{}" eq_refl eq_refl eq_refl)
               [] eq_refl eq_refl eq_refl).
    reflexivity.
Defined.

Lemma new_events_of (st st' : State) (l : list event) :
  trace st' = trace st ++ l -> new_events st st' = l.
Proof. apply new_events_app. Qed.

(** X7 (Gmail [sendEmail], [getValidAccessToken], [createTransporter]):
    for a user with a refresh token and a cached access token that expires
    more than five minutes from now, the adapter asks for no refresh: it
    hands the mail to nodemailer with the cached token, returns what
    nodemailer answered, and leaves every table as it was. *)
Theorem X7_gmail_uses_a_fresh_cached_token (W : World) user recipients subject html text st :
  truthy_str (gmail_refresh_token user) = true ->
  token_is_fresh W user st = true ->
  let transporter := gmail_transporter user (gmail_access_token user) in
  let mail := gmail_mail user recipients subject html text in
  exists st',
    EmailService.sendEmail W user recipients subject html text st
      = (Ret (gmail_result (sendMail W (S (tick st)) transporter mail)), st')
    /\ users st' = users st
    /\ untouched st st'
    /\ new_events st st'
       = [EvAdapterSend Gmail recipients subject html text; EvSendMail transporter mail].
Proof.
  intros Hrefresh Hfresh transporter mail. subst transporter mail.
  unfold token_is_fresh in Hfresh.
  unfold EmailService.sendEmail, EmailService.attempt, EmailService.createTransporter,
    EmailService.getValidAccessToken, gmail_transporter, gmail_mail.
  rewrite Hrefresh. cbn [negb].
  destruct (truthy_str (gmail_access_token user)); [|discriminate].
  destruct (gmail_token_expires_at user) as [expiresAt|]; [|discriminate].
  step_monad. cbn [tick set_trace set_tick]. rewrite Hfresh.
  cbn [tick set_trace set_tick trace users].
  destruct (sendMail W _ _ _) as [e|id]; cbn [gmail_result];
    (eexists; split; [reflexivity|]; split; [reflexivity|]; split;
     [repeat split|apply new_events_of; cbn; rewrite <- app_assoc; reflexivity]).
Qed.

(** X8 (Gmail [sendEmail], [refreshAccessToken]): without such a cached
    token the adapter refreshes first.  When the refresh fails, the adapter
    returns the failure, and nothing is sent or stored.  When it succeeds,
    the new token is stored for this user, with an expiry [expiry_date ||
    3600] seconds after the refresh, and the mail goes out with the new
    token. *)
Theorem X8_gmail_refreshes_a_stale_token (W : World) user recipients subject html text st :
  truthy_str (gmail_refresh_token user) = true ->
  token_is_fresh W user st = false ->
  match oauth_refreshAccessToken W (refresh_tick user st) (gmail_refresh_token user) with
  | inl e =>
      exists st',
        EmailService.sendEmail W user recipients subject html text st
          = (Ret (EmailService.failure e), st')
        /\ users st' = users st
        /\ new_events st st' = [EvAdapterSend Gmail recipients subject html text]
  | inr credentials =>
      let transporter := gmail_transporter user (cred_access_token credentials) in
      let mail := gmail_mail user recipients subject html text in
      exists st',
        EmailService.sendEmail W user recipients subject html text st
          = (Ret (gmail_result (sendMail W (S (S (refresh_tick user st))) transporter mail)),
             st')
        /\ users st'
           = map (EmailService.store_access_token (user_id user)
                    (cred_access_token credentials)
                    (refreshed_expiry W credentials (clock W (S (refresh_tick user st)))))
               (users st)
        /\ new_events st st'
           = [EvAdapterSend Gmail recipients subject html text; EvSendMail transporter mail]
  end.
Proof.
  intros Hrefresh Hstale.
  unfold token_is_fresh in Hstale. unfold refresh_tick.
  unfold EmailService.sendEmail, EmailService.attempt, EmailService.createTransporter,
    EmailService.getValidAccessToken, EmailService.refreshAccessToken,
    gmail_transporter, gmail_mail.
  rewrite Hrefresh. cbn [negb].
  destruct (truthy_str (gmail_access_token user));
    destruct (gmail_token_expires_at user) as [expiresAt|];
    step_monad; cbn [tick set_trace set_tick]; rewrite ?Hstale;
    cbn [tick set_trace set_tick trace users];
    (destruct (oauth_refreshAccessToken W _ _) as [e|credentials];
     [ eexists; split; [reflexivity|]; split; [reflexivity|];
       apply new_events_of; reflexivity
     | cbn [tick set_trace set_tick set_users trace users];
       destruct (sendMail W _ _ _) as [e|id]; cbn [gmail_result];
       (eexists; split; [reflexivity|]; split; [reflexivity|];
        apply new_events_of; cbn; rewrite <- app_assoc; reflexivity) ]).
Qed.

Lemma X7_gmail_fresh_token_witness :
  let user := Scenario.gmail_user in
  let st := Sample.state user in
  exists st',
    EmailService.sendEmail Sample.world user ["a@b.c"] "Trip" "<p>Hi</p>" "" st
      = (Ret {| messageId := JString "<message-1@mail.gmail.com>"; success := true;
                error := None |}, st')
    /\ users st' = users st
    /\ untouched st st'
    /\ new_events st st'
       = [EvAdapterSend Gmail ["a@b.c"] "Trip" "<p>Hi</p>" "";
          EvSendMail (gmail_transporter user (Some "ya29.cached"))
            (gmail_mail user ["a@b.c"] "Trip" "<p>Hi</p>" "")].
Proof.
  exact (X7_gmail_uses_a_fresh_cached_token Sample.world Scenario.gmail_user
           ["a@b.c"] "Trip" "<p>Hi</p>" "" (Sample.state Scenario.gmail_user)
           eq_refl eq_refl).
Defined.

Lemma X8_gmail_stale_token_witness :
  let user := Sample.user "u1" (Some "1//refresh") None in
  let st := Sample.state user in
  exists st',
    EmailService.sendEmail Sample.world user ["a@b.c"] "Trip" "<p>Hi</p>" "Hi" st
      = (Ret {| messageId := JString "<message-1@mail.gmail.com>"; success := true;
                error := None |}, st')
    /\ map gmail_access_token (users st') = [Some "ya29.token"]
    /\ new_events st st'
       = [EvAdapterSend Gmail ["a@b.c"] "Trip" "<p>Hi</p>" "Hi";
          EvSendMail (gmail_transporter user (Some "ya29.token"))
            (gmail_mail user ["a@b.c"] "Trip" "<p>Hi</p>" "Hi")].
Proof.
  intros user st.
  destruct (X8_gmail_refreshes_a_stale_token Sample.world user ["a@b.c"] "Trip"
              "<p>Hi</p>" "Hi" st eq_refl eq_refl) as (st' & Hrun & Husers & Hevents).
  exists st'. split; [exact Hrun|]. split; [rewrite Husers; reflexivity|exact Hevents].
Defined.

(** ** Triples on monadic code *)

Section HoareRules.
Context {A B : Type}.
Implicit Types (P : State -> Prop) (E : thrown -> State -> Prop).

Lemma hoare_ret (a : A) P (Q : A -> State -> Prop) E :
  (forall st, P st -> Q a st) -> hoare P (mret a) Q E.
Proof. intros H st Hst. apply H, Hst. Qed.

Lemma hoare_throw (e : thrown) P (Q : A -> State -> Prop) E :
  (forall st, P st -> E e st) -> hoare P (throw e) Q E.
Proof. intros H st Hst. apply H, Hst. Qed.

Lemma hoare_bind (m : M A) (k : A -> M B) P (Q : A -> State -> Prop)
    (R : B -> State -> Prop) E :
  hoare P m Q E -> (forall a, hoare (Q a) (k a) R E) -> hoare P (x ← m; k x) R E.
Proof.
  intros Hm Hk st Hst. rewrite bind_run. specialize (Hm st Hst).
  destruct (m st) as [[a|e] st1]; [apply Hk, Hm|exact Hm].
Qed.

Lemma hoare_try_catch (m : M A) (h : thrown -> M A) P (Q : A -> State -> Prop) E' E :
  hoare P m Q E' -> (forall e, hoare (E' e) (h e) Q E) -> hoare P (try_catch m h) Q E.
Proof.
  intros Hm Hh st Hst. rewrite try_catch_run. specialize (Hm st Hst).
  destruct (m st) as [[a|e] st1]; [exact Hm|apply Hh, Hm].
Qed.

Lemma hoare_conseq (m : M A) P P' (Q Q' : A -> State -> Prop) E E' :
  hoare P m Q E ->
  (forall st, P' st -> P st) ->
  (forall a st, Q a st -> Q' a st) ->
  (forall e st, E e st -> E' e st) ->
  hoare P' m Q' E'.
Proof.
  intros Hm HP HQ HE st Hst. specialize (Hm st (HP st Hst)).
  destruct (m st) as [[a|e] st1]; auto.
Qed.

(** A run that is known to return. *)
Lemma hoare_returns (m : M A) P (Q : A -> State -> Prop) E :
  (forall st, P st -> exists a st', m st = (Ret a, st') /\ Q a st') -> hoare P m Q E.
Proof. intros H st Hst. destruct (H st Hst) as (a & st' & -> & HQ). exact HQ. Qed.

End HoareRules.

Lemma hoare_get {B} (k : State -> M B) (P : State -> Prop) (R : B -> State -> Prop) E :
  (forall s, P s -> hoare (fun st => st = s) (k s) R E) -> hoare P (s ← get; k s) R E.
Proof. intros H st Hst. rewrite bind_run. cbn. apply (H st Hst). reflexivity. Qed.

Lemma hoare_ask {A} (q : nat -> A) (P : State -> Prop) (Q : A -> State -> Prop) E :
  (forall st, P st -> Q (q (tick st)) (set_tick (S (tick st)) st)) -> hoare P (ask q) Q E.
Proof. intros H st Hst. apply H, Hst. Qed.

Lemma hoare_log (e : event) (P : State -> Prop) (Q : unit -> State -> Prop) E :
  (forall st, P st -> Q tt (set_trace (trace st ++ [e]) st)) -> hoare P (log e) Q E.
Proof. intros H st Hst. apply H, Hst. Qed.

Lemma hoare_modify (f : State -> State) (P : State -> Prop) (Q : unit -> State -> Prop) E :
  (forall st, P st -> Q tt (f st)) -> hoare P (modify f) Q E.
Proof. intros H st Hst. apply H, Hst. Qed.

(** What a route leaves behind, whether it answered or failed. *)
Lemma handler_ends (failure : string) (m : M Response) (P I : State -> Prop) st :
  hoare P m (fun _ => I) (fun _ => I) -> P st -> I (snd (handler failure m st)).
Proof.
  intros H Hst. unfold handler. specialize (H st Hst).
  destruct (m st) as [[r|e] st1]; exact H.
Qed.

Lemma route_ends {A} (failure : string) (m : M (Reply A)) (P I : State -> Prop) st :
  hoare P m (fun _ => I) (fun _ => I) -> P st -> I (snd (route failure m st)).
Proof.
  intros H Hst. unfold route. specialize (H st Hst).
  destruct (m st) as [[r|e] st1]; exact H.
Qed.

Lemma tokens_step_refl a us : tokens_step a us us.
Proof. now left. Qed.

Lemma gmail_sendEmail_users (W : World) user recipients subject html text st r st' :
  EmailService.sendEmail W user recipients subject html text st = (r, st') ->
  tokens_step (user_id user) (users st) (users st').
Proof.
  unfold EmailService.sendEmail, EmailService.attempt, EmailService.createTransporter,
    EmailService.getValidAccessToken, EmailService.refreshAccessToken.
  intros H. destruct_run; try discriminate; cbn;
    solve [now left | right; eexists _, _; reflexivity].
Qed.

Lemma kept_holding a st0 rows st : kept st0 rows st -> holding a st0 rows st.
Proof. intros (Hu & H). split; [rewrite Hu; apply tokens_step_refl|exact H]. Qed.

Lemma updateSentEmailStatus_triple (W : World) a st0 rows id status pmid err E :
  hoare (holding a st0 rows)
    (EmailService.updateSentEmailStatus W id status pmid err)
    (fun _ st =>
       exists sentAt,
         (status = Sent <-> is_Some sentAt)
         /\ holding a st0 (finalize_rows id status pmid err sentAt rows) st)
    E.
Proof.
  intros st (Hu & Hn & Ht & Hv & Hs). rewrite updateSentEmailStatus_run. cbv zeta.
  destruct (decide (status = Sent)) as [->|Hne].
  - exists (Some (clock W (tick st))). split; [split; eauto|].
    repeat split; cbn; try assumption. rewrite Hs. reflexivity.
  - exists None. split; [split; [congruence|intros []; discriminate]|].
    repeat split; cbn; try assumption. rewrite Hs. reflexivity.
Qed.

Lemma finalize_triple (W : World) a st0 rows id (r : EmailSendResult) E :
  uniform r ->
  hoare (holding a st0 rows) (Emails.finalize W id r)
    (fun _ st => exists rows', settled_rows id rows rows' /\ holding a st0 rows' st)
    E.
Proof.
  intros Hr. unfold Emails.finalize.
  destruct (success r) eqn:Hs.
  - destruct Hr as [[_ He]|[? _]]; [|congruence].
    eapply hoare_bind; [apply updateSentEmailStatus_triple|].
    intros ?. apply hoare_ret. intros st (sentAt & Hat & Hst).
    eexists. split; [|exact Hst].
    exists Sent, (Some (messageId r)), None, sentAt. split; [|reflexivity].
    left. repeat split; eauto. apply Hat. reflexivity.
  - destruct Hr as [[? _]|(_ & _ & He)]; [congruence|].
    eapply hoare_bind; [apply updateSentEmailStatus_triple|].
    intros ?. apply hoare_ret. intros st (sentAt & Hat & Hst).
    eexists. split; [|exact Hst].
    exists Failed, None, (error r), sentAt. split; [|reflexivity].
    right. repeat split; auto.
    destruct sentAt as [d|]; [|reflexivity].
    destruct Hat as [_ Hat]. discriminate Hat. eauto.
Qed.

Lemma on_send_error_triple (W : World) a st0 rows id (e : thrown) Q :
  hoare (holding a st0 rows) (Emails.on_send_error W id e)
    Q
    (fun _ st => exists rows', settled_rows id rows rows' /\ holding a st0 rows' st).
Proof.
  unfold Emails.on_send_error.
  eapply hoare_bind; [apply updateSentEmailStatus_triple|].
  intros ?. apply hoare_throw. intros st (sentAt & Hat & Hst).
  eexists. split; [|exact Hst].
  exists Failed, None, (Some (Emails.error_text e)), sentAt. split; [|reflexivity].
  right. repeat split; eauto.
  destruct sentAt as [d|]; [|reflexivity].
  destruct Hat as [_ Hat]. discriminate Hat. eauto.
Qed.

Lemma nylas_sendEmail_triple (W : World) a st0 rows grantId recipients subject html text E :
  hoare (kept st0 rows)
    (NylasEmailService.sendEmail W grantId recipients subject html text)
    (fun r st => uniform r /\ holding a st0 rows st)
    E.
Proof.
  apply hoare_returns. intros st (Hu & Hn & Ht & Hv & Hs).
  destruct (nylas_sendEmail_frame W grantId recipients subject html text st)
    as (r & st' & Hrun & Hr & (Hs' & Ht' & Hv' & Hn') & Hu' & _).
  exists r, st'. split; [exact Hrun|]. split; [exact Hr|].
  split; [left; congruence|]. repeat split; congruence.
Qed.

Lemma gmail_sendEmail_triple (W : World) st0 rows user recipients subject html text E :
  hoare (kept st0 rows)
    (EmailService.sendEmail W user recipients subject html text)
    (fun r st => uniform r /\ holding (user_id user) st0 rows st)
    E.
Proof.
  apply hoare_returns. intros st (Hu & Hn & Ht & Hv & Hs).
  destruct (gmail_sendEmail_frame W user recipients subject html text st)
    as (r & st' & rest & Hrun & Hr & (Hs' & Ht' & Hv' & Hn') & _).
  pose proof (gmail_sendEmail_users _ _ _ _ _ _ _ _ _ Hrun) as Hstep.
  exists r, st'. split; [exact Hrun|]. split; [exact Hr|].
  split; [rewrite <- Hu; exact Hstep|]. repeat split; congruence.
Qed.

Lemma select_credentials_triple a st0 rows id :
  hoare (kept st0 rows) (Emails.select_credentials id)
    (fun _ => kept st0 rows) (fun _ => holding a st0 rows).
Proof.
  intros st Hst. unfold Emails.select_credentials. step_monad. cbn [users set_trace].
  destruct (List.filter _ (users st)); [apply kept_holding|]; exact Hst.
Qed.

(** The block of POST /send behind the INSERT. *)
Lemma deliver_triple (W : World) st0 rows user id recipients subject html text :
  hoare (kept st0 rows)
    (try_catch
       (userData ← Emails.select_credentials (user_id user);
        sendResult ←
          match Emails.select_provider userData with
          | Some Nylas =>
              NylasEmailService.sendEmail W (default "" (nylas_access_token userData))
                recipients subject html text
          | Some Gmail => EmailService.sendEmail W user recipients subject html text
          | None => throw (JsError Emails.no_provider_message)
          end;
        Emails.finalize W id sendResult)
       (Emails.on_send_error W id))
    (fun _ st => exists rows', settled_rows id rows rows' /\ holding (user_id user) st0 rows' st)
    (fun _ st => exists rows', settled_rows id rows rows' /\ holding (user_id user) st0 rows' st).
Proof.
  eapply hoare_try_catch with (E' := fun _ => holding (user_id user) st0 rows);
    [|intros e; apply on_send_error_triple].
  eapply hoare_bind; [apply select_credentials_triple|].
  intros userData. cbv beta.
  eapply hoare_bind with (Q := fun r st => uniform r /\ holding (user_id user) st0 rows st).
  - destruct (Emails.select_provider userData) as [[|]|].
    + apply nylas_sendEmail_triple.
    + apply gmail_sendEmail_triple.
    + apply hoare_throw. intros st H. apply kept_holding, H.
  - intros r st [Hr Hst]. revert st Hst.
    change (hoare (holding (user_id user) st0 rows) (Emails.finalize W id r)
              (fun _ st => exists rows', settled_rows id rows rows'
                                         /\ holding (user_id user) st0 rows' st)
              (fun _ => holding (user_id user) st0 rows)).
    apply finalize_triple, Hr.
Qed.

Lemma kept_refl st : kept st (sent_emails st) st.
Proof. repeat split. Qed.

Lemma fresh_row_key (id key : string) (rows : list SentEmail) :
  existsb (fun e => String.eqb (se_id e) id || String.eqb (se_idempotency_key e) key) rows
    = false ->
  ~ In id (map se_id rows) /\ ~ In key (map se_idempotency_key rows).
Proof.
  induction rows as [|r rows IH]; [cbn; tauto|].
  cbn [existsb map In]. intros H. apply orb_false_elim in H as [H1 H2].
  apply orb_false_elim in H1 as [H1 H1'].
  apply String.eqb_neq in H1, H1'. destruct (IH H2) as [Ha Hb].
  split; intros [E|E]; [exact (H1 E)|exact (Ha E)|exact (H1' E)|exact (Hb E)].
Qed.

Lemma not_in_ids (id : string) (rows : list SentEmail) :
  ~ In id (map se_id rows) -> Forall (fun r => se_id r <> id) rows.
Proof.
  intros H. apply List.Forall_forall. intros r Hr E. apply H. rewrite <- E.
  apply List.in_map, Hr.
Qed.

Lemma filter_head_In {A} (p : A -> bool) (l : list A) x rest :
  List.filter p l = x :: rest -> In x l /\ p x = true.
Proof.
  intros H. apply List.filter_In. rewrite H. now left.
Qed.

(** What POST /send does to the tables. *)
Lemma send_changes (W : World) user rq st :
  let st' := snd (Emails.send W user rq st) in
  holding (user_id user) st (sent_emails st) st'
  \/ exists row status pmid err sentAt,
       holding (user_id user) st
         (sent_emails st ++ [EmailService.finalized status pmid err sentAt row]) st'
       /\ settling status pmid err sentAt
       /\ se_user_id row = user_id user
       /\ (exists n, In n (notes st) /\ note_id n = se_note_id row
                     /\ note_user_id n = user_id user)
       /\ (exists t, In t (email_templates st) /\ tpl_id t = se_template_id row
                     /\ tpl_user_id t = user_id user
                     /\ tpl_version t = se_template_version row)
       /\ ~ In (se_id row) (map se_id (sent_emails st))
       /\ ~ In (se_idempotency_key row) (map se_idempotency_key (sent_emails st)).
Proof.
  cbv zeta. unfold Emails.send.
  apply handler_ends with (P := fun s => s = st); [|reflexivity].
  assert (Hleft : forall s, kept st (sent_emails st) s ->
            holding (user_id user) st (sent_emails st) s
            \/ exists row status pmid err sentAt,
                 holding (user_id user) st
                   (sent_emails st ++ [EmailService.finalized status pmid err sentAt row]) s
                 /\ settling status pmid err sentAt
                 /\ se_user_id row = user_id user
                 /\ (exists n, In n (notes st) /\ note_id n = se_note_id row
                               /\ note_user_id n = user_id user)
                 /\ (exists t, In t (email_templates st) /\ tpl_id t = se_template_id row
                               /\ tpl_user_id t = user_id user
                               /\ tpl_version t = se_template_version row)
                 /\ ~ In (se_id row) (map se_id (sent_emails st))
                 /\ ~ In (se_idempotency_key row) (map se_idempotency_key (sent_emails st)))
    by (intros s Hs; left; apply kept_holding, Hs).
  destruct (Emails.missing_fields rq).
  { apply hoare_ret. intros ? ->. apply Hleft, kept_refl. }
  eapply hoare_bind with (Q := fun _ => kept st (sent_emails st)).
  { apply hoare_returns. intros ? ->.
    destruct (finalIdempotencyKey_run W (Emails.rq_idempotency_key rq) st)
      as (k & n & Hrun & _).
    exists k, (set_tick n st). split; [exact Hrun|]. repeat split. }
  intros key. apply hoare_get. intros s (Hu & Hn & Ht & Hv & Hse).
  unfold Emails.by_key. rewrite Hse, Ht, Hn.
  destruct (List.filter _ (sent_emails st)).
  2:{ apply hoare_ret. intros ? ->. apply Hleft. repeat split; assumption. }
  destruct (List.filter _ (email_templates st)) as [|template ?] eqn:Htemplate.
  { apply hoare_ret. intros ? ->. apply Hleft. repeat split; assumption. }
  apply filter_head_In in Htemplate as [Htin Htown].
  apply andb_true_iff in Htown as [Htown _]. apply andb_true_iff in Htown as [Htid Htowner].
  apply String.eqb_eq in Htid, Htowner.
  destruct (List.filter _ (notes st)) as [|note ?] eqn:Hnote.
  { apply hoare_ret. intros ? ->. apply Hleft. repeat split; assumption. }
  apply filter_head_In in Hnote as [Hin Hown].
  apply andb_true_iff in Hown as [Hid Howner].
  apply String.eqb_eq in Hid, Howner.
  eapply hoare_bind with (Q := fun _ => kept st (sent_emails st)).
  { apply hoare_log. intros ? ->. repeat split; assumption. }
  intros ?. eapply hoare_bind with (Q := fun _ => kept st (sent_emails st)).
  { intros s1 Hs1.
    destruct (TemplateEngine.renderTemplate W template note s1) as [[r|e] s2] eqn:Hr;
      apply renderTemplate_frame in Hr; subst s2; [exact Hs1|apply Hleft, Hs1]. }
  intros rendered.
  eapply hoare_bind with
    (Q := fun row s1 =>
            kept st (sent_emails st ++ [row]) s1
            /\ se_user_id row = user_id user
            /\ se_note_id row = Emails.rq_note_id rq
            /\ se_template_id row = Emails.rq_template_id rq
            /\ se_template_version row = tpl_version template
            /\ existsb (fun e => String.eqb (se_id e) (se_id row)
                                 || String.eqb (se_idempotency_key e)
                                      (se_idempotency_key row)) (sent_emails st) = false).
  { intros s1 (Hu1 & Hn1 & Ht1 & Hv1 & Hse1). rewrite INSERT_sent_email_run. cbv zeta.
    rewrite Hse1.
    destruct (fits 255 key); cbn [negb]; [|apply Hleft; repeat split; assumption].
    destruct (fits 500 (TemplateEngine.subject rendered)); cbn [negb];
      [|apply Hleft; repeat split; assumption].
    destruct (existsb _ (sent_emails st)) eqn:Hfresh.
    - apply Hleft. repeat split; assumption.
    - cbn [se_user_id se_note_id se_template_id se_template_version se_id
           se_idempotency_key].
      split; [|auto]. repeat split; cbn; assumption. }
  intros sentEmail s1 (Hk & Huser & Hnoteid & Htplid & Htplver & Hfresh).
  pose proof (deliver_triple W st (sent_emails st ++ [sentEmail]) user (se_id sentEmail)
                (Emails.rq_recipients rq) (TemplateEngine.subject rendered)
                (TemplateEngine.body_html rendered) (TemplateEngine.body_text rendered)
                s1 Hk) as H.
  destruct (fresh_row_key _ _ _ Hfresh) as [Hids Hkeys].
  assert (Hright : forall s2,
            (exists rows', settled_rows (se_id sentEmail) (sent_emails st ++ [sentEmail]) rows'
                           /\ holding (user_id user) st rows' s2) ->
            holding (user_id user) st (sent_emails st) s2
            \/ exists row status pmid err sentAt,
                 holding (user_id user) st
                   (sent_emails st ++ [EmailService.finalized status pmid err sentAt row]) s2
                 /\ settling status pmid err sentAt
                 /\ se_user_id row = user_id user
                 /\ (exists n, In n (notes st) /\ note_id n = se_note_id row
                               /\ note_user_id n = user_id user)
                 /\ (exists t, In t (email_templates st) /\ tpl_id t = se_template_id row
                               /\ tpl_user_id t = user_id user
                               /\ tpl_version t = se_template_version row)
                 /\ ~ In (se_id row) (map se_id (sent_emails st))
                 /\ ~ In (se_idempotency_key row) (map se_idempotency_key (sent_emails st))).
  { intros s2 (rows' & (status & pmid & err & sentAt & Hsettling & ->) & Hhold).
    right. exists sentEmail, status, pmid, err, sentAt.
    split.
    - unfold finalize_rows in Hhold. rewrite map_app in Hhold.
      fold (finalize_rows (se_id sentEmail) status pmid err sentAt (sent_emails st)) in Hhold.
      rewrite (finalize_rows_other _ _ _ _ _ _ (not_in_ids _ _ Hids)) in Hhold.
      cbn [map] in Hhold. rewrite String.eqb_refl in Hhold. exact Hhold.
    - split; [exact Hsettling|]. split; [exact Huser|].
      split; [exists note; rewrite Hnoteid; auto|].
      split; [exists template; rewrite Htplid, Htplver; auto|]. split; assumption. }
  destruct (try_catch _ _ s1) as [[r|e] s2]; apply Hright, H.
Qed.

(** ** What each route changes *)

(** The block of POST /sent/:id/retry behind the SELECT. *)
Lemma redeliver_triple (W : World) st0 rows user id recipients subject html text :
  hoare (kept st0 rows)
    (try_catch
       (sendResult ← EmailService.sendEmail W user recipients subject html text;
        Emails.finalize W id sendResult)
       (Emails.on_send_error W id))
    (fun _ st => exists rows', settled_rows id rows rows' /\ holding (user_id user) st0 rows' st)
    (fun _ st => exists rows', settled_rows id rows rows' /\ holding (user_id user) st0 rows' st).
Proof.
  eapply hoare_try_catch with (E' := fun _ => holding (user_id user) st0 rows);
    [|intros e; apply on_send_error_triple].
  eapply hoare_bind with (Q := fun r st => uniform r /\ holding (user_id user) st0 rows st).
  - apply gmail_sendEmail_triple.
  - intros r st [Hr Hst]. revert st Hst.
    change (hoare (holding (user_id user) st0 rows) (Emails.finalize W id r)
              (fun _ st => exists rows', settled_rows id rows rows'
                                         /\ holding (user_id user) st0 rows' st)
              (fun _ => holding (user_id user) st0 rows)).
    apply finalize_triple, Hr.
Qed.

(** What POST /sent/:id/retry does to the tables. *)
Lemma retry_changes (W : World) user id st :
  let st' := snd (Emails.retry W user id st) in
  holding (user_id user) st (sent_emails st) st'
  \/ exists r status pmid err sentAt,
       In r (sent_emails st) /\ se_id r = id /\ se_user_id r = user_id user
       /\ settling status pmid err sentAt
       /\ holding (user_id user) st
            (finalize_rows id status pmid err sentAt (sent_emails st)) st'.
Proof.
  cbv zeta. unfold Emails.retry.
  apply handler_ends with (P := fun s => s = st); [|reflexivity].
  apply hoare_get. intros s ->.
  destruct (List.filter _ (sent_emails st)) as [|sentEmail ?] eqn:Hsel.
  { apply hoare_ret. intros ? ->. left. apply kept_holding, kept_refl. }
  apply filter_head_In in Hsel as [Hin Hsel].
  apply andb_true_iff in Hsel as [Hsel _]. apply andb_true_iff in Hsel as [Hid Howner].
  apply String.eqb_eq in Hid, Howner.
  intros s1 ->.
  pose proof (redeliver_triple W st (sent_emails st) user (se_id sentEmail)
                (se_recipients sentEmail) (se_subject sentEmail) (se_body_html sentEmail)
                (se_body_text sentEmail) st (kept_refl st)) as H.
  assert (Hright : forall s2,
            (exists rows', settled_rows (se_id sentEmail) (sent_emails st) rows'
                           /\ holding (user_id user) st rows' s2) ->
            holding (user_id user) st (sent_emails st) s2
            \/ exists r status pmid err sentAt,
                 In r (sent_emails st) /\ se_id r = id /\ se_user_id r = user_id user
                 /\ settling status pmid err sentAt
                 /\ holding (user_id user) st
                      (finalize_rows id status pmid err sentAt (sent_emails st)) s2).
  { intros s2 (rows' & (status & pmid & err & sentAt & Hsettling & ->) & Hhold).
    right. exists sentEmail, status, pmid, err, sentAt. rewrite <- Hid at 2. auto. }
  destruct (try_catch _ _ st) as [[r|e] s2]; apply Hright, H.
Qed.

(** An UPDATE that leaves subject, body and variables alone does not wake
    the versioning trigger. *)
Lemma update_rows_quiet sel set rows versions :
  (forall t, Templates.content_changed t (set t) = false) ->
  Templates.update_rows sel set rows versions
  = Some (map (fun t => if sel t then set t else t) rows, versions,
          map set (List.filter sel rows)).
Proof.
  intros Hquiet. induction rows as [|t rows IH]; [reflexivity|].
  cbn [Templates.update_rows map List.filter].
  destruct (sel t).
  - unfold Templates.create_template_version. rewrite Hquiet, IH. reflexivity.
  - rewrite IH. reflexivity.
Qed.

Lemma deactivated_quiet t : Templates.content_changed t (Templates.deactivated t) = false.
Proof.
  unfold Templates.content_changed. cbn.
  rewrite !String.eqb_refl, bool_decide_eq_true_2 by reflexivity. reflexivity.
Qed.

Lemma template_delete_run (user : User) (id : string) (st : State) :
  let mine := Templates.owned_active id (user_id user) in
  let st' := snd (Templates.delete user id st) in
  fst (Templates.delete user id st)
  = match List.filter mine (email_templates st) with
    | [] => {| http_status := 404; body := BError "Template not found" None |}
    | _ :: _ => {| http_status := 200; body := BMessage "Template deleted successfully" |}
    end
  /\ email_templates st'
     = map (fun t => if mine t then Templates.deactivated t else t) (email_templates st)
  /\ email_template_versions st' = email_template_versions st
  /\ users st' = users st /\ notes st' = notes st /\ sent_emails st' = sent_emails st
  /\ trace st' = trace st.
Proof.
  cbv zeta. unfold Templates.delete, handler, Templates.UPDATE.
  rewrite bind_run, (update_rows_quiet _ _ _ _ deactivated_quiet).
  destruct (List.filter _ (email_templates st)); cbn; repeat split.
Qed.

(** X9 (DELETE /templates/:id): the route answers 404 when the caller owns
    no active template of that id, and 200 otherwise; it only clears
    [is_active] on the rows it selects: no row and no version is removed,
    and nothing else is written. *)
Theorem X9_soft_delete_only_clears_the_flag (user : User) (id : string) (st : State) :
  let mine := Templates.owned_active id (user_id user) in
  let st' := snd (Templates.delete user id st) in
  fst (Templates.delete user id st)
  = match List.filter mine (email_templates st) with
    | [] => {| http_status := 404; body := BError "Template not found" None |}
    | _ :: _ => {| http_status := 200; body := BMessage "Template deleted successfully" |}
    end
  /\ email_templates st'
     = map (fun t => if mine t then Templates.deactivated t else t) (email_templates st)
  /\ email_template_versions st' = email_template_versions st
  /\ users st' = users st /\ notes st' = notes st /\ sent_emails st' = sent_emails st
  /\ trace st' = trace st.
Proof. exact (template_delete_run user id st). Qed.

Lemma row_step_more sel set versions more r r' :
  row_step sel set versions r r' -> row_step sel set (versions ++ more) r r'.
Proof.
  intros (H1 & H2 & H3 & H4 & [H5|[H5 H6]]); repeat split; auto.
  right. split; [exact H5|]. apply in_or_app. now left.
Qed.

Lemma row_step_refl sel set versions r : sel r = false -> row_step sel set versions r r.
Proof. intros H. unfold row_step. rewrite H. repeat split; auto. Qed.

Lemma update_rows_spec sel set rows versions rows' versions' returned :
  keeps_identity set ->
  Templates.update_rows sel set rows versions = Some (rows', versions', returned) ->
  Forall2 (row_step sel set versions') rows rows'
  /\ exists more, versions' = versions ++ more.
Proof.
  intros Hset. revert versions rows' versions' returned.
  induction rows as [|OLD rows IH]; intros versions rows' versions' returned.
  { cbn. intros [= <- <- <-]. split; [constructor|]. exists []. now rewrite app_nil_r. }
  cbn [Templates.update_rows]. destruct (sel OLD) eqn:Hsel.
  - destruct (Templates.create_template_version OLD (set OLD) versions)
      as [[NEW versions1]|] eqn:Htrigger; [|discriminate].
    destruct (Templates.update_rows sel set rows versions1)
      as [[[rest' versions2] ret]|] eqn:Hrest; [|discriminate].
    intros [= <- <- <-].
    destruct (IH _ _ _ _ Hrest) as [Hrows [more Hmore]].
    destruct (Hset OLD) as (Hid & Huser & Hver).
    revert Htrigger. unfold Templates.create_template_version.
    destruct (Templates.content_changed OLD (set OLD)).
    + destruct (existsb _ versions); [discriminate|].
      destruct (Templates.INTEGER_MAX <? _)%Z; [discriminate|].
      intros [= <- <-]. split.
      * constructor; [|exact Hrows]. unfold row_step. rewrite Hsel. cbn.
        repeat split; auto; [congruence|].
        right. split; [reflexivity|]. rewrite Hmore.
        apply in_or_app. left. apply in_or_app. right. now left.
      * exists ([Templates.snapshot_of OLD] ++ more). now rewrite Hmore, <- app_assoc.
    + intros [= <- <-]. split; [|exists more; exact Hmore].
      constructor; [|exact Hrows]. unfold row_step. rewrite Hsel.
      repeat split; auto. congruence.
  - destruct (Templates.update_rows sel set rows versions)
      as [[[rest' versions2] ret]|] eqn:Hrest; [|discriminate].
    intros [= <- <- <-].
    destruct (IH _ _ _ _ Hrest) as [Hrows Hmore].
    split; [|exact Hmore]. constructor; [|exact Hrows]. apply row_step_refl, Hsel.
Qed.

Lemma Forall2_same {A} (R : A -> A -> Prop) (l : list A) :
  (forall x, In x l -> R x x) -> Forall2 R l l.
Proof.
  induction l as [|x l IH]; intros H; constructor.
  - apply H. now left.
  - apply IH. intros y Hy. apply H. now right.
Qed.

Lemma UPDATE_changes sel set st :
  keeps_identity set -> templates_step sel set st (snd (Templates.UPDATE sel set st)).
Proof.
  intros Hset. unfold Templates.UPDATE.
  destruct (Templates.update_rows sel set (email_templates st) (email_template_versions st))
    as [[[rows' versions'] returned]|] eqn:Hrun.
  - apply (update_rows_spec _ _ _ _ _ _ _ Hset) in Hrun as [Hrows Hmore].
    repeat split. right. cbn. split; assumption.
  - repeat split. left. split; reflexivity.
Qed.

Lemma edited_keeps_identity name subject body variables :
  keeps_identity (Templates.edited name subject body variables).
Proof. intros t. repeat split. Qed.

Lemma deactivated_keeps_identity : keeps_identity Templates.deactivated.
Proof. intros t. repeat split. Qed.

Lemma template_update_state (W : World) user id name subject body st :
  snd (Templates.update W user id name subject body st) = st
  \/ snd (Templates.update W user id name subject body st)
     = snd (Templates.UPDATE (Templates.owned_active id (user_id user))
              (Templates.edited name subject body
                 (VariableExtractor.extractTemplateVariables subject body)) st).
Proof.
  unfold Templates.update, handler.
  destruct (_ || _); [left; reflexivity|].
  destruct (negb _); [left; reflexivity|].
  cbv zeta.
  pass_varchar; [|left; reflexivity]. pass_varchar; [|left; reflexivity].
  right. rewrite bind_run.
  destruct (Templates.UPDATE _ _ st) as [[[|row rows]|e] st1]; reflexivity.
Qed.

Lemma template_delete_state user id st :
  snd (Templates.delete user id st)
  = snd (Templates.UPDATE (Templates.owned_active id (user_id user)) Templates.deactivated st).
Proof.
  unfold Templates.delete, handler. rewrite bind_run.
  destruct (Templates.UPDATE _ _ st) as [[[|row rows]|e] st1]; reflexivity.
Qed.

Lemma templates_step_refl sel set st : templates_step sel set st st.
Proof. repeat split. left. split; reflexivity. Qed.

(** What POST /templates does to the tables. *)
Lemma template_create_changes (W : World) user name subject body st :
  let st' := snd (Templates.create W user name subject body st) in
  users st' = users st /\ notes st' = notes st /\ sent_emails st' = sent_emails st
  /\ email_template_versions st' = email_template_versions st
  /\ (email_templates st' = email_templates st
      \/ exists row,
           email_templates st' = email_templates st ++ [row]
           /\ tpl_user_id row = user_id user
           /\ ~ In (tpl_id row) (map tpl_id (email_templates st))).
Proof.
  cbv zeta. unfold Templates.create, handler.
  destruct (_ || _); [cbn; repeat split; now left|].
  destruct (negb _); [cbn; repeat split; now left|].
  cbv zeta.
  pass_varchar; [|cbn; repeat split; now left].
  pass_varchar; [|cbn; repeat split; now left].
  step_monad. cbn [email_templates set_tick].
  destruct (existsb _ (email_templates st)) eqn:Hfresh; cbn; repeat split; [now left|].
  right. eexists. split; [reflexivity|]. split; [reflexivity|]. cbn.
  intros Hin. apply in_map_iff in Hin as (t & Ht & Hin).
  assert (existsb (fun t => String.eqb (tpl_id t) (gen_random_uuid W (tick st)))
            (email_templates st) = true); [|congruence].
  apply existsb_exists. exists t. split; [exact Hin|]. now apply String.eqb_eq.
Qed.

(** The routes that read leave every table as it is. *)
Lemma template_get_quiet user id st :
  kept st (sent_emails st) (snd (TemplateViews.get_one user id st)).
Proof.
  unfold TemplateViews.get_one, route. rewrite bind_run. cbn.
  destruct (List.filter _ _); apply kept_refl.
Qed.

Lemma note_get_quiet user id st :
  kept st (sent_emails st) (snd (Notes.get_one user id st)).
Proof.
  unfold Notes.get_one, route. rewrite bind_run. cbn.
  destruct (List.filter _ _); apply kept_refl.
Qed.

Lemma preview_quiet (W : World) user templateId noteId st :
  kept st (sent_emails st) (snd (TemplateViews.preview W user templateId noteId st)).
Proof.
  unfold TemplateViews.preview.
  apply route_ends with (P := fun s => s = st); [|reflexivity].
  apply hoare_get. intros s ->.
  destruct (List.filter _ (email_templates st)) as [|template ?];
    [apply hoare_ret; intros ? ->; apply kept_refl|].
  destruct (List.filter _ (notes st)) as [|note ?];
    [apply hoare_ret; intros ? ->; apply kept_refl|].
  eapply hoare_bind with (Q := fun _ => kept st (sent_emails st)).
  { apply hoare_log. intros ? ->. repeat split. }
  intros ?. eapply hoare_bind with (Q := fun _ => kept st (sent_emails st)).
  { intros s1 Hs1.
    destruct (TemplateEngine.renderTemplate W template note s1) as [[r|e] s2] eqn:Hr;
      apply renderTemplate_frame in Hr; subst s2; exact Hs1. }
  intros rendered. apply hoare_ret. auto.
Qed.

(** What the note routes do to the tables. *)
Lemma note_create_changes (W : World) now user title content st :
  let st' := snd (Notes.create W now user title content st) in
  users st' = users st /\ sent_emails st' = sent_emails st
  /\ email_templates st' = email_templates st
  /\ email_template_versions st' = email_template_versions st
  /\ (notes st' = notes st
      \/ exists row,
           notes st' = notes st ++ [row]
           /\ note_user_id row = user_id user
           /\ ~ In (note_id row) (map note_id (notes st))).
Proof.
  cbv zeta. unfold Notes.create, route.
  destruct (_ || _); [cbn; repeat split; now left|].
  pass_varchar; [|cbn; repeat split; now left].
  step_monad. cbn [notes set_tick].
  destruct (existsb _ (notes st)) eqn:Hfresh; cbn; repeat split; [now left|].
  right. eexists. split; [reflexivity|]. split; [reflexivity|]. cbn.
  intros Hin. apply in_map_iff in Hin as (n & Hn & Hin).
  assert (existsb (fun n => String.eqb (note_id n) (gen_random_uuid W (tick st)))
            (notes st) = true); [|congruence].
  apply existsb_exists. exists n. split; [exact Hin|]. now apply String.eqb_eq.
Qed.

Lemma note_update_changes now user id title content st :
  let st' := snd (Notes.update now user id title content st) in
  users st' = users st /\ sent_emails st' = sent_emails st
  /\ email_templates st' = email_templates st
  /\ email_template_versions st' = email_template_versions st
  /\ (notes st' = notes st
      \/ exists at_,
           notes st' = map (fun n => if note_owned id (user_id user) n
                                     then Notes.edited title content at_ n else n)
                         (notes st)).
Proof.
  cbv zeta. unfold Notes.update, route.
  destruct (_ || _); [cbn; repeat split; now left|].
  pass_varchar; [|cbn; repeat split; now left].
  step_monad. cbn [notes set_tick].
  destruct (List.filter _ (notes st)); cbn; repeat split; right; eexists; reflexivity.
Qed.

Lemma note_delete_changes user id st :
  let st' := snd (Notes.delete user id st) in
  users st' = users st
  /\ email_templates st' = email_templates st
  /\ email_template_versions st' = email_template_versions st
  /\ ((notes st' = notes st /\ sent_emails st' = sent_emails st)
      \/ (exists n, In n (notes st) /\ note_owned id (user_id user) n = true)
         /\ notes st' = List.filter (fun n => negb (note_owned id (user_id user) n)) (notes st)
         /\ sent_emails st'
            = List.filter (fun r => negb (String.eqb (se_note_id r) id)) (sent_emails st)).
Proof.
  cbv zeta. unfold Notes.delete, route. rewrite bind_run. cbn.
  destruct (List.filter _ (notes st)) as [|n rest] eqn:Hsel; cbn; repeat split;
    [now left|].
  right. split; [|split; reflexivity].
  exists n. apply (filter_head_In _ _ _ _ Hsel).
Qed.

(** ** Invariants of the routes *)

(** *** Lemmas on lists of rows *)

Section Foreign.
Context {A : Type} (owner : A -> string) (a : string).

Lemma foreign_app (l l' : list A) :
  foreign owner a (l ++ l') = foreign owner a l ++ foreign owner a l'.
Proof. apply List.filter_app. Qed.

Lemma foreign_own (x : A) : owner x = a -> foreign owner a [x] = [].
Proof. intros H. unfold foreign. cbn. rewrite H, String.eqb_refl. reflexivity. Qed.

Lemma foreign_app_own (l : list A) (x : A) :
  owner x = a -> foreign owner a (l ++ [x]) = foreign owner a l.
Proof. intros H. rewrite foreign_app, (foreign_own x H). apply app_nil_r. Qed.

Lemma foreign_Forall2 (R : A -> A -> Prop) (l l' : list A) :
  (forall r r', R r r' -> owner r' = owner r /\ (owner r <> a -> r' = r)) ->
  Forall2 R l l' -> foreign owner a l' = foreign owner a l.
Proof.
  intros HR. induction 1 as [|r r' l l' Hr _ IH]; [reflexivity|].
  destruct (HR r r' Hr) as [Ho Hsame]. unfold foreign in *. cbn [List.filter].
  rewrite Ho, IH. destruct (String.eqb_spec (owner r) a) as [|Hne]; [reflexivity|].
  cbn [negb]. rewrite (Hsame Hne). reflexivity.
Qed.

Lemma foreign_map (f : A -> A) (l : list A) :
  (forall r, In r l -> owner (f r) = owner r /\ (owner r <> a -> f r = r)) ->
  foreign owner a (map f l) = foreign owner a l.
Proof.
  induction l as [|r l IH]; intros H; [reflexivity|].
  destruct (H r (or_introl eq_refl)) as [Ho Hsame]. unfold foreign in *. cbn [map List.filter].
  rewrite Ho, IH by (intros x Hx; apply H; now right).
  destruct (String.eqb_spec (owner r) a) as [|Hne]; [reflexivity|].
  cbn [negb]. rewrite (Hsame Hne). reflexivity.
Qed.

Lemma foreign_filter (p : A -> bool) (l : list A) :
  (forall r, In r l -> p r = false -> owner r = a) ->
  foreign owner a (List.filter p l) = foreign owner a l.
Proof.
  induction l as [|r l IH]; intros H; [reflexivity|].
  specialize (IH (fun x Hx => H x (or_intror Hx))).
  unfold foreign in *. simpl. destruct (p r) eqn:Hp.
  - simpl. rewrite IH. reflexivity.
  - rewrite IH, (H r (or_introl eq_refl) Hp), String.eqb_refl. reflexivity.
Qed.

End Foreign.

Lemma NoDup_map_snoc {A B} (f : A -> B) (l : list A) (x : A) :
  NoDup (map f l) -> ~ In (f x) (map f l) -> NoDup (map f (l ++ [x])).
Proof.
  intros Hl Hx. rewrite map_app. cbn [map].
  apply NoDup_ListNoDup. apply NoDup_ListNoDup in Hl.
  induction (map f l) as [|y ys IH]; cbn.
  - constructor; [intros []|constructor].
  - inversion Hl as [|? ? Hy Hys]; subst. constructor.
    + intros Hin. apply in_app_or in Hin as [Hin|[<-|[]]]; [exact (Hy Hin)|].
      apply Hx. now left.
    + apply IH; [exact Hys|]. intros Hin. apply Hx. now right.
Qed.

Lemma NoDup_map_filter {A B} (f : A -> B) (p : A -> bool) (l : list A) :
  NoDup (map f l) -> NoDup (map f (List.filter p l)).
Proof.
  rewrite !NoDup_ListNoDup.
  induction l as [|x l IH]; cbn; [auto|].
  intros H. inversion H as [|? ? Hx Hl]; subst. specialize (IH Hl).
  destruct (p x); [|exact IH]. cbn. constructor; [|exact IH].
  intros Hin. apply Hx. apply in_map_iff in Hin as (y & Hy & Hin).
  apply List.filter_In in Hin as [Hin _]. rewrite <- Hy. now apply List.in_map.
Qed.

Lemma NoDup_map_same {A B} (f : A -> B) (l : list A) x y :
  NoDup (map f l) -> In x l -> In y l -> f x = f y -> x = y.
Proof.
  rewrite NoDup_ListNoDup.
  induction l as [|z l IH]; cbn; [tauto|].
  intros H Hx Hy E. inversion H as [|? ? Hz Hl]; subst.
  destruct Hx as [<-|Hx], Hy as [<-|Hy]; auto.
  - exfalso. apply Hz. rewrite E. now apply List.in_map.
  - exfalso. apply Hz. rewrite <- E. now apply List.in_map.
Qed.

Lemma Forall2_In_l {A B} (R : A -> B -> Prop) l l' x :
  Forall2 R l l' -> In x l -> exists y, In y l' /\ R x y.
Proof.
  induction 1 as [|r r' l l' Hr _ IH]; cbn; [tauto|].
  intros [<-|Hx]; [exists r'; auto|].
  destruct (IH Hx) as (y & Hy & HR). exists y. auto.
Qed.

Lemma Forall2_In_r {A B} (R : A -> B -> Prop) l l' y :
  Forall2 R l l' -> In y l' -> exists x, In x l /\ R x y.
Proof.
  induction 1 as [|r r' l l' Hr _ IH]; cbn; [tauto|].
  intros [<-|Hy]; [exists r; auto|].
  destruct (IH Hy) as (x & Hx & HR). exists x. auto.
Qed.

Lemma Forall2_map_eq {A B} (R : A -> A -> Prop) (f : A -> B) l l' :
  (forall r r', R r r' -> f r' = f r) -> Forall2 R l l' -> map f l' = map f l.
Proof.
  intros HR. induction 1 as [|r r' l l' Hr _ IH]; [reflexivity|].
  cbn. rewrite (HR _ _ Hr), IH. reflexivity.
Qed.

Lemma finalize_rows_In id status pmid err sentAt rows r' :
  In r' (finalize_rows id status pmid err sentAt rows) ->
  exists r, In r rows
            /\ (r' = r \/ (se_id r = id
                           /\ r' = EmailService.finalized status pmid err sentAt r)).
Proof.
  unfold finalize_rows. intros H. apply in_map_iff in H as (r & Hr & Hin).
  exists r. split; [exact Hin|].
  destruct (String.eqb_spec (se_id r) id); [right|left]; auto.
Qed.

Lemma finalize_rows_map {B} (f : SentEmail -> B) id status pmid err sentAt rows :
  (forall r, f (EmailService.finalized status pmid err sentAt r) = f r) ->
  map f (finalize_rows id status pmid err sentAt rows) = map f rows.
Proof.
  intros Hf. unfold finalize_rows. rewrite map_map. apply map_ext.
  intros r. destruct (String.eqb (se_id r) id); [apply Hf|reflexivity].
Qed.

Lemma tokens_step_foreign a us us' :
  tokens_step a us us' -> foreign user_id a us' = foreign user_id a us.
Proof.
  intros [-> | (token & expires & ->)]; [reflexivity|].
  apply foreign_map. intros u _. unfold EmailService.store_access_token.
  destruct (String.eqb_spec (user_id u) a); cbn; split; auto. congruence.
Qed.

Lemma holding_others a st rows st' :
  holding a st rows st' ->
  foreign se_user_id a rows = foreign se_user_id a (sent_emails st) ->
  others_same a st st'.
Proof.
  intros (Hu & Hn & Ht & Hv & Hs) Hrows. split.
  - apply tokens_step_foreign, Hu.
  - now rewrite Hn.
  - now rewrite Ht.
  - now rewrite Hs.
Qed.

Lemma kept_others a st st' : kept st (sent_emails st) st' -> others_same a st st'.
Proof. intros H. apply (holding_others a st (sent_emails st)); [apply kept_holding, H|reflexivity]. Qed.

Lemma templates_step_others a id set st st' :
  templates_step (Templates.owned_active id a) set st st' -> others_same a st st'.
Proof.
  intros (Hu & Hn & Hs & Hrows). split; [now rewrite Hu|now rewrite Hn| |now rewrite Hs].
  destruct Hrows as [[-> _]|[Hrows _]]; [reflexivity|].
  eapply foreign_Forall2; [|exact Hrows].
  intros r r' (_ & Ho & _ & Hsame & _). split; [exact Ho|].
  intros Hne. apply Hsame. unfold Templates.owned_active.
  destruct (String.eqb_spec (tpl_user_id r) a); [contradiction|].
  now rewrite andb_false_r.
Qed.

(** X13 (isolation): in a database that meets the constraints, a request
    of user [a] to any of the routes leaves the users, notes, templates and
    records of every other user as they were. *)
Theorem X13_a_request_leaves_the_others_alone (W : World) (now : nat -> Date)
    (a : string) (st st' : State) :
  request W now a st st' -> sound st -> others_same a st st'.
Proof.
  intros Hreq Hsound. destruct Hreq as
    [user name subject body st Ha | user id name subject body st Ha | user id st Ha
    | user id st Ha | user templateId noteId st Ha
    | user rq st Ha | user id st Ha
    | user id st Ha | user title content st Ha | user id title content st Ha
    | user id st Ha]; subst a.
  - (* POST /templates *)
    destruct (template_create_changes W user name subject body st)
      as (Hu & Hn & Hs & _ & Ht).
    split; [now rewrite Hu|now rewrite Hn| |now rewrite Hs].
    destruct Ht as [-> | (row & -> & Ho & _)]; [reflexivity|].
    apply foreign_app_own, Ho.
  - (* PUT /templates/:id *)
    destruct (template_update_state W user id name subject body st) as [-> | ->].
    + apply kept_others, kept_refl.
    + eapply templates_step_others, UPDATE_changes, edited_keeps_identity.
  - (* DELETE /templates/:id *)
    rewrite template_delete_state.
    eapply templates_step_others, UPDATE_changes, deactivated_keeps_identity.
  - apply kept_others, template_get_quiet.
  - apply kept_others, preview_quiet.
  - (* POST /send *)
    destruct (send_changes W user rq st)
      as [H|(row & status & pmid & err & sentAt & H & _ & Ho & _)].
    + apply (holding_others _ _ _ _ H). reflexivity.
    + apply (holding_others _ _ _ _ H). apply foreign_app_own. exact Ho.
  - (* POST /sent/:id/retry *)
    destruct (retry_changes W user id st)
      as [H|(r & status & pmid & err & sentAt & Hin & Hid & Ho & _ & H)].
    + apply (holding_others _ _ _ _ H). reflexivity.
    + apply (holding_others _ _ _ _ H). unfold finalize_rows. apply foreign_map.
      intros r2 Hin2. destruct (String.eqb_spec (se_id r2) id) as [E|]; [|auto].
      split; [reflexivity|]. intros Hne. exfalso. apply Hne.
      rewrite <- Ho. f_equal.
      apply (NoDup_map_same se_id (sent_emails st)); [apply Hsound| | |congruence]; assumption.
  - apply kept_others, note_get_quiet.
  - (* POST /notes *)
    destruct (note_create_changes W now user title content st)
      as (Hu & Hs & Ht & _ & Hn).
    split; [now rewrite Hu| |now rewrite Ht|now rewrite Hs].
    destruct Hn as [-> | (row & -> & Ho & _)]; [reflexivity|].
    apply foreign_app_own, Ho.
  - (* PUT /notes/:id *)
    destruct (note_update_changes now user id title content st)
      as (Hu & Hs & Ht & _ & Hn).
    split; [now rewrite Hu| |now rewrite Ht|now rewrite Hs].
    destruct Hn as [-> | (at_ & ->)]; [reflexivity|].
    apply foreign_map. intros n _. unfold note_owned.
    destruct (String.eqb_spec (note_user_id n) (user_id user)).
    + destruct (String.eqb (note_id n) id); cbn; split; auto; congruence.
    + rewrite andb_false_r. auto.
  - (* DELETE /notes/:id *)
    destruct (note_delete_changes user id st)
      as (Hu & Ht & _ & [[Hn Hs]|((n0 & Hin0 & Hown0) & Hn & Hs)]).
    + split; [now rewrite Hu|now rewrite Hn|now rewrite Ht|now rewrite Hs].
    + apply andb_true_iff in Hown0 as [Hid0 Ho0]. apply String.eqb_eq in Hid0, Ho0.
      split; [now rewrite Hu| |now rewrite Ht|].
      * rewrite Hn. apply foreign_filter. intros n _ Hp.
        apply negb_false_iff, andb_true_iff in Hp as [_ Hp]. now apply String.eqb_eq.
      * rewrite Hs. apply foreign_filter. intros r Hr Hp.
        apply negb_false_iff, String.eqb_eq in Hp.
        destruct (record_notes st Hsound r Hr) as (n & Hin & Hnid & Hno).
        rewrite <- Hno, <- Ho0. f_equal.
        apply (NoDup_map_same note_id (notes st)); [apply Hsound| | |congruence]; assumption.
Qed.

Ltac request_cases Hreq :=
  destruct Hreq as
    [user name subject body st Ha | user id name subject body st Ha | user id st Ha
    | user id st Ha | user templateId noteId st Ha
    | user rq st Ha | user id st Ha
    | user id st Ha | user title content st Ha | user id title content st Ha
    | user id st Ha]; subst.

Lemma sound_same st st' :
  sound st ->
  notes st' = notes st -> email_templates st' = email_templates st ->
  sent_emails st' = sent_emails st -> sound st'.
Proof. intros [] Hn Ht Hs. split; rewrite ?Hn, ?Ht, ?Hs; assumption. Qed.

Lemma kept_sound st st' : sound st -> kept st (sent_emails st) st' -> sound st'.
Proof. intros H (_ & Hn & Ht & _ & Hs). now apply (sound_same st). Qed.

Lemma templates_step_sound sel set st st' :
  sound st -> templates_step sel set st st' -> sound st'.
Proof.
  intros Hsound (Hu & Hn & Hs & [[Ht _]|[Hrows _]]); [now apply (sound_same st)|].
  destruct Hsound as [H1 H2 H3 H4 H5 H6].
  assert (Hids : map tpl_id (email_templates st') = map tpl_id (email_templates st)).
  { eapply Forall2_map_eq; [|exact Hrows]. now intros r r' (E & _). }
  split; rewrite ?Hn, ?Hs, ?Hids; try assumption.
  intros r Hr. destruct (H6 r Hr) as (t & Hin & Hid & Ho).
  destruct (Forall2_In_l _ _ _ _ Hrows Hin) as (t' & Hin' & (Hid' & Ho' & _)).
  exists t'. split; [exact Hin'|]. split; congruence.
Qed.

(** X14 (integrity): every route keeps the constraints of schema.sql:
    unique ids of notes, templates and records, unique idempotency keys, and
    for each record a note and a template that belong to its owner. *)
Theorem X14_requests_keep_the_constraints (W : World) (now : nat -> Date)
    (a : string) (st st' : State) :
  request W now a st st' -> sound st -> sound st'.
Proof.
  intros Hreq Hsound. request_cases Hreq.
  - (* POST /templates *)
    destruct (template_create_changes W user name subject body st)
      as (Hu & Hn & Hs & _ & Ht).
    destruct Ht as [Ht|(row & Ht & Ho & Hfresh)]; [now apply (sound_same st)|].
    destruct Hsound as [H1 H2 H3 H4 H5 H6].
    split; rewrite ?Hn, ?Hs, ?Ht; try assumption.
    + apply NoDup_map_snoc; assumption.
    + intros r Hr. destruct (H6 r Hr) as (t & Hin & Hid & Hto).
      exists t. split; [apply in_or_app; now left|auto].
  - destruct (template_update_state W user id name subject body st) as [-> | ->];
      [exact Hsound|].
    eapply templates_step_sound, UPDATE_changes, edited_keeps_identity. exact Hsound.
  - rewrite template_delete_state.
    eapply templates_step_sound, UPDATE_changes, deactivated_keeps_identity. exact Hsound.
  - eapply kept_sound, template_get_quiet. exact Hsound.
  - eapply kept_sound, preview_quiet. exact Hsound.
  - (* POST /send *)
    destruct (send_changes W user rq st)
      as [(_ & Hn & Ht & _ & Hs)
         |(row & status & pmid & err & sentAt & (_ & Hn & Ht & _ & Hs) & _ & Ho
           & (n & Hnin & Hnid & Hno) & (t & Htin & Htid & Hto & _) & Hid & Hkey)];
      [now apply (sound_same st)|].
    destruct Hsound as [H1 H2 H3 H4 H5 H6].
    split; rewrite ?Hn, ?Ht, ?Hs; try assumption.
    + apply NoDup_map_snoc; assumption.
    + apply NoDup_map_snoc; assumption.
    + intros r Hr. apply in_app_or in Hr as [Hr|[<-|[]]]; [auto|].
      exists n. cbn. split; [exact Hnin|]. split; congruence.
    + intros r Hr. apply in_app_or in Hr as [Hr|[<-|[]]]; [auto|].
      exists t. cbn. split; [exact Htin|]. split; congruence.
  - (* POST /sent/:id/retry *)
    destruct (retry_changes W user id st)
      as [(_ & Hn & Ht & _ & Hs)
         |(r0 & status & pmid & err & sentAt & _ & _ & _ & _ & (_ & Hn & Ht & _ & Hs))];
      [now apply (sound_same st)|].
    destruct Hsound as [H1 H2 H3 H4 H5 H6].
    split; rewrite ?Hn, ?Ht, ?Hs, ?finalize_rows_map by reflexivity; try assumption.
    + intros r Hr. apply finalize_rows_In in Hr as (r1 & Hr1 & [-> | [_ ->]]);
        destruct (H5 r1 Hr1) as (n & ? & ? & ?); exists n; auto.
    + intros r Hr. apply finalize_rows_In in Hr as (r1 & Hr1 & [-> | [_ ->]]);
        destruct (H6 r1 Hr1) as (t & ? & ? & ?); exists t; auto.
  - eapply kept_sound, note_get_quiet. exact Hsound.
  - (* POST /notes *)
    destruct (note_create_changes W now user title content st)
      as (Hu & Hs & Ht & _ & Hn).
    destruct Hn as [Hn|(row & Hn & Ho & Hfresh)]; [now apply (sound_same st)|].
    destruct Hsound as [H1 H2 H3 H4 H5 H6].
    split; rewrite ?Hn, ?Hs, ?Ht; try assumption.
    + apply NoDup_map_snoc; assumption.
    + intros r Hr. destruct (H5 r Hr) as (n & Hin & Hid & Hno).
      exists n. split; [apply in_or_app; now left|auto].
  - (* PUT /notes/:id *)
    destruct (note_update_changes now user id title content st)
      as (Hu & Hs & Ht & _ & Hn).
    destruct Hn as [Hn|(at_ & Hn)]; [now apply (sound_same st)|].
    destruct Hsound as [H1 H2 H3 H4 H5 H6].
    assert (Hids : map note_id (notes (snd (Notes.update now user id title content st)))
                   = map note_id (notes st)).
    { rewrite Hn, map_map. apply map_ext. intros n. now destruct (note_owned _ _ n). }
    split; rewrite ?Hids, ?Hs, ?Ht; try assumption.
    intros r Hr. destruct (H5 r Hr) as (n & Hin & Hid & Hno). rewrite Hn.
    exists (if note_owned id (user_id user) n then Notes.edited title content at_ n else n).
    split; [|now destruct (note_owned _ _ n)].
    apply (List.in_map (fun n => if note_owned id (user_id user) n
                                 then Notes.edited title content at_ n else n) _ _ Hin).
  - (* DELETE /notes/:id *)
    destruct (note_delete_changes user id st)
      as (Hu & Ht & _ & [[Hn Hs]|(_ & Hn & Hs)]); [now apply (sound_same st)|].
    destruct Hsound as [H1 H2 H3 H4 H5 H6].
    split; rewrite ?Hn, ?Hs, ?Ht; try (apply NoDup_map_filter); try assumption.
    + intros r Hr. apply List.filter_In in Hr as [Hr Hkeep].
      destruct (H5 r Hr) as (n & Hin & Hid & Hno).
      exists n. split; [|auto]. apply List.filter_In. split; [exact Hin|].
      unfold note_owned. rewrite Hid.
      apply negb_true_iff in Hkeep. rewrite Hkeep. reflexivity.
    + intros r Hr. apply List.filter_In in Hr as [Hr _]. auto.
Qed.

Lemma settled_finalized status pmid err sentAt r :
  settling status pmid err sentAt ->
  settled (EmailService.finalized status pmid err sentAt r).
Proof. intros H. exact H. Qed.

(** X15 (no record stays pending): when every stored record is settled,
    so is every record after a request: POST /send and the retry leave the
    record they write either sent, with a message id and a time, or failed,
    with an error message. *)
Theorem X15_no_record_stays_pending (W : World) (now : nat -> Date)
    (a : string) (st st' : State) :
  request W now a st st' ->
  Forall settled (sent_emails st) -> Forall settled (sent_emails st').
Proof.
  intros Hreq Hall. request_cases Hreq.
  - destruct (template_create_changes W user name subject body st) as (_ & _ & -> & _).
    exact Hall.
  - destruct (template_update_state W user id name subject body st) as [-> | ->];
      [exact Hall|].
    destruct (UPDATE_changes (Templates.owned_active id (user_id user)) _ st
                (edited_keeps_identity name subject body
                   (VariableExtractor.extractTemplateVariables subject body)))
      as (_ & _ & -> & _).
    exact Hall.
  - rewrite template_delete_state.
    destruct (UPDATE_changes (Templates.owned_active id (user_id user)) _ st
                deactivated_keeps_identity) as (_ & _ & -> & _).
    exact Hall.
  - destruct (template_get_quiet user id st) as (_ & _ & _ & _ & ->). exact Hall.
  - destruct (preview_quiet W user templateId noteId st) as (_ & _ & _ & _ & ->). exact Hall.
  - destruct (send_changes W user rq st)
      as [(_ & _ & _ & _ & ->)
         |(row & status & pmid & err & sentAt & (_ & _ & _ & _ & ->) & Hsettling & _)];
      [exact Hall|].
    apply Forall_app. split; [exact Hall|].
    constructor; [apply settled_finalized, Hsettling|constructor].
  - destruct (retry_changes W user id st)
      as [(_ & _ & _ & _ & ->)
         |(r0 & status & pmid & err & sentAt & _ & _ & _ & Hsettling & (_ & _ & _ & _ & ->))];
      [exact Hall|].
    apply List.Forall_forall. intros r Hr.
    apply finalize_rows_In in Hr as (r1 & Hr1 & [-> | [_ ->]]).
    + revert r1 Hr1. apply List.Forall_forall, Hall.
    + apply settled_finalized, Hsettling.
  - destruct (note_get_quiet user id st) as (_ & _ & _ & _ & ->). exact Hall.
  - destruct (note_create_changes W now user title content st) as (_ & -> & _). exact Hall.
  - destruct (note_update_changes now user id title content st) as (_ & -> & _). exact Hall.
  - destruct (note_delete_changes user id st) as (_ & _ & _ & [[_ ->]|(_ & _ & ->)]);
      [exact Hall|].
    apply List.Forall_forall. intros r Hr. apply List.filter_In in Hr as [Hr _].
    revert r Hr. apply List.Forall_forall, Hall.
Qed.

Lemma version_on_file_same st st' r r' :
  email_templates st' = email_templates st ->
  email_template_versions st' = email_template_versions st ->
  se_template_id r' = se_template_id r ->
  se_template_version r' = se_template_version r ->
  version_on_file st r -> version_on_file st' r'.
Proof. unfold version_on_file. intros -> -> -> ->. auto. Qed.

Lemma version_on_file_step sel set st st' r :
  templates_step sel set st st' -> version_on_file st r -> version_on_file st' r.
Proof.
  intros (_ & _ & _ & [[Ht Hv]|[Hrows [more Hv]]]).
  { now apply version_on_file_same. }
  intros [(t & Hin & Hid & Hver)|(v & Hin & Hid & Hver)].
  - destruct (Forall2_In_l _ _ _ _ Hrows Hin)
      as (t' & Hin' & (Hid' & _ & _ & _ & [Hsame|[_ Hsnap]])).
    + left. exists t'. split; [exact Hin'|]. split; congruence.
    + right. exists (Templates.snapshot_of t). split; [exact Hsnap|]. cbn. auto.
  - right. exists v. split; [rewrite Hv; apply in_or_app; now left|auto].
Qed.

(** X16 (the version a record names stays on file): when, for each
    record, the template version it names is in the template row or among
    the archived versions, this still holds after any request: editing and
    soft-deleting a template never lose the version a mail was sent from. *)
Theorem X16_the_version_a_record_names_stays_on_file (W : World) (now : nat -> Date)
    (a : string) (st st' : State) :
  request W now a st st' ->
  Forall (version_on_file st) (sent_emails st) ->
  Forall (version_on_file st') (sent_emails st').
Proof.
  intros Hreq Hall. rewrite List.Forall_forall in Hall. apply List.Forall_forall.
  request_cases Hreq.
  - destruct (template_create_changes W user name subject body st)
      as (_ & _ & -> & Hv & Ht).
    intros r Hr. destruct (Hall r Hr) as [(t & Hin & H)|(v & Hin & H)].
    + left. exists t. split; [|exact H].
      destruct Ht as [-> | (row & -> & _)]; [exact Hin|apply in_or_app; now left].
    + right. exists v. rewrite Hv. auto.
  - destruct (template_update_state W user id name subject body st) as [-> | ->];
      [exact Hall|].
    pose proof (UPDATE_changes (Templates.owned_active id (user_id user)) _ st
                  (edited_keeps_identity name subject body
                     (VariableExtractor.extractTemplateVariables subject body))) as Hstep.
    destruct Hstep as (Hu & Hn & Hs & Hrows). rewrite Hs. intros r Hr.
    eapply version_on_file_step; [|apply Hall, Hr]. repeat split; eassumption.
  - rewrite template_delete_state.
    pose proof (UPDATE_changes (Templates.owned_active id (user_id user)) _ st
                  deactivated_keeps_identity) as Hstep.
    destruct Hstep as (Hu & Hn & Hs & Hrows). rewrite Hs. intros r Hr.
    eapply version_on_file_step; [|apply Hall, Hr]. repeat split; eassumption.
  - destruct (template_get_quiet user id st) as (_ & _ & Ht & Hv & ->).
    intros r Hr. now apply (version_on_file_same st _ r), Hall.
  - destruct (preview_quiet W user templateId noteId st) as (_ & _ & Ht & Hv & ->).
    intros r Hr. now apply (version_on_file_same st _ r), Hall.
  - destruct (send_changes W user rq st)
      as [(_ & _ & Ht & Hv & ->)
         |(row & status & pmid & err & sentAt & (_ & _ & Ht & Hv & ->) & _ & _ & _
           & (t & Htin & Htid & _ & Htver) & _)].
    + intros r Hr. now apply (version_on_file_same st _ r), Hall.
    + intros r Hr. apply in_app_or in Hr as [Hr|[<-|[]]].
      * now apply (version_on_file_same st _ r), Hall.
      * left. exists t. rewrite Ht. cbn. auto.
  - destruct (retry_changes W user id st)
      as [(_ & _ & Ht & Hv & ->)
         |(r0 & status & pmid & err & sentAt & _ & _ & _ & _ & (_ & _ & Ht & Hv & ->))].
    + intros r Hr. now apply (version_on_file_same st _ r), Hall.
    + intros r Hr. apply finalize_rows_In in Hr as (r1 & Hr1 & [-> | [_ ->]]);
        now apply (version_on_file_same st _ r1), Hall.
  - destruct (note_get_quiet user id st) as (_ & _ & Ht & Hv & ->).
    intros r Hr. now apply (version_on_file_same st _ r), Hall.
  - destruct (note_create_changes W now user title content st) as (_ & -> & Ht & Hv & _).
    intros r Hr. now apply (version_on_file_same st _ r), Hall.
  - destruct (note_update_changes now user id title content st) as (_ & -> & Ht & Hv & _).
    intros r Hr. now apply (version_on_file_same st _ r), Hall.
  - destruct (note_delete_changes user id st) as (_ & Ht & Hv & [[_ ->]|(_ & _ & ->)]).
    + intros r Hr. now apply (version_on_file_same st _ r), Hall.
    + intros r Hr. apply List.filter_In in Hr as [Hr _].
      now apply (version_on_file_same st _ r), Hall.
Qed.

(** *** Soft delete is final *)

Lemma retired_same id st st' :
  email_templates st' = email_templates st -> retired id st -> retired id st'.
Proof. unfold retired. now intros ->. Qed.

Lemma retired_step id sel set st st' :
  (forall t, sel t = true -> tpl_is_active t = true) ->
  templates_step sel set st st' -> retired id st -> retired id st'.
Proof.
  intros Hsel (_ & _ & _ & [[Ht _]|[Hrows _]]); [now apply retired_same|].
  intros [(t & Hin & Hid) Hoff]. split.
  - destruct (Forall2_In_l _ _ _ _ Hrows Hin) as (t' & Hin' & (Hid' & _)).
    exists t'. split; [exact Hin'|congruence].
  - intros t' Hin' Hid'.
    destruct (Forall2_In_r _ _ _ _ Hrows Hin') as (t0 & Hin0 & (Hid0 & _ & _ & Hsame & _)).
    assert (Hoff0 : tpl_is_active t0 = false) by (apply Hoff; [exact Hin0|congruence]).
    rewrite (Hsame ltac:(destruct (sel t0) eqn:E;
                         [rewrite (Hsel _ E) in Hoff0; discriminate|reflexivity])).
    exact Hoff0.
Qed.

Lemma owned_active_is_active id user t :
  Templates.owned_active id user t = true -> tpl_is_active t = true.
Proof. unfold Templates.owned_active. now intros [_ H]%andb_true_iff. Qed.

Lemma request_keeps_retired (W : World) now a tid st st' :
  request W now a st st' -> retired tid st -> retired tid st'.
Proof.
  intros Hreq Hret. request_cases Hreq.
  - destruct (template_create_changes W user name subject body st)
      as (_ & _ & _ & _ & [Ht|(row & Ht & _ & Hfresh)]); [now apply (retired_same tid st)|].
    destruct Hret as [(t & Hin & Hid) Hoff]. split.
    + exists t. rewrite Ht. split; [apply in_or_app; now left|exact Hid].
    + intros t' Hin' Hid'. rewrite Ht in Hin'.
      apply in_app_or in Hin' as [Hin'|[<-|[]]]; [now apply Hoff|].
      exfalso. apply Hfresh. rewrite Hid', <- Hid. now apply List.in_map.
  - destruct (template_update_state W user id name subject body st) as [-> | ->];
      [exact Hret|].
    eapply retired_step; [apply owned_active_is_active| |exact Hret].
    apply UPDATE_changes, edited_keeps_identity.
  - rewrite template_delete_state.
    eapply retired_step; [apply owned_active_is_active| |exact Hret].
    apply UPDATE_changes, deactivated_keeps_identity.
  - destruct (template_get_quiet user id st) as (_ & _ & Ht & _).
    now apply (retired_same tid st).
  - destruct (preview_quiet W user templateId noteId st) as (_ & _ & Ht & _).
    now apply (retired_same tid st).
  - destruct (send_changes W user rq st)
      as [(_ & _ & Ht & _)|(? & ? & ? & ? & ? & (_ & _ & Ht & _) & _)];
      now apply (retired_same tid st).
  - destruct (retry_changes W user id st)
      as [(_ & _ & Ht & _)|(? & ? & ? & ? & ? & _ & _ & _ & _ & (_ & _ & Ht & _))];
      now apply (retired_same tid st).
  - destruct (note_get_quiet user id st) as (_ & _ & Ht & _).
    now apply (retired_same tid st).
  - destruct (note_create_changes W now user title content st) as (_ & _ & Ht & _).
    now apply (retired_same tid st).
  - destruct (note_update_changes now user id title content st) as (_ & _ & Ht & _).
    now apply (retired_same tid st).
  - destruct (note_delete_changes user id st) as (_ & Ht & _).
    now apply (retired_same tid st).
Qed.

Lemma requests_keep_retired (W : World) now id st st' :
  requests W now st st' -> retired id st -> retired id st'.
Proof.
  induction 1 as [|st1 st2 st3 [a Hreq] _ IH]; [auto|].
  intros H. apply IH. eapply request_keeps_retired; eassumption.
Qed.

Lemma retired_not_selected id user st :
  retired id st ->
  List.filter (Templates.owned_active id user) (email_templates st) = [].
Proof.
  intros [_ Hoff].
  destruct (List.filter _ _) as [|t rest] eqn:Hsel; [reflexivity|].
  apply filter_head_In in Hsel as [Hin Hsel].
  pose proof (owned_active_id _ _ _ Hsel) as Hid.
  apply owned_active_is_active in Hsel. rewrite (Hoff t Hin Hid) in Hsel. discriminate.
Qed.

Lemma delete_retires user id st :
  NoDup (map tpl_id (email_templates st)) ->
  http_status (fst (Templates.delete user id st)) = 200%Z ->
  retired id (snd (Templates.delete user id st)).
Proof.
  intros Hids Hok.
  destruct (template_delete_run user id st) as (Hresp & Ht & _).
  cbv zeta in Hresp, Ht. rewrite Hresp in Hok.
  destruct (List.filter _ (email_templates st)) as [|t rest] eqn:Hsel; [discriminate|].
  apply filter_head_In in Hsel as [Hin Hsel].
  pose proof (owned_active_id _ _ _ Hsel) as Hid.
  split.
  - exists (Templates.deactivated t). rewrite Ht. split; [|exact Hid].
    apply in_map_iff. exists t. rewrite Hsel. auto.
  - intros t' Hin' Hid'. rewrite Ht in Hin'.
    apply in_map_iff in Hin' as (t0 & <- & Hin0).
    assert (t0 = t).
    { apply (NoDup_map_same tpl_id (email_templates st)); auto.
      destruct (Templates.owned_active id (user_id user) t0); cbn in Hid'; congruence. }
    subst t0. rewrite Hsel. reflexivity.
Qed.

Lemma filter_nil_Forall {A} (p : A -> bool) (l : list A) :
  List.filter p l = [] -> Forall (fun r => p r = false) l.
Proof.
  induction l as [|x l IH]; cbn; [constructor|].
  destruct (p x) eqn:E; [discriminate|]. intros H. constructor; auto.
Qed.

Lemma send_without_template (W : World) user rq st resp st' :
  List.filter (Templates.owned_active (Emails.rq_template_id rq) (user_id user))
    (email_templates st) = [] ->
  Emails.send W user rq st = (resp, st') ->
  trace st' = trace st /\ sent_emails st' = sent_emails st.
Proof.
  intros Hnone. unfold Emails.send, handler.
  destruct (Emails.missing_fields rq); [cbn; intros [= <- <-]; split; reflexivity|].
  rewrite bind_run.
  destruct (finalIdempotencyKey_run W (Emails.rq_idempotency_key rq) st)
    as (key & n & -> & _).
  rewrite bind_run. unfold get at 1. cbn beta iota.
  replace (Emails.by_key key (set_tick n st)) with (Emails.by_key key st) by reflexivity.
  destruct (Emails.by_key key st);
    [|step_monad; intros [= <- <-]; split; reflexivity].
  cbn [email_templates set_tick]. rewrite Hnone.
  step_monad. intros [= <- <-]. split; reflexivity.
Qed.

(** X10 (a soft delete is final): once DELETE /templates/:id answered 200
    on a table with unique ids, and whatever requests of whatever users
    follow, no route finds the template again: GET, preview and DELETE
    answer 404, PUT never answers 200, and a POST /send that names it
    stores no record and reaches no adapter. *)
Theorem X10_a_deleted_template_never_comes_back (W : World) (now : nat -> Date)
    (user : User) (id : string) (st st2 : State) :
  NoDup (map tpl_id (email_templates st)) ->
  http_status (fst (Templates.delete user id st)) = 200%Z ->
  requests W now (snd (Templates.delete user id st)) st2 ->
  forall u,
    fst (TemplateViews.get_one u id st2)
      = {| reply_status := 404; reply_body := PError "Template not found" |}
    /\ fst (Templates.delete u id st2)
       = {| http_status := 404; body := BError "Template not found" None |}
    /\ (forall noteId,
          fst (TemplateViews.preview W u id noteId st2)
          = {| reply_status := 404; reply_body := PError "Template not found" |})
    /\ (forall name subject body,
          http_status (fst (Templates.update W u id name subject body st2)) <> 200%Z)
    /\ (forall rq,
          Emails.rq_template_id rq = id ->
          trace (snd (Emails.send W u rq st2)) = trace st2
          /\ sent_emails (snd (Emails.send W u rq st2)) = sent_emails st2).
Proof.
  intros Hids Hok Hreqs u.
  pose proof (requests_keep_retired W now id _ _ Hreqs (delete_retires user id st Hids Hok))
    as Hret.
  pose proof (retired_not_selected id (user_id u) st2 Hret) as Hnone.
  split; [|split; [|split; [|split]]].
  - unfold TemplateViews.get_one, route. rewrite bind_run. cbn. rewrite Hnone. reflexivity.
  - destruct (template_delete_run u id st2) as (-> & _). cbv zeta. rewrite Hnone. reflexivity.
  - intros noteId. unfold TemplateViews.preview, route. rewrite bind_run. cbn.
    rewrite Hnone. reflexivity.
  - intros name subject body. unfold Templates.update, handler.
    destruct (_ || _); [cbn; discriminate|].
    destruct (negb _); [cbn; discriminate|].
    cbv zeta.
    pass_varchar; [|cbn; discriminate]. pass_varchar; [|cbn; discriminate].
    rewrite bind_run. unfold Templates.UPDATE.
    rewrite (update_rows_none _ _ _ _ (filter_nil_Forall _ _ Hnone)). cbn. discriminate.
  - intros rq <-. destruct (Emails.send W u rq st2) as [resp st3] eqn:Hrun.
    apply (send_without_template W u rq st2 resp st3 Hnone Hrun).
Qed.

(** ** Round trips through the routes *)

Lemma update_rows_nothing sel set rows versions rows' versions' :
  Templates.update_rows sel set rows versions = Some (rows', versions', []) ->
  rows' = rows /\ versions' = versions.
Proof.
  revert versions rows' versions'. induction rows as [|OLD rows IH];
    intros versions rows' versions'; cbn [Templates.update_rows].
  { intros [= <- <-]. auto. }
  destruct (sel OLD).
  - destruct (Templates.create_template_version _ _ _) as [[NEW versions1]|]; [|discriminate].
    destruct (Templates.update_rows sel set rows versions1) as [[[? ?] ?]|]; discriminate.
  - destruct (Templates.update_rows sel set rows versions) as [[[rest' versions2] ret]|] eqn:E;
      [|discriminate].
    intros [= <- <- ->]. destruct (IH _ _ _ E) as [-> ->]. auto.
Qed.

(** X11 (POST /templates, PUT /templates/:id): a request that is not
    answered with 201, respectively 200, leaves every table as it was. *)
Theorem X11_a_refused_template_changes_nothing (W : World) (user : User)
    (id name subject body : string) (st : State) :
  (http_status (fst (Templates.create W user name subject body st)) <> 201%Z ->
   same_tables st (snd (Templates.create W user name subject body st)))
  /\ (http_status (fst (Templates.update W user id name subject body st)) <> 200%Z ->
      same_tables st (snd (Templates.update W user id name subject body st))).
Proof.
  split.
  - unfold Templates.create, handler.
    destruct (_ || _); [intros _; apply kept_refl|].
    destruct (negb _); [intros _; apply kept_refl|].
    cbv zeta.
    pass_varchar; [|intros _; apply kept_refl]. pass_varchar; [|intros _; apply kept_refl].
    step_monad. cbn [email_templates set_tick].
    destruct (existsb _ (email_templates st)); cbn; [intros _; repeat split|congruence].
  - unfold Templates.update, handler.
    destruct (_ || _); [intros _; apply kept_refl|].
    destruct (negb _); [intros _; apply kept_refl|].
    cbv zeta.
    pass_varchar; [|intros _; apply kept_refl]. pass_varchar; [|intros _; apply kept_refl].
    rewrite bind_run. unfold Templates.UPDATE.
    destruct (Templates.update_rows _ _ _ _) as [[[rows' versions'] returned]|] eqn:Hrun;
      [|intros _; apply kept_refl].
    destruct returned as [|row ?]; cbn; [|congruence].
    destruct (update_rows_nothing _ _ _ _ _ _ Hrun) as [-> ->]. intros _. repeat split.
Qed.

Lemma filter_none_In {A} (p : A -> bool) (l : list A) :
  (forall x, In x l -> p x = false) -> List.filter p l = [].
Proof.
  induction l as [|x l IH]; intros H; [reflexivity|].
  cbn. rewrite (H x (or_introl eq_refl)). apply IH. intros y Hy. apply H. now right.
Qed.

Lemma existsb_false_In {A} (p : A -> bool) (l : list A) x :
  existsb p l = false -> In x l -> p x = false.
Proof.
  intros H Hx. destruct (p x) eqn:E; [|reflexivity].
  assert (existsb p l = true) by (apply existsb_exists; eauto). congruence.
Qed.

(** X12 (POST /templates, then GET /templates/:id): a template created
    with 201 is the row appended to the table, with version 1 and the
    variables extracted from its subject and body; no version is archived;
    its owner reads it back unchanged, and every other user gets 404. *)
Theorem X12_a_created_template_can_be_fetched (W : World) (user : User)
    (name subject body : string) (st st' : State) (row : EmailTemplate) :
  Templates.create W user name subject body st
    = ({| http_status := 201; body := BTemplate row |}, st') ->
  row = {| tpl_id := gen_random_uuid W (tick st); tpl_user_id := user_id user;
           tpl_name := name; tpl_subject := subject; tpl_body := body;
           tpl_variables := VariableExtractor.extractTemplateVariables subject body;
           tpl_version := 1; tpl_is_active := true |}
  /\ email_templates st' = email_templates st ++ [row]
  /\ email_template_versions st' = email_template_versions st
  /\ fst (TemplateViews.get_one user (tpl_id row) st')
     = {| reply_status := 200; reply_body := PData row |}
  /\ forall other,
       user_id other <> user_id user ->
       fst (TemplateViews.get_one other (tpl_id row) st')
       = {| reply_status := 404; reply_body := PError "Template not found" |}.
Proof.
  unfold Templates.create, handler.
  destruct (_ || _); [cbn; discriminate|].
  destruct (negb _); [cbn; discriminate|].
  cbv zeta.
  pass_varchar; [|cbn; discriminate]. pass_varchar; [|cbn; discriminate].
  step_monad. cbn [email_templates set_tick].
  destruct (existsb _ (email_templates st)) eqn:Hfresh; [cbn; discriminate|].
  intros [= <- <-]. split; [reflexivity|]. split; [reflexivity|]. split; [reflexivity|].
  assert (Hnone : forall u, List.filter (Templates.owned_active (gen_random_uuid W (tick st)) u)
                              (email_templates st) = []).
  { intros u. apply filter_none_In. intros t Ht.
    pose proof (existsb_false_In _ _ t Hfresh Ht) as Hne. cbn in Hne.
    unfold Templates.owned_active. rewrite Hne. reflexivity. }
  split.
  - unfold TemplateViews.get_one, route. rewrite bind_run. cbn.
    rewrite List.filter_app, Hnone. cbn. unfold Templates.owned_active. cbn.
    rewrite !String.eqb_refl. reflexivity.
  - intros other Hother.
    unfold TemplateViews.get_one, route. rewrite bind_run. cbn.
    rewrite List.filter_app, Hnone. cbn. unfold Templates.owned_active. cbn.
    apply String.eqb_neq in Hother. rewrite String.eqb_sym in Hother.
    rewrite Hother, andb_false_r. reflexivity.
Qed.

Lemma send_without_note (W : World) user rq st resp st' :
  List.filter (note_owned (Emails.rq_note_id rq) (user_id user)) (notes st) = [] ->
  Emails.send W user rq st = (resp, st') ->
  trace st' = trace st /\ sent_emails st' = sent_emails st.
Proof.
  intros Hnone. unfold Emails.send, handler.
  destruct (Emails.missing_fields rq); [cbn; intros [= <- <-]; split; reflexivity|].
  rewrite bind_run.
  destruct (finalIdempotencyKey_run W (Emails.rq_idempotency_key rq) st)
    as (key & n & -> & _).
  rewrite bind_run. unfold get at 1. cbn beta iota.
  replace (Emails.by_key key (set_tick n st)) with (Emails.by_key key st) by reflexivity.
  destruct (Emails.by_key key st);
    [|step_monad; intros [= <- <-]; split; reflexivity].
  cbn [email_templates notes set_tick].
  destruct (List.filter _ (email_templates st));
    [step_monad; intros [= <- <-]; split; reflexivity|].
  unfold note_owned in Hnone. rewrite Hnone.
  step_monad. intros [= <- <-]. split; reflexivity.
Qed.

Lemma note_delete_run (user : User) (id : string) (st : State) :
  Notes.delete user id st =
  match List.filter (note_owned id (user_id user)) (notes st) with
  | [] => ({| reply_status := 404; reply_body := PError "Note not found" |}, st)
  | _ :: _ =>
      ({| reply_status := 200; reply_body := PMessage "Note deleted successfully" |},
       set_sent_emails
         (List.filter (fun r => negb (String.eqb (se_note_id r) id)) (sent_emails st))
         (set_notes (List.filter (fun n => negb (note_owned id (user_id user) n)) (notes st))
            st))
  end.
Proof.
  unfold Notes.delete, route. rewrite bind_run. unfold get at 1. cbn beta iota.
  destruct (List.filter _ (notes st)); reflexivity.
Qed.

(** X18 (DELETE /notes/:id): when the route answered 200, the records of
    the note are deleted with it (ON DELETE CASCADE) and all the others
    stay, the idempotency keys of the deleted records are free again, GET
    does not find the note, and a POST /send that names it stores nothing
    and reaches no adapter. *)
Theorem X18_deleting_a_note_deletes_its_records (W : World) (user : User) (id : string)
    (st : State) :
  sound st ->
  reply_status (fst (Notes.delete user id st)) = 200%Z ->
  let st' := snd (Notes.delete user id st) in
  sent_emails st'
    = List.filter (fun r => negb (String.eqb (se_note_id r) id)) (sent_emails st)
  /\ (forall r, In r (sent_emails st) -> se_note_id r = id ->
        Emails.by_key (se_idempotency_key r) st' = [])
  /\ (forall u,
        fst (Notes.get_one u id st')
        = {| reply_status := 404; reply_body := PError "Note not found" |})
  /\ (forall u rq,
        Emails.rq_note_id rq = id ->
        trace (snd (Emails.send W u rq st')) = trace st'
        /\ sent_emails (snd (Emails.send W u rq st')) = sent_emails st').
Proof.
  intros Hsound. cbv zeta. rewrite note_delete_run.
  destruct (List.filter _ (notes st)) as [|n0 rest] eqn:Hsel; [cbn; discriminate|].
  intros _. cbn [snd].
  apply filter_head_In in Hsel as [Hin0 Hown0].
  pose proof Hown0 as Hown. apply andb_true_iff in Hown as [Hid0 _].
  apply String.eqb_eq in Hid0.
  match goal with |- context [set_sent_emails ?rs (set_notes ?ns st)] =>
    set (st' := set_sent_emails rs (set_notes ns st)) end.
  assert (Hgone : forall u, List.filter (note_owned id u) (notes st') = []).
  { intros u. apply filter_none_In. intros n Hin.
    apply List.filter_In in Hin as [Hin Hkeep].
    unfold note_owned. destruct (String.eqb_spec (note_id n) id) as [E|]; [|reflexivity].
    exfalso. assert (n = n0).
    { apply (NoDup_map_same note_id (notes st)); [apply Hsound| | |congruence]; assumption. }
    subst n. rewrite Hown0 in Hkeep. discriminate. }
  split; [reflexivity|]. split; [|split].
  - intros r Hr Hnote. unfold Emails.by_key.
    apply filter_none_In. intros r2 Hr2. apply List.filter_In in Hr2 as [Hr2 Hkeep].
    destruct (String.eqb_spec (se_idempotency_key r2) (se_idempotency_key r)) as [E|];
      [|reflexivity].
    exfalso. assert (r2 = r).
    { apply (NoDup_map_same se_idempotency_key (sent_emails st));
        [apply Hsound| | |exact E]; assumption. }
    subst r2. rewrite Hnote, String.eqb_refl in Hkeep. discriminate.
  - intros u. unfold Notes.get_one, route. rewrite bind_run. unfold get at 1.
    cbn beta iota. rewrite Hgone. reflexivity.
  - intros u rq <-.
    destruct (Emails.send W u rq st') as [resp st3] eqn:Hrun.
    apply (send_without_note W u rq st' resp st3 (Hgone (user_id u)) Hrun).
Qed.

(** X19 (POST /notes, GET /notes/:id, PUT /notes/:id): a created note is
    read back by its owner as it was stored, every other user gets 404, and
    an update with a content and a title of at most 255 characters, the
    width of the column, returns and stores them under the same id, owner
    and creation time. *)
Theorem X19_a_note_is_read_back_as_written (W : World) (now : nat -> Date) (user : User)
    (title content : string) (st st' : State) (row : Note) :
  Notes.create W now user title content st
    = ({| reply_status := 201; reply_body := PData row |}, st') ->
  row = {| note_id := gen_random_uuid W (tick st); note_user_id := user_id user;
           note_title := title; note_content := content;
           note_created_at := now (S (tick st)); note_updated_at := now (S (tick st)) |}
  /\ fst (Notes.get_one user (note_id row) st')
     = {| reply_status := 200; reply_body := PData row |}
  /\ (forall other,
        user_id other <> user_id user ->
        fst (Notes.get_one other (note_id row) st')
        = {| reply_status := 404; reply_body := PError "Note not found" |})
  /\ forall title2 content2,
       title2 <> "" -> content2 <> "" -> String.length title2 <= 255 ->
       let run := Notes.update now user (note_id row) title2 content2 st' in
       let row2 := {| note_id := note_id row; note_user_id := user_id user;
                      note_title := title2; note_content := content2;
                      note_created_at := note_created_at row;
                      note_updated_at := now (tick st') |} in
       fst run = {| reply_status := 200; reply_body := PData row2 |}
       /\ fst (Notes.get_one user (note_id row) (snd run))
          = {| reply_status := 200; reply_body := PData row2 |}.
Proof.
  unfold Notes.create, route.
  destruct (_ || _); [cbn; discriminate|].
  pass_varchar; [|cbn; discriminate].
  step_monad. cbn [notes set_tick].
  destruct (existsb _ (notes st)) eqn:Hfresh; [cbn; discriminate|].
  intros [= <- <-]. split; [reflexivity|].
  set (id := gen_random_uuid W (tick st)).
  assert (Hnone : forall u, List.filter (note_owned id u) (notes st) = []).
  { intros u. apply filter_none_In. intros n Hn.
    pose proof (existsb_false_In _ _ n Hfresh Hn) as Hne. cbn in Hne.
    unfold note_owned. fold id in Hne. rewrite Hne. reflexivity. }
  assert (Hmine : forall n, note_id n = id -> note_user_id n = user_id user ->
                            note_owned id (user_id user) n = true).
  { intros n H1 H2. unfold note_owned. rewrite H1, H2, !String.eqb_refl. reflexivity. }
  split; [|split].
  - unfold Notes.get_one, route. rewrite bind_run. cbn.
    rewrite List.filter_app, Hnone. cbn. rewrite Hmine by reflexivity. reflexivity.
  - intros other Hother.
    unfold Notes.get_one, route. rewrite bind_run. cbn.
    rewrite List.filter_app, Hnone. cbn. unfold note_owned. cbn.
    apply String.eqb_neq in Hother. rewrite String.eqb_sym in Hother.
    rewrite Hother, andb_false_r. reflexivity.
  - intros title2 content2 Ht2 Hc2 Hw2. cbv zeta. cbn [note_id note_created_at].
    assert (Hrow : note_owned id (user_id user)
                     {| note_id := id; note_user_id := user_id user;
                        note_title := title; note_content := content;
                        note_created_at := now (S (tick st));
                        note_updated_at := now (S (tick st)) |} = true)
      by (apply Hmine; reflexivity).
    assert (Hrow2 : note_owned id (user_id user)
                      {| note_id := id; note_user_id := user_id user;
                         note_title := title2; note_content := content2;
                         note_created_at := now (S (tick st));
                         note_updated_at := now (S (S (tick st))) |} = true)
      by (apply Hmine; reflexivity).
    unfold Notes.update, route.
    destruct (String.eqb_spec title2 "") as [|_]; [contradiction|].
    destruct (String.eqb_spec content2 "") as [|_]; [contradiction|]. cbn [orb].
    apply Nat.leb_le in Hw2. fold (fits 255 title2) in Hw2.
    rewrite bind_run, varchar_run, Hw2. cbv beta iota.
    step_monad. cbn [notes set_tick set_notes tick].
    rewrite List.filter_app, Hnone. cbn [List.filter app].
    rewrite Hrow. cbn [fst snd].
    split; [reflexivity|].
    unfold Notes.get_one, route. rewrite bind_run. cbn.
    rewrite map_app, List.filter_app. cbn [map List.filter].
    rewrite Hrow. unfold Notes.edited at 2 3.
    cbn [note_id note_user_id note_created_at]. rewrite Hrow2.
    assert (Hnone2 : List.filter (note_owned id (user_id user))
                       (map (fun n => if note_owned id (user_id user) n
                                      then Notes.edited title2 content2
                                             (now (S (S (tick st)))) n else n)
                          (notes st)) = []).
    { apply filter_none_In. intros m Hm. apply in_map_iff in Hm as (n1 & <- & Hn1).
      assert (Hn1' : note_owned id (user_id user) n1 = false).
      { pose proof (existsb_false_In _ _ n1 Hfresh Hn1) as Hne. cbn in Hne.
        unfold note_owned. fold id in Hne. rewrite Hne. reflexivity. }
      rewrite Hn1'. exact Hn1'. }
    rewrite Hnone2. reflexivity.
Qed.

(** ** The form handlers *)

Lemma trimStart_fixed (s : string) :
  (forall c, head_char s = Some c -> Js.is_space c = false) -> Js.trimStart s = s.
Proof.
  intros H. unfold Js.trimStart. destruct s as [|c s]; [reflexivity|].
  cbn [Js.span]. rewrite (H c eq_refl). reflexivity.
Qed.

Lemma trim_fixed (s : string) : no_outer_space s -> Js.trim s = s.
Proof.
  intros H. unfold Js.trim.
  rewrite (trimStart_fixed s) by (intros c Hc; apply H; now left).
  rewrite (trimStart_fixed (Js.rev s)) by (intros c Hc; apply H; now right).
  apply rev_rev.
Qed.

Lemma trim_trim (s : string) : Js.trim (Js.trim s) = Js.trim s.
Proof. apply trim_fixed, trim_no_outer_space. Qed.

Lemma split_no_separator (sep : ascii) (s : string) :
  Forall (fun piece => Js.all (fun c => negb (Ascii.eqb c sep)) piece = true)
    (Pages.split sep s).
Proof.
  induction s as [|c s IH]; [repeat constructor|].
  cbn [Pages.split]. destruct (Ascii.eqb c sep) eqn:E.
  - constructor; [reflexivity|exact IH].
  - destruct (Pages.split sep s) as [|piece rest].
    + constructor; [cbn; now rewrite E|constructor].
    + inversion IH as [|? ? Hp Hr]; subst. constructor; [cbn; now rewrite E, Hp|exact Hr].
Qed.

Lemma recipientList_clean (recipients : string) :
  Forall clean_recipient (Pages.recipientList recipients).
Proof.
  unfold Pages.recipientList. apply List.Forall_forall. intros email Hin.
  apply List.filter_In in Hin as [Hin Hlen].
  apply in_map_iff in Hin as (piece & <- & Hpiece).
  split; [|split].
  - intros E. rewrite E in Hlen. discriminate.
  - apply trim_trim.
  - apply all_trim.
    pose proof (split_no_separator "," recipients) as H.
    rewrite List.Forall_forall in H. apply (H piece Hpiece).
Qed.

(** X20 (ComposePage.handleSend): when the page calls the API, the request
    passes the required-fields check of POST /send; its recipients are the
    pieces of the input between commas, trimmed, without the empty ones;
    no idempotency key is sent; and the flags [needsGmailAuth] and
    [needsNylasAuth] of the page are not both set.  (Both flags start
    unset and change only when a status call succeeds, so this does not
    say that a provider is authorized.) *)
Theorem X20_the_compose_page_sends_clean_recipients
    (selectedNote selectedTemplate recipients : string)
    (needsGmailAuth needsNylasAuth : bool) (rq : Emails.SendEmailRequest) :
  Pages.handleSend selectedNote selectedTemplate recipients needsGmailAuth needsNylasAuth
    = Pages.Submitted rq ->
  Emails.missing_fields rq = false
  /\ Forall clean_recipient (Emails.rq_recipients rq)
  /\ Emails.rq_recipients rq = Pages.recipientList recipients
  /\ Emails.rq_idempotency_key rq = None
  /\ (needsGmailAuth && needsNylasAuth = false).
Proof.
  unfold Pages.handleSend.
  destruct (String.eqb_spec selectedNote ""); [discriminate|].
  destruct (String.eqb_spec selectedTemplate ""); [discriminate|].
  destruct (String.eqb (Js.trim recipients) ""); [discriminate|]. cbn [orb].
  destruct (needsGmailAuth && needsNylasAuth); [discriminate|].
  pose proof (recipientList_clean recipients) as Hclean.
  destruct (Pages.recipientList recipients) as [|recipient more]; [discriminate|].
  intros [= <-]. cbn. split; [|auto].
  unfold Emails.missing_fields. cbn.
  destruct (String.eqb_spec selectedNote ""); [contradiction|].
  destruct (String.eqb_spec selectedTemplate ""); [contradiction|]. reflexivity.
Qed.

Lemma X20_compose_page_witness :
  let rq := {| Emails.rq_note_id := "n1"; Emails.rq_template_id := "t1";
               Emails.rq_recipients := ["a@b.c"; "d@e.f"];
               Emails.rq_idempotency_key := None |} in
  Pages.handleSend "n1" "t1" " a@b.c, ,d@e.f ," true false = Pages.Submitted rq
  /\ Emails.missing_fields rq = false
  /\ Forall clean_recipient (Emails.rq_recipients rq).
Proof.
  intros rq.
  assert (H : Pages.handleSend "n1" "t1" " a@b.c, ,d@e.f ," true false = Pages.Submitted rq)
    by reflexivity.
  split; [exact H|].
  destruct (X20_the_compose_page_sends_clean_recipients _ _ _ _ _ _ H) as (H1 & H2 & _).
  split; assumption.
Defined.

Lemma trim_nonempty (s : string) : Js.trim s <> "" -> s <> "".
Proof. intros H ->. apply H. reflexivity. Qed.

(** X21 (TemplateEditor and NoteEditor, handleSubmit): what the editors
    submit is what was typed, and it is never answered with the
    required-fields error of the server, by POST or by PUT. *)
Theorem X21_the_editors_never_meet_the_required_fields_error (W : World)
    (now : nat -> Date) (user : User) (id : string) (st : State) :
  (forall name subject text call,
      Pages.submitTemplate name subject text = Pages.Submitted call ->
      call = (name, subject, text)
      /\ body (fst (Templates.create W user name subject text st))
         <> BError "Name, subject, and body are required" None
      /\ body (fst (Templates.update W user id name subject text st))
         <> BError "Name, subject, and body are required" None)
  /\ (forall title content call,
        Pages.submitNote title content = Pages.Submitted call ->
        call = (title, content)
        /\ reply_status (fst (Notes.create W now user title content st)) <> 400%Z
        /\ reply_status (fst (Notes.update now user id title content st)) <> 400%Z).
Proof.
  split.
  - intros name subject text call. unfold Pages.submitTemplate.
    destruct (String.eqb_spec (Js.trim name) "") as [|Hn]; [discriminate|].
    destruct (String.eqb_spec (Js.trim subject) "") as [|Hs]; [discriminate|].
    destruct (String.eqb_spec (Js.trim text) "") as [|Hb]; [discriminate|].
    intros [= <-]. split; [reflexivity|].
    apply trim_nonempty in Hn, Hs, Hb.
    unfold Templates.create, Templates.update, handler.
    destruct (String.eqb_spec name ""); [contradiction|].
    destruct (String.eqb_spec subject ""); [contradiction|].
    destruct (String.eqb_spec text ""); [contradiction|]. cbn [orb].
    destruct (negb _); [cbn; split; discriminate|]. cbv zeta. split.
    + pass_varchar; [|cbn; discriminate]. pass_varchar; [|cbn; discriminate].
      step_monad. destruct (existsb _ _); cbn; discriminate.
    + pass_varchar; [|cbn; discriminate]. pass_varchar; [|cbn; discriminate].
      rewrite bind_run.
      destruct (Templates.UPDATE _ _ st) as [[[|row rows]|e] st1]; cbn; discriminate.
  - intros title content call. unfold Pages.submitNote.
    destruct (String.eqb_spec (Js.trim title) "") as [|Ht]; [discriminate|].
    destruct (String.eqb_spec (Js.trim content) "") as [|Hc]; [discriminate|].
    intros [= <-]. split; [reflexivity|].
    apply trim_nonempty in Ht, Hc.
    unfold Notes.create, Notes.update, route.
    destruct (String.eqb_spec title ""); [contradiction|].
    destruct (String.eqb_spec content ""); [contradiction|]. cbn [orb]. split.
    + pass_varchar; [|cbn; discriminate].
      step_monad. destruct (existsb _ _); cbn; discriminate.
    + pass_varchar; [|cbn; discriminate].
      step_monad. destruct (List.filter _ _); cbn; discriminate.
Qed.

Lemma X21_editors_witness :
  (Pages.submitTemplate "Plain" "{{note_title}}" "<p>one</p>"
     = Pages.Submitted ("Plain", "{{note_title}}", "<p>one</p>")
   /\ body (fst (Templates.create Sample.world (Sample.user "u1" None None)
                   "Plain" "{{note_title}}" "<p>one</p>" Sample.empty_state))
      <> BError "Name, subject, and body are required" None)
  /\ (Pages.submitNote "Trip" "Pack the bags" = Pages.Submitted ("Trip", "Pack the bags")
      /\ reply_status (fst (Notes.create Sample.world (fun _ => 0%Z)
                              (Sample.user "u1" None None) "Trip" "Pack the bags"
                              Sample.empty_state)) <> 400%Z).
Proof.
  destruct (X21_the_editors_never_meet_the_required_fields_error Sample.world
              (fun _ => 0%Z) (Sample.user "u1" None None) "row-0" Sample.empty_state)
    as [Htemplate Hnote].
  split.
  - split; [reflexivity|].
    apply (Htemplate "Plain" "{{note_title}}" "<p>one</p>" _ eq_refl).
  - split; [reflexivity|].
    apply (Hnote "Trip" "Pack the bags" _ eq_refl).
Defined.

(** ** The middleware *)

Lemma split_first_piece (sep : ascii) (w rest : string) :
  Js.all (fun c => negb (Ascii.eqb c sep)) w = true ->
  Pages.split sep (w +:+ String sep rest) = w :: Pages.split sep rest.
Proof.
  induction w as [|c w IH]; intros Hw.
  - rewrite append_empty_l. cbn [Pages.split]. rewrite Ascii.eqb_refl. reflexivity.
  - rewrite append_cons. cbn [Pages.split Js.all] in *.
    apply andb_true_iff in Hw as [Hc Hw]. apply negb_true_iff in Hc.
    rewrite Hc, (IH Hw). reflexivity.
Qed.

Lemma split_head_piece (sep : ascii) (w : string) :
  Js.all (fun c => negb (Ascii.eqb c sep)) w = true ->
  exists rest, Pages.split sep w = w :: rest.
Proof.
  induction w as [|c w IH]; intros Hw; [exists []; reflexivity|].
  cbn [Pages.split Js.all] in *.
  apply andb_true_iff in Hw as [Hc Hw]. apply negb_true_iff in Hc. rewrite Hc.
  destruct (IH Hw) as [rest ->]. exists rest. reflexivity.
Qed.

Lemma split_pieces (sep : ascii) (s : string) :
  Forall (fun piece => Js.all (fun c => negb (Ascii.eqb c sep)) piece = true)
    (Pages.split sep s).
Proof. apply split_no_separator. Qed.

(** X22 ([authenticateToken]): the middleware either refuses, with 401
    [Access token required], 403 [Invalid token] or 401 [User not found],
    and leaves the state as it was, or it hands over to the next handler a
    stored user whose id is the one [jwt.verify] found in the token.  The
    token is the second piece of the header: for a header made of a scheme,
    a blank and a token without blanks it is that token, whatever the
    scheme is. *)
Theorem X22_the_middleware_admits_stored_users_only
    (jwt_verify : string -> thrown + option string) (authHeader : option string)
    (next : User -> State -> Response * State) (st : State) :
  ((exists error code,
       Auth.authenticateToken jwt_verify authHeader next st = (Auth.refusal code error, st)
       /\ In (code, error) [(401%Z, "Access token required"); (403%Z, "Invalid token");
                            (401%Z, "User not found")])
   \/ (exists token user,
         Auth.bearer_token authHeader = Some token
         /\ token <> "" /\ no_blank token = true
         /\ jwt_verify token = inr (Some (user_id user))
         /\ In user (users st)
         /\ Auth.authenticateToken jwt_verify authHeader next st = next user st))
  /\ (forall scheme token,
        no_blank scheme = true -> no_blank token = true -> token <> "" ->
        Auth.bearer_token (Some (scheme +:+ " " +:+ token)) = Some token).
Proof.
  split.
  - unfold Auth.authenticateToken.
    destruct (Auth.bearer_token authHeader) as [token|] eqn:Htoken.
    2:{ left. eexists _, _. split; [reflexivity|]. now left. }
    destruct (jwt_verify token) as [e|[userId|]] eqn:Hverify.
    + left. eexists _, _. split; [reflexivity|]. right. now left.
    + destruct (List.filter _ (users st)) as [|user rest] eqn:Husers.
      * left. eexists _, _. split; [reflexivity|]. right. right. now left.
      * right. apply filter_head_In in Husers as [Hin Hid]. apply String.eqb_eq in Hid.
        exists token, user. rewrite Hid.
        split; [reflexivity|]. split; [|split; [|auto]].
        -- revert Htoken. unfold Auth.bearer_token.
           destruct authHeader as [[|c h]|]; try discriminate.
           destruct (Pages.split " " (String c h)) as [|? [|[|t tok] ?]]; try discriminate.
           intros [= <-]. discriminate.
        -- revert Htoken. unfold Auth.bearer_token.
           destruct authHeader as [[|c h]|]; try discriminate.
           pose proof (split_pieces " " (String c h)) as Hpieces.
           destruct (Pages.split " " (String c h)) as [|? [|[|t tok] ?]]; try discriminate.
           intros [= <-]. inversion Hpieces as [|? ? _ Hrest]; subst.
           inversion Hrest as [|? ? Hp _]; subst. exact Hp.
    + left. eexists _, _. split; [reflexivity|]. right. right. now left.
  - intros scheme token Hscheme Htoken Hne. unfold Auth.bearer_token.
    destruct (scheme +:+ " " +:+ token) as [|c h] eqn:E.
    { destruct scheme; discriminate. }
    rewrite <- E. change (scheme +:+ " " +:+ token) with (scheme +:+ String " " token).
    rewrite (split_first_piece " " scheme token Hscheme).
    destruct (split_head_piece " " token Htoken) as [rest ->].
    destruct token; [congruence|reflexivity].
Qed.

(** ** Nylas grants *)

Section NylasAccountFacts.
Context (W : World).
Context (api_fetch : nat -> NylasAccount.ApiRequest -> thrown + NylasAccount.ApiResponse).
Context (sdk : nat -> string -> thrown + option string).

(** One endpoint: no exception leaves it, one question is asked, and an
    account it gives has an email and a name. *)
Lemma try_endpoint_run endpoint st :
  exists found,
    NylasAccount.try_endpoint W api_fetch endpoint st = (Ret found, set_tick (S (tick st)) st)
    /\ forall account, found = Some account ->
         TemplateEngine.truthy (NylasAccount.email account) = true
         /\ TemplateEngine.truthy (NylasAccount.name account) = true.
Proof.
  unfold NylasAccount.try_endpoint, NylasAccount.read_account. unfold_monad. cbn.
  destruct (api_fetch (tick st) _) as [e|response]; cbn.
  { eexists; split; [reflexivity|discriminate]. }
  destruct (NylasAccount.api_ok response).
  2:{ destruct (NylasAccount.api_text response); cbn;
      (eexists; split; [reflexivity|discriminate]). }
  destruct (NylasAccount.api_json response) as [e|result]; cbn.
  { eexists; split; [reflexivity|discriminate]. }
  destruct (JsVal.get_prop result "data") as [e|data]; cbn.
  { eexists; split; [reflexivity|discriminate]. }
  set (accountData := if TemplateEngine.truthy data then _ else _).
  destruct (JsVal.get_prop accountData "email") as [e|e1]; cbn.
  { eexists; split; [reflexivity|discriminate]. }
  destruct (JsVal.get_prop accountData "email_address") as [e|e2]; cbn.
  { eexists; split; [reflexivity|discriminate]. }
  destruct (JsVal.get_prop accountData "primary_email_address") as [e|e3]; cbn.
  { eexists; split; [reflexivity|discriminate]. }
  destruct (JsVal.get_prop accountData "name") as [e|n1]; cbn.
  { eexists; split; [reflexivity|discriminate]. }
  destruct (JsVal.get_prop accountData "display_name") as [e|n2]; cbn.
  { eexists; split; [reflexivity|discriminate]. }
  set (email := JsVal.or_else e1 _).
  destruct (TemplateEngine.truthy email) eqn:He; cbn.
  2:{ eexists; split; [reflexivity|discriminate]. }
  eexists; split; [reflexivity|]. intros account [= <-]. cbn. split; [exact He|].
  unfold JsVal.or_else. destruct (TemplateEngine.truthy n1) eqn:H1; [exact H1|].
  destruct (TemplateEngine.truthy n2) eqn:H2; [exact H2|exact He].
Qed.

Lemma getAccountInfo_run grantId st :
  exists account st',
    NylasAccount.getAccountInfo W api_fetch (Some grantId) st = (Ret (Some account), st')
    /\ TemplateEngine.truthy (NylasAccount.email account) = true
    /\ TemplateEngine.truthy (NylasAccount.name account) = true
    /\ same_tables st st' /\ trace st' = trace st
    /\ (tick st < tick st' <= tick st + 2)%nat.
Proof.
  unfold NylasAccount.getAccountInfo. rewrite bind_run.
  destruct (try_endpoint_run (NylasAccount.grant_url grantId) st) as (first & -> & H1).
  destruct first as [account|].
  - exists account, (set_tick (S (tick st)) st). destruct (H1 account eq_refl).
    repeat split; cbn; auto; lia.
  - rewrite bind_run.
    destruct (try_endpoint_run "https://api.us.nylas.com/v3/accounts" (set_tick (S (tick st)) st))
      as (second & -> & H2).
    destruct second as [account|].
    + exists account. eexists. destruct (H2 account eq_refl).
      split; [reflexivity|]. repeat split; cbn; auto; lia.
    + exists NylasAccount.fallback_account. eexists.
      split; [reflexivity|]. repeat split; cbn; auto; lia.
Qed.

Lemma grant_ok_run method grantId st :
  exists ok, NylasAccount.grant_ok W api_fetch method grantId st
             = (Ret ok, set_tick (S (tick st)) st).
Proof.
  unfold NylasAccount.grant_ok. rewrite try_catch_run, bind_run. cbn [ask].
  destruct (api_fetch (tick st) _) as [e|response]; cbn; eexists; reflexivity.
Qed.


End NylasAccountFacts.

(** X23 ([getAccountInfo]): given a grant id, the lookup never throws and
    never returns [null]: it returns an account whose email and name are
    truthy (the fallback [unknown@example.com] when no endpoint gave one),
    after one or two requests, and writes no table. *)
Theorem X23_account_lookup_always_names_an_email (W : World)
    (api_fetch : nat -> NylasAccount.ApiRequest -> thrown + NylasAccount.ApiResponse)
    (grantId : string) (st : State) :
  exists account st',
    NylasAccount.getAccountInfo W api_fetch (Some grantId) st = (Ret (Some account), st')
    /\ TemplateEngine.truthy (NylasAccount.email account) = true
    /\ TemplateEngine.truthy (NylasAccount.name account) = true
    /\ same_tables st st'
    /\ (tick st < tick st' <= tick st + 2)%nat.
Proof.
  destruct (getAccountInfo_run W api_fetch grantId st) as (account & st' & H & He & Hn & Hs & _ & Ht).
  exists account, st'. auto.
Qed.


(** X25 (POST /auth/nylas/revoke): the route always answers 200 and clears
    the Nylas columns of the caller, whether or not the Nylas API accepted
    the revocation; no other table is written, and POST /send no longer
    chooses Nylas for this user. *)
Theorem X25_revoking_always_clears_the_grant (W : World)
    (api_fetch : nat -> NylasAccount.ApiRequest -> thrown + NylasAccount.ApiResponse)
    (user : User) (st : State) :
  let out := NylasAccount.revoke W api_fetch user st in
  reply_status (fst out) = 200%Z
  /\ users (snd out) = map (NylasAccount.revoked (user_id user)) (users st)
  /\ notes (snd out) = notes st
  /\ email_templates (snd out) = email_templates st
  /\ email_template_versions (snd out) = email_template_versions st
  /\ sent_emails (snd out) = sent_emails st
  /\ forall u, In u (users (snd out)) -> user_id u = user_id user ->
       Emails.select_provider u <> Some Nylas.
Proof.
  cbv zeta. unfold NylasAccount.revoke, route. rewrite bind_run. cbn [get].
  assert (Hprov : forall us u,
            In u (map (NylasAccount.revoked (user_id user)) us) ->
            user_id u = user_id user -> Emails.select_provider u <> Some Nylas).
  { intros us u Hin Hid. apply List.in_map_iff in Hin as (u0 & <- & _).
    unfold NylasAccount.revoked in *.
    destruct (String.eqb (user_id u0) (user_id user)) eqn:Heq.
    - unfold Emails.select_provider. cbn. destruct (_ || _); discriminate.
    - apply String.eqb_neq in Heq. contradiction. }
  rewrite bind_run.
  destruct (List.filter _ (users st)) as [|userData rest].
  { cbn. repeat split. apply Hprov. }
  destruct (truthy_str (nylas_access_token userData)).
  - rewrite bind_run. unfold NylasAccount.revokeGrant.
    destruct (grant_ok_run W api_fetch "DELETE" (default "" (nylas_access_token userData)) st) as (ok & ->).
    cbn. repeat split. apply Hprov.
  - cbn. repeat split. apply Hprov.
Qed.

(** ** The properties on sample data *)

Ltac distinct_names :=
  rewrite NoDup_ListNoDup;
  repeat (constructor; [cbn; intuition discriminate|]); constructor.

Lemma shared_sound : sound Shared.state.
Proof.
  split; cbn [Shared.state notes email_templates sent_emails map]; cbn.
  - distinct_names.
  - distinct_names.
  - distinct_names.
  - distinct_names.
  - intros r [<-|[<-|[]]]; cbn.
    + exists Sample.note. auto.
    + exists Shared.note2. auto.
  - intros r [<-|[<-|[]]]; cbn.
    + exists Shared.template1. auto.
    + exists Shared.template2. auto.
Qed.

Lemma delivered_settled id user note template key :
  settled (Shared.delivered id user note template key).
Proof. left. cbn. repeat split; eexists; reflexivity. Qed.

Lemma shared_settled : Forall settled (sent_emails Shared.state).
Proof.
  cbn. repeat (apply List.Forall_cons; [apply delivered_settled|]). apply List.Forall_nil.
Qed.

Lemma shared_versions :
  Forall (version_on_file Shared.state) (sent_emails Shared.state).
Proof.
  cbn [Shared.state sent_emails].
  apply List.Forall_cons; [|apply List.Forall_cons; [|apply List.Forall_nil]]; left.
  - exists Shared.template1. cbn. auto.
  - exists Shared.template2. cbn. auto.
Qed.

Lemma X13_others_witness :
  let st := Shared.state in
  let st' := snd (Emails.send Sample.world Shared.u1 (Sample.request "k9" ["a@b.c"]) st) in
  (request Sample.world Shared.now "u1" st st' /\ sound st)
  /\ others_same "u1" st st'.
Proof.
  intros st st'.
  assert (Hreq : request Sample.world Shared.now "u1" st st')
    by exact (request_send Sample.world Shared.now "u1" Shared.u1 _ st eq_refl).
  split; [split; [exact Hreq|exact shared_sound]|].
  exact (X13_a_request_leaves_the_others_alone _ _ _ _ _ Hreq shared_sound).
Defined.

Lemma X14_constraints_witness :
  let st := Shared.state in
  let st' := snd (Templates.update Sample.world Shared.u1 "t1" "Plain" "{{note_title}}"
                    "<p>two</p>" st) in
  (request Sample.world Shared.now "u1" st st' /\ sound st)
  /\ sound st'.
Proof.
  intros st st'.
  assert (Hreq : request Sample.world Shared.now "u1" st st')
    by exact (request_template_update Sample.world Shared.now "u1" Shared.u1 _ _ _ _ st eq_refl).
  split; [split; [exact Hreq|exact shared_sound]|].
  exact (X14_requests_keep_the_constraints _ _ _ _ _ Hreq shared_sound).
Defined.

Lemma X15_pending_witness :
  let st := Shared.state in
  let st' := snd (Emails.send Sample.world Shared.u1 (Sample.request "k9" ["a@b.c"]) st) in
  (request Sample.world Shared.now "u1" st st' /\ Forall settled (sent_emails st))
  /\ Forall settled (sent_emails st').
Proof.
  intros st st'.
  assert (Hreq : request Sample.world Shared.now "u1" st st')
    by exact (request_send Sample.world Shared.now "u1" Shared.u1 _ st eq_refl).
  split; [split; [exact Hreq|exact shared_settled]|].
  exact (X15_no_record_stays_pending _ _ _ _ _ Hreq shared_settled).
Defined.

Lemma X16_version_witness :
  let st := Shared.state in
  let st' := snd (Templates.update Sample.world Shared.u1 "t1" "Plain" "{{note_title}}"
                    "<p>two</p>" st) in
  (request Sample.world Shared.now "u1" st st'
   /\ Forall (version_on_file st) (sent_emails st))
  /\ Forall (version_on_file st') (sent_emails st').
Proof.
  intros st st'.
  assert (Hreq : request Sample.world Shared.now "u1" st st')
    by exact (request_template_update Sample.world Shared.now "u1" Shared.u1 _ _ _ _ st eq_refl).
  split; [split; [exact Hreq|exact shared_versions]|].
  exact (X16_the_version_a_record_names_stays_on_file _ _ _ _ _ Hreq shared_versions).
Defined.

Lemma X10_deleted_template_witness :
  let W := Sample.world in
  let st := Shared.state in
  let st1 := snd (Templates.delete Shared.u1 "t1" st) in
  let st2 := snd (Templates.create W Shared.u1 "Plain" "{{note_title}}" "<p>one</p>" st1) in
  (NoDup (map tpl_id (email_templates st))
   /\ http_status (fst (Templates.delete Shared.u1 "t1" st)) = 200%Z
   /\ requests W Shared.now st1 st2)
  /\ fst (TemplateViews.get_one Shared.u1 "t1" st2)
     = {| reply_status := 404; reply_body := PError "Template not found" |}
  /\ sent_emails (snd (Emails.send W Shared.u1 (Sample.request "k9" ["a@b.c"]) st2))
     = sent_emails st2.
Proof.
  intros W st st1 st2.
  assert (Hids : NoDup (map tpl_id (email_templates st))) by (cbn; distinct_names).
  assert (Hdel : http_status (fst (Templates.delete Shared.u1 "t1" st)) = 200%Z)
    by (vm_compute; reflexivity).
  assert (Hreq : requests W Shared.now st1 st2).
  { apply rtc_once. exists "u1".
    exact (request_template_create W Shared.now "u1" Shared.u1 _ _ _ st1 eq_refl). }
  split; [repeat split; assumption|].
  destruct (X10_a_deleted_template_never_comes_back W Shared.now Shared.u1 "t1" st st2
              Hids Hdel Hreq Shared.u1) as (Hget & _ & _ & _ & Hsend).
  split; [exact Hget|]. exact (proj2 (Hsend (Sample.request "k9" ["a@b.c"]) eq_refl)).
Defined.

Lemma X12_created_template_witness :
  let W := Sample.world in
  let u := Sample.user "u1" None None in
  let out := Templates.create W u "Plain" "{{note_title}}" "<p>one</p>" Sample.empty_state in
  out = ({| http_status := 201; body := BTemplate Sample.first_template |}, snd out)
  /\ fst (TemplateViews.get_one u "row-0" (snd out))
     = {| reply_status := 200; reply_body := PData Sample.first_template |}
  /\ fst (TemplateViews.get_one Shared.u2 "row-0" (snd out))
     = {| reply_status := 404; reply_body := PError "Template not found" |}.
Proof.
  intros W u out.
  assert (H : out = ({| http_status := 201; body := BTemplate Sample.first_template |},
                     snd out)) by (vm_compute; reflexivity).
  split; [exact H|].
  destruct (X12_a_created_template_can_be_fetched W u "Plain" "{{note_title}}" "<p>one</p>"
              Sample.empty_state (snd out) Sample.first_template H)
    as (_ & _ & _ & Hget & Hother).
  split; [exact Hget|]. apply Hother. discriminate.
Defined.

Lemma X18_note_delete_witness :
  let st := Shared.state in
  let st' := snd (Notes.delete Shared.u1 "n1" st) in
  (sound st /\ reply_status (fst (Notes.delete Shared.u1 "n1" st)) = 200%Z)
  /\ sent_emails st' = [Shared.delivered "r2" "u2" "n2" "t2" "k2"]
  /\ Emails.by_key "k1" st' = []
  /\ fst (Notes.get_one Shared.u1 "n1" st')
     = {| reply_status := 404; reply_body := PError "Note not found" |}.
Proof.
  intros st st'.
  assert (Hdel : reply_status (fst (Notes.delete Shared.u1 "n1" st)) = 200%Z)
    by (vm_compute; reflexivity).
  split; [split; [exact shared_sound|exact Hdel]|].
  destruct (X18_deleting_a_note_deletes_its_records Sample.world Shared.u1 "n1" st
              shared_sound Hdel) as (Hrows & Hkeys & Hget & _).
  split; [exact Hrows|]. split; [|apply Hget].
  apply (Hkeys (Shared.delivered "r1" "u1" "n1" "t1" "k1")); [now left|reflexivity].
Defined.

Lemma X19_note_witness :
  let W := Sample.world in
  let u := Sample.user "u1" None None in
  let out := Notes.create W Shared.now u "Trip" "Pack the bags" Sample.empty_state in
  let row := {| note_id := "row-0"; note_user_id := "u1"; note_title := "Trip";
                note_content := "Pack the bags";
                note_created_at := 1793577600001%Z;
                note_updated_at := 1793577600001%Z |} in
  let row2 := {| note_id := "row-0"; note_user_id := "u1"; note_title := "Journey";
                 note_content := "Pack the bags and the tent";
                 note_created_at := 1793577600001%Z;
                 note_updated_at := 1793577600002%Z |} in
  let run := Notes.update Shared.now u "row-0" "Journey" "Pack the bags and the tent"
               (snd out) in
  out = ({| reply_status := 201; reply_body := PData row |}, snd out)
  /\ fst (Notes.get_one u "row-0" (snd out))
     = {| reply_status := 200; reply_body := PData row |}
  /\ fst (Notes.get_one Shared.u2 "row-0" (snd out))
     = {| reply_status := 404; reply_body := PError "Note not found" |}
  /\ ("Journey" <> "" /\ "Pack the bags and the tent" <> ""
      /\ String.length "Journey" <= 255)
  /\ fst run = {| reply_status := 200; reply_body := PData row2 |}
  /\ fst (Notes.get_one u "row-0" (snd run))
     = {| reply_status := 200; reply_body := PData row2 |}.
Proof.
  intros W u out row row2 run.
  assert (H : out = ({| reply_status := 201; reply_body := PData row |}, snd out))
    by (vm_compute; reflexivity).
  split; [exact H|].
  destruct (X19_a_note_is_read_back_as_written W Shared.now u "Trip" "Pack the bags"
              Sample.empty_state (snd out) row H)
    as (_ & Hget & Hother & Hupdate).
  split; [exact Hget|]. split; [apply Hother; discriminate|].
  assert (Hw : String.length "Journey" <= 255) by (cbn; lia).
  split; [repeat split; [discriminate|discriminate|exact Hw]|].
  exact (Hupdate "Journey" "Pack the bags and the tent"
           ltac:(discriminate) ltac:(discriminate) Hw).
Defined.

Lemma X11_refused_witness :
  let u := Sample.user "u1" None None in
  let out := Templates.create Sample.world u "" "{{note_title}}" "<p>one</p>"
               Sample.empty_state in
  http_status (fst out) <> 201%Z /\ same_tables Sample.empty_state (snd out).
Proof.
  intros u out.
  assert (H : http_status (fst out) <> 201%Z) by (vm_compute; discriminate).
  split; [exact H|].
  exact (proj1 (X11_a_refused_template_changes_nothing Sample.world u "row-0" ""
                  "{{note_title}}" "<p>one</p>" Sample.empty_state) H).
Defined.

Lemma X22_middleware_witness :
  let verify := fun token : string =>
    if String.eqb token "signed" then inr (Some "u1") else inl (JsError "jwt malformed") in
  let next := fun (user : User) (st : State) =>
    ({| http_status := 200; body := BMessage (user_id user) |}, st) in
  Auth.bearer_token (Some "Bearer signed") = Some "signed"
  /\ Auth.authenticateToken verify (Some "Bearer signed") next Shared.state
     = ({| http_status := 200; body := BMessage "u1" |}, Shared.state)
  /\ Auth.authenticateToken verify (Some "Bearer forged") next Shared.state
     = (Auth.refusal 403 "Invalid token", Shared.state).
Proof.
  intros verify next.
  split.
  - exact (proj2 (X22_the_middleware_admits_stored_users_only verify None next Shared.state)
             "Bearer" "signed" eq_refl eq_refl ltac:(discriminate)).
  - split; reflexivity.
Defined.
